(** * openfpv_compat: normalisation helpers, compatibility rules and summary

    A shallow embedding of [openfpv_compat/schema.py], [openfpv_compat/engine.py]
    and [openfpv_compat/summarize.py].

    - Python [str] values are [string]s of bytes (UTF-8); the character
      classes and case maps are the ASCII ones, bytes above 127 are left
      alone.  On a text of ASCII characters ([isascii]) the string methods
      give what Python's give; Python's also know the white space and the
      letters beyond ASCII, and a statement that depends on them says which
      texts it is about.
    - Python [float] values are binary64 numbers: [PrimFloat.float], with
      [nan] for a missing numeric cell as in a pandas float column.
    - A pandas frame of parts is a list of typed rows; a result frame is a
      list of column labels with a list of rows of cells.
    - An exception is a [Raise] result. *)

From Stdlib Require Import ZArith Floats String Ascii List Bool Lia.
From Stdlib Require Import DecimalString Permutation Sorted.
Import ListNotations.

Set Warnings "-inexact-float".
Local Open Scope string_scope.

(** ** Python string methods *)

Module PyStr.

(** [str.isspace] on one ASCII character: TAB, LF, VT, FF, CR, FS, GS, RS,
    US and the space. *)
Definition isspace (c : ascii) : bool :=
  let n := nat_of_ascii c in
  ((9 <=? n) && (n <=? 13) || (28 <=? n) && (n <=? 32))%nat.

Definition upper_char (c : ascii) : ascii :=
  let n := nat_of_ascii c in
  if ((97 <=? n) && (n <=? 122))%nat then ascii_of_nat (n - 32) else c.

Definition lower_char (c : ascii) : ascii :=
  let n := nat_of_ascii c in
  if ((65 <=? n) && (n <=? 90))%nat then ascii_of_nat (n + 32) else c.

Fixpoint map_chars (f : ascii -> ascii) (s : string) : string :=
  match s with
  | EmptyString => EmptyString
  | String c r => String (f c) (map_chars f r)
  end.

Definition upper : string -> string := map_chars upper_char.
Definition lower : string -> string := map_chars lower_char.

(** [s.isascii()] *)
Definition isascii_char (c : ascii) : bool := (nat_of_ascii c <? 128)%nat.

Fixpoint isascii (s : string) : bool :=
  match s with
  | EmptyString => true
  | String c r => isascii_char c && isascii r
  end.

Fixpoint lstrip (s : string) : string :=
  match s with
  | EmptyString => EmptyString
  | String c r => if isspace c then lstrip r else s
  end.

Fixpoint rstrip (s : string) : string :=
  match s with
  | EmptyString => EmptyString
  | String c r =>
      match rstrip r with
      | EmptyString => if isspace c then EmptyString else String c EmptyString
      | r' => String c r'
      end
  end.

Definition strip (s : string) : string := rstrip (lstrip s).

(** [s.replace(old, new)] for a non-empty [old] (it is a non-empty literal
    at every call of the program): matches are taken left to right and do
    not overlap; [skip] counts the characters of a match still to drop. *)
Fixpoint replace_from (old new : string) (skip : nat) (s : string) : string :=
  match s with
  | EmptyString => EmptyString
  | String c r =>
      match skip with
      | S k => replace_from old new k r
      | O =>
          if prefix old (String c r)
          then new ++ replace_from old new (String.length old - 1) r
          else String c (replace_from old new 0 r)
      end
  end.

Definition replace (old new s : string) : string := replace_from old new 0 s.

(** [s.split(sep)] for a one-character separator. *)
Fixpoint split (sep : ascii) (s : string) : list string :=
  match s with
  | EmptyString => [EmptyString]
  | String c r =>
      if Ascii.eqb c sep then EmptyString :: split sep r
      else match split sep r with
           | w :: ws => String c w :: ws
           | [] => [String c EmptyString]
           end
  end.

(** [s.split()]: the maximal runs of non-space characters; [cur] is the
    run being read. *)
Fixpoint words_from (cur : string) (s : string) : list string :=
  match s with
  | EmptyString => if String.eqb cur "" then [] else [cur]
  | String c r =>
      if isspace c
      then (if String.eqb cur "" then words_from "" r else cur :: words_from "" r)
      else words_from (cur ++ String c EmptyString) r
  end.

Definition split_ws (s : string) : list string := words_from "" s.

(** [sep.join(l)] *)
Definition join (sep : string) (l : list string) : string := String.concat sep l.

(** [sub in s] *)
Fixpoint contains (sub s : string) : bool :=
  prefix sub s ||
  match s with
  | EmptyString => false
  | String _ r => contains sub r
  end.

(** [t in {...}] / [t in out] for strings *)
Definition mem (t : string) (l : list string) : bool := existsb (String.eqb t) l.

(** [str(n)] for a non-negative integer *)
Definition str_of_nonneg (n : Z) : string :=
  NilZero.string_of_uint (N.to_uint (Z.to_N n)).

End PyStr.

(** ** Conversions between floats and decimal text *)

Module PyFloat.
Import PyStr.
Local Open Scope Z_scope.

Definition digit_val (c : ascii) : option Z :=
  let n := nat_of_ascii c in
  if ((48 <=? n) && (n <=? 57))%nat then Some (Z.of_nat (n - 48)) else None.

(** The rest of a [digitpart ::= digit (["_"] digit)*] once its first digit
    is read: [acc] is the number read so far, [cnt] how many digits. *)
Fixpoint digits_from (acc cnt : Z) (s : string) : Z * Z * string :=
  match s with
  | EmptyString => (acc, cnt, EmptyString)
  | String c r =>
      match digit_val c with
      | Some d => digits_from (10 * acc + d) (cnt + 1) r
      | None =>
          if Ascii.eqb c "_" then
            match r with
            | String c' r' =>
                match digit_val c' with
                | Some d => digits_from (10 * acc + d) (cnt + 1) r'
                | None => (acc, cnt, s)
                end
            | EmptyString => (acc, cnt, s)
            end
          else (acc, cnt, s)
      end
  end.

Definition digitpart (acc cnt : Z) (s : string) : option (Z * Z * string) :=
  match s with
  | String c r =>
      match digit_val c with
      | Some d => Some (digits_from (10 * acc + d) (cnt + 1) r)
      | None => None
      end
  | EmptyString => None
  end.

(** [number ::= [digitpart] "." digitpart | digitpart ["."]]: the digits as
    one integer, the number of digits after the point, the rest. *)
Definition number (s : string) : option (Z * Z * string) :=
  match s with
  | String "." r => digitpart 0 0 r
  | _ =>
      match digitpart 0 0 s with
      | None => None
      | Some (D, _, rest) =>
          match rest with
          | String "." r =>
              match digitpart D 0 r with
              | Some x => Some x
              | None => Some (D, 0, r)
              end
          | _ => Some (D, 0, rest)
          end
      end
  end.

(** [exponent ::= ("e" | "E") [sign] digitpart], after its letter. *)
Definition exponent (s : string) : option (Z * string) :=
  let '(sg, s1) :=
    match s with
    | String "+" r => (1, r)
    | String "-" r => (-1, r)
    | _ => (1, s)
    end in
  match digitpart 0 0 s1 with
  | Some (E, _, rest) => Some (sg * E, rest)
  | None => None
  end.

(** [floatnumber ::= number [exponent]] up to the end of the text, as
    [(D, k)] for the value [D * 10^k]. *)
Definition floatnumber (s : string) : option (Z * Z) :=
  match number s with
  | None => None
  | Some (D, nf, rest) =>
      match rest with
      | EmptyString => Some (D, - nf)
      | String c r =>
          if Ascii.eqb c "e" || Ascii.eqb c "E" then
            match exponent r with
            | Some (E, EmptyString) => Some (D, E - nf)
            | _ => None
            end
          else None
      end
  end.

(** The binary64 number nearest to [D * 10^k] (ties to even). *)
Definition SF_of_decimal (neg : bool) (D k : Z) : spec_float :=
  match D with
  | Zpos d =>
      if 0 <=? k then binary_normalize prec emax (Zpos d * 10 ^ k) 0 false
      else SFdiv prec emax (S754_finite false d 0)
                           (S754_finite false (Z.to_pos (10 ^ (- k))) 0)
  | _ => S754_zero false
  end.

Definition with_sign (neg : bool) (x : float) : float :=
  if neg then PrimFloat.opp x else x.

(** [float(s)] for a [str]: [None] where Python raises [ValueError]. *)
Definition float_of_str (s : string) : option float :=
  let t := strip s in
  let '(neg, body) :=
    match t with
    | String "+" r => (false, r)
    | String "-" r => (true, r)
    | _ => (false, t)
    end in
  let l := lower body in
  if String.eqb l "inf" || String.eqb l "infinity" then Some (with_sign neg infinity)
  else if String.eqb l "nan" then Some nan
  else match floatnumber body with
       | Some (D, k) => Some (with_sign neg (SF2Prim (SF_of_decimal false D k)))
       | None => None
       end.

Definition round_half_even_div (n d : Z) : Z :=
  let q := n / d in
  match (2 * (n mod d) ?= d) with
  | Lt => q
  | Gt => q + 1
  | Eq => if Z.even q then q else q + 1
  end.

(** [format(x, ".1f")] *)
Definition format_1f (x : float) : string :=
  match Prim2SF x with
  | S754_nan => "nan"
  | S754_infinity s => if s then "-inf" else "inf"
  | S754_zero s => ((if s then "-" else "") ++ "0.0")%string
  | S754_finite s m e =>
      let n := if 0 <=? e then Zpos m * 2 ^ e * 10
               else round_half_even_div (Zpos m * 10) (2 ^ (- e)) in
      ((if s then "-" else "") ++ str_of_nonneg (n / 10) ++ "."
         ++ str_of_nonneg (n mod 10))%string
  end.

End PyFloat.

(** ** Binary64 rounding, for the order of products *)

Module Binary64.
Local Open Scope Z_scope.

(** nearest integer to P / 2^n, ties to even *)
Definition rne (P n : Z) : Z :=
  let q := P / 2 ^ n in
  match 2 * (P mod 2 ^ n) ?= 2 ^ n with
  | Lt => q
  | Gt => q + 1
  | Eq => if Z.even q then q else q + 1
  end.

(** The record after [k] halvings of [P]. *)
Definition shr_inv (P : Z) (k : nat) (mrs : shr_record) : Prop :=
  let m := shr_m mrs in
  let rem := P - m * 2 ^ Z.of_nat k in
  0 <= m /\ m = P / 2 ^ Z.of_nat k /\
  match k with
  | O => shr_r mrs = false /\ shr_s mrs = false
  | S k' =>
      (shr_r mrs = true <-> 2 ^ Z.of_nat k' <= rem)
      /\ (shr_s mrs = true <-> rem <> 0 /\ rem <> 2 ^ Z.of_nat k')
  end.

(** The result of rounding a positive integer mantissa. *)
Definition rounded (s : bool) (m1 e' : Z) : spec_float :=
  if m1 =? 0 then S754_zero s
  else if m1 =? 2 ^ 53
       then (if e' + 1 <=? 971 then S754_finite s (2 ^ 52)%positive (e' + 1)
             else S754_infinity s)
       else (if e' <=? 971 then S754_finite s (Z.to_pos m1) e' else S754_infinity s).

(** The place of a number in the order of [SFcompare]. *)
Definition sf_rank (x : spec_float) : Z * Z * Z :=
  match x with
  | S754_nan => (0, 0, 0)
  | S754_zero _ => (0, 0, 0)
  | S754_infinity s => (if s then -2 else 2, 0, 0)
  | S754_finite s m e => if s then (-1, - e, - Zpos m) else (1, e, Zpos m)
  end.

Definition lex_le (a b : Z * Z * Z) : Prop :=
  let '(a1, a2, a3) := a in
  let '(b1, b2, b3) := b in
  a1 < b1 \/ (a1 = b1 /\ (a2 < b2 \/ (a2 = b2 /\ a3 <= b3))).

Definition not_nan (x : spec_float) : Prop :=
  match x with S754_nan => False | _ => True end.

Definition finite_or_zero (x : spec_float) : Prop :=
  match x with
  | S754_zero _ | S754_finite _ _ _ => True
  | _ => False
  end.

End Binary64.

(** ** schema.py *)

Module Schema.

Definition ALLOWED_MOUNTS : list string :=
  ["9x9"; "12x12"; "16x16"; "19x19"; "20x20"; "25.5x25.5"; "30.5x30.5"].

Definition RF_CONNECTORS : list string :=
  ["SMA"; "RP-SMA"; "MMCX"; "MCX"; "U.FL"; "IPEX MHF4"; "IPEX MHF1"].

Definition PASS_VALUES : list string := ["PASS"; "OK"; "TRUE"; "YES"; "1"].

End Schema.

(** ** engine.py: normalisation helpers *)

Module Canon.
Import PyStr Schema.

(** The argument of [_canon_mount_list]: [None], a list of tokens, or
    anything else through [str]. *)
Inductive mount_val :=
  | MNone
  | MList (l : list string)
  | MStr (s : string).

(** One turn of the loop of [_canon_mount_list] on the token [t0]. *)
Definition mount_step (out : list string) (t0 : string) : list string :=
  let t := lower (strip t0) in
  if String.eqb t "" then out
  else
    let t := if String.eqb t "30x30" then "30.5x30.5" else t in
    let t := if String.eqb t "25x25" then "25.5x25.5" else t in
    if mem t ALLOWED_MOUNTS && negb (mem t out) then out ++ [t] else out.

Definition _canon_mount_list (val : mount_val) : list string :=
  match val with
  | MNone => []
  | MList l => fold_left mount_step l []
  | MStr s => fold_left mount_step (split "," (replace " " "" (replace "×" "x" s))) []
  end.

(** The text the RF substring tests run on. *)
Definition rf_text (value : string) : string :=
  let s := replace "." " " (replace "-" " " (replace "_" " " (upper (strip value)))) in
  join " " (split_ws s).

Definition _canon_connector (value : option string) : option string :=
  match value with
  | None => None
  | Some v =>
      let s := rf_text v in
      if contains "RP SMA" s then Some "RP-SMA"
      else if contains "SMA" s then Some "SMA"
      else if contains "MMCX" s then Some "MMCX"
      else if contains "MCX" s && negb (contains "MMCX" s) then Some "MCX"
      else if contains "MHF4" s || contains "IPEX 4" s then Some "IPEX MHF4"
      else if contains "MHF1" s || contains "IPEX 1" s then Some "IPEX MHF1"
      else if contains "U FL" s || contains "UFL" s || contains "IPEX" s then Some "U.FL"
      else None
  end.

(** The token the power-connector vocabulary is looked up with. *)
Definition power_text (s : string) : string :=
  replace "-" "" (replace " " "" (upper (strip s))).

Definition _canon_power_conn (s : option string) : option string :=
  match s with
  | None => None
  | Some v =>
      let t := power_text v in
      if mem t ["XT30"; "AMASSXT30"; "XT30U"] then Some "XT30"
      else if mem t ["XT60"; "AMASSXT60"; "XT60H"] then Some "XT60"
      else if mem t ["XT90"; "XT90S"] then Some "XT90"
      else if mem t ["EC3"] then Some "EC3"
      else if mem t ["EC5"] then Some "EC5"
      else if mem t ["JSTRCY"; "JST"] then Some "JST-RCY"
      else Some t
  end.

Definition _canon_prop_hub (s : option string) : option string :=
  match s with
  | None => None
  | Some x =>
      let v := replace "_" "" (replace "-" "" (lower (strip x))) in
      if contains "m5" v || contains "5mm" v then Some "M5"
      else if contains "tmount" v || mem v ["t"; "tmnt"] then Some "T-MOUNT"
      else None
  end.

(** [_motor_hub_from_shaft] on a cell of the float column [shaft_mm]. *)
Definition _motor_hub_from_shaft (shaft_mm : float) : option string :=
  let x := shaft_mm in
  if is_nan x then None
  else if (4.8 <=? x)%float then Some "M5"
  else if (x <=? 2.1)%float then Some "T-MOUNT"
  else None.

End Canon.

(** ** engine.py: frames of parts and of edges *)

Module Frame.

(** A cell of a frame: null ([None] or NaN in an object column), a float,
    or a string. *)
Inductive cell :=
  | CNull
  | CNum (x : float)
  | CStr (s : string).

(** The float columns of the parts table that [build_compat] reads; a
    missing value is [nan]. *)
Inductive num_col :=
  | frame_max_prop_in | prop_diameter_in | shaft_mm | max_current_a
  | cells_min | cells_max
  | esc_continuous_current_a | esc_cells_min | esc_cells_max | cell_count
  | fc_bec_5v_a | fc_bec_9v_a | fc_bec_10v_a | fc_bec_12v_a
  | fc_vbat_min_s | fc_vbat_max_s
  | vtx_5v_current_a | vtx_9v_current_a | vtx_10v_current_a | vtx_12v_current_a
  | vtx_input_s_min | vtx_input_s_max
  | camera_input_v_min | camera_input_v_max | camera_5v_current_a
  | antenna_band_ghz | capacitor_voltage_v.

(** The text columns it reads; a missing value is [None]. *)
Inductive str_col :=
  | frame_fc_mount_pattern_eff | frame_motor_mount_pattern_eff
  | fc_mount_pattern_eff | esc_mount_pattern_eff | motor_mount_pattern_eff
  | battery_connector_eff | esc_batt_connector_eff | pigtail_connector_eff
  | vtx_system | camera_system
  | vtx_ant_conn | vtx_ant_conn_eff
  | antenna_conn | antenna_conn_eff | antenna_use
  | rx_ant_conn | prop_hub_eff.

Definition num_col_name (c : num_col) : string :=
  match c with
  | frame_max_prop_in => "frame_max_prop_in"
  | prop_diameter_in => "prop_diameter_in"
  | shaft_mm => "shaft_mm"
  | max_current_a => "max_current_a"
  | cells_min => "cells_min"
  | cells_max => "cells_max"
  | esc_continuous_current_a => "esc_continuous_current_a"
  | esc_cells_min => "esc_cells_min"
  | esc_cells_max => "esc_cells_max"
  | cell_count => "cell_count"
  | fc_bec_5v_a => "fc_bec_5v_a"
  | fc_bec_9v_a => "fc_bec_9v_a"
  | fc_bec_10v_a => "fc_bec_10v_a"
  | fc_bec_12v_a => "fc_bec_12v_a"
  | fc_vbat_min_s => "fc_vbat_min_s"
  | fc_vbat_max_s => "fc_vbat_max_s"
  | vtx_5v_current_a => "vtx_5v_current_a"
  | vtx_9v_current_a => "vtx_9v_current_a"
  | vtx_10v_current_a => "vtx_10v_current_a"
  | vtx_12v_current_a => "vtx_12v_current_a"
  | vtx_input_s_min => "vtx_input_s_min"
  | vtx_input_s_max => "vtx_input_s_max"
  | camera_input_v_min => "camera_input_v_min"
  | camera_input_v_max => "camera_input_v_max"
  | camera_5v_current_a => "camera_5v_current_a"
  | antenna_band_ghz => "antenna_band_ghz"
  | capacitor_voltage_v => "capacitor_voltage_v"
  end.

(** One row of the normalised parts table.  [load_parts] makes every
    column of [numeric_cols] a float column; [rx_band_ghz] is not in that
    list, so its cells stay as they were read.  [sku] and [name] are texts
    or null ([None]); [type] went through [normalize_type] and is a text. *)
Record part := {
  sku : option string;
  type : string;
  name : option string;
  num : num_col -> float;
  str : str_col -> option string;
  rx_band_ghz : cell
}.

(** A result frame: column labels and rows, one cell per label. *)
Record DataFrame := {
  columns : list string;
  rows : list (list cell)
}.

(** [pd.DataFrame(columns=cols)] *)
Definition empty_frame (cols : list string) : DataFrame :=
  {| columns := cols; rows := [] |}.

(** [df.empty]: no row or no column. *)
Definition empty (df : DataFrame) : bool :=
  match rows df, columns df with
  | [], _ | _, [] => true
  | _, _ => false
  end.

Definition is_empty {A} (l : list A) : bool :=
  match l with [] => true | _ => false end.

Definition cell_of_opt (o : option string) : cell :=
  match o with Some s => CStr s | None => CNull end.

(** [pd.isna] of a cell *)
Definition isna (c : cell) : bool :=
  match c with
  | CNull => true
  | CNum x => is_nan x
  | CStr _ => false
  end.

Definition notna_opt {A} (o : option A) : bool :=
  match o with Some _ => true | None => false end.

(** [df.dropna(subset=cols)] on float and on text columns *)
Definition dropna_num (cs : list num_col) (l : list part) : list part :=
  filter (fun r => forallb (fun c => negb (is_nan (num r c))) cs) l.

Definition dropna_str (cs : list str_col) (l : list part) : list part :=
  filter (fun r => forallb (fun c => notna_opt (str r c)) cs) l.

(** [_cartesian]: the rows are the pairs, left rows outermost. *)
Definition _cartesian {A B} (a : list A) (b : list B) : list (A * B) :=
  if is_empty a || is_empty b then [] else list_prod a b.

(** A join key of [merge]: pandas matches a null key with a null key. *)
Definition key_eqb (a b : option string) : bool :=
  match a, b with
  | Some x, Some y => String.eqb x y
  | None, None => true
  | _, _ => false
  end.

(** [l.merge(r, how="inner")] on the keys [kl] and [kr]: for every left row
    in turn, the right rows with an equal key. *)
Definition merge {A B K} (eqb : K -> K -> bool) (kl : A -> K) (kr : B -> K)
    (l : list A) (r : list B) : list (A * B) :=
  flat_map (fun a => map (pair a) (filter (fun b => eqb (kl a) (kr b)) r)) l.

(** The exceptions of the program; [ValueError] with the text or the key it
    is about. *)
Inductive exn :=
  | ValueError (text : string)
  | TypeError
  | KeyError.

Inductive result (A : Type) :=
  | Ok (a : A)
  | Raise (e : exn).
Arguments Ok {A} a.
Arguments Raise {A} e.

Definition bind {A B} (m : result A) (f : A -> result B) : result B :=
  match m with
  | Ok a => f a
  | Raise e => Raise e
  end.

(** [series.apply(f)] for an [f] that may raise: the first exception wins. *)
Fixpoint series_apply {A B} (f : A -> result B) (l : list A) : result (list B) :=
  match l with
  | [] => Ok []
  | a :: r => bind (f a) (fun b => bind (series_apply f r) (fun bs => Ok (b :: bs)))
  end.

End Frame.

(** ** engine.py: the rules of [build_compat] *)

Module Engine.
Import PyStr PyFloat Schema Canon.
Export Frame.
Local Open Scope list_scope.

Definition py_max (a b : float) : float := if (a <? b)%float then b else a.
Definition py_min (a b : float) : float := if (b <? a)%float then b else a.

Definition _s_overlap (a_min a_max b_min b_max : float) : option bool :=
  if existsb is_nan [a_min; a_max; b_min; b_max] then None
  else Some (py_max a_min b_min <=? py_min a_max b_max)%float.

(** The four identifying cells of a pair. *)
Definition ids (a b : part) : list cell :=
  [cell_of_opt (sku a); cell_of_opt (name a); cell_of_opt (sku b); cell_of_opt (name b)].

Definition slice (t : string) (df : list part) : list part :=
  filter (fun r => String.eqb (type r) t) df.

(** *** frame - prop (size) *)

Definition compat_frame_prop (frames props : list part) : DataFrame :=
  let frp := dropna_num [frame_max_prop_in] frames in
  let prp := dropna_num [prop_diameter_in] props in
  let j := _cartesian frp prp in
  if negb (is_empty j) then
    {| columns := ["frame_sku"; "frame_name"; "prop_sku"; "prop_name";
                   "frame_max_prop_in"; "prop_diameter_in"; "status"; "reason"];
       rows := map (fun '(f, p) =>
         let status :=
           if (num p prop_diameter_in <=? num f frame_max_prop_in)%float
           then "PASS" else "FAIL" in
         let reason :=
           if String.eqb status "PASS" then "Prop diameter ≤ frame max"
           else "Prop diameter > frame max" in
         ids f p ++ [CNum (num f frame_max_prop_in); CNum (num p prop_diameter_in);
                     CStr status; CStr reason]) j |}
  else empty_frame ["frame_sku"; "frame_name"; "prop_sku"; "prop_name";
                    "frame_max_prop_in"; "prop_diameter_in"; "status"; "reason"].

(** *** the three mount rules *)

Definition mounts (r : part) (c : str_col) : list string :=
  match str r c with
  | Some s => _canon_mount_list (MStr s)
  | None => _canon_mount_list MNone
  end.

(** [bool(a & b)] on two sets of tokens *)
Definition sets_meet (a b : list string) : bool := existsb (fun t => mem t b) a.

(** The shape the three blocks share: [cols] is the selection of the
    filled branch, [cols0] the columns of the empty one. *)
Definition mount_rule (ls : list part) (lc : str_col) (rs : list part) (rc : str_col)
    (cols cols0 : list string) (pass_reason : string) : DataFrame :=
  let l := dropna_str [lc] ls in
  let r := dropna_str [rc] rs in
  if negb (is_empty l) && negb (is_empty r) then
    {| columns := cols;
       rows := map (fun '(a, b) =>
         let overlap := sets_meet (mounts a lc) (mounts b rc) in
         ids a b ++ [CStr (if overlap then "PASS" else "FAIL");
                     CStr (if overlap then pass_reason else "No common mount pattern")])
         (_cartesian l r) |}
  else empty_frame cols0.

Definition compat_frame_fc (frames fcs : list part) : DataFrame :=
  mount_rule frames frame_fc_mount_pattern_eff fcs fc_mount_pattern_eff
    ["frame_sku"; "frame_name"; "fc_sku"; "fc_name"; "status"; "reason"]
    ["frame_sku"; "frame_name"; "fc_sku"; "fc_name"; "status"; "reason"]
    "Mount pattern overlaps".

Definition compat_frame_motor (frames motors : list part) : DataFrame :=
  mount_rule frames frame_motor_mount_pattern_eff motors motor_mount_pattern_eff
    ["frame_sku"; "frame_name"; "motor_sku"; "motor_name"; "status"; "reason"]
    ["frame_sku"; "frame_name"; "motor_sku"; "motor_name"; "status"; "reason"]
    "Mount pattern overlaps".

Definition compat_esc_fc (escs fcs : list part) : DataFrame :=
  mount_rule escs esc_mount_pattern_eff fcs fc_mount_pattern_eff
    ["esc_sku"; "esc_name"; "fc_sku"; "fc_name"; "status"; "reason"]
    ["esc_sku"; "esc_name"; "fc_sku"; "fc_name"; "status"; "reason"]
    "Form factor matches".

(** *** battery - esc (connector, and cells when known) *)

Definition compat_battery_esc (bats escs : list part) : DataFrame :=
  let ba := dropna_str [battery_connector_eff] bats in
  let es := dropna_str [esc_batt_connector_eff] escs in
  let j := merge key_eqb (fun b => str b battery_connector_eff)
                         (fun e => str e esc_batt_connector_eff) ba es in
  if negb (is_empty j) then
    {| columns := ["battery_sku"; "battery_name"; "esc_sku"; "esc_name";
                   "battery_connector_eff"; "esc_cells_min"; "esc_cells_max";
                   "cell_count"; "status"; "reason"];
       rows := map (fun '(b, e) =>
         let mask_known := negb (is_nan (num b cell_count))
                           && negb (is_nan (num e esc_cells_min))
                           && negb (is_nan (num e esc_cells_max)) in
         let within := ((num e esc_cells_min <=? num b cell_count)
                        && (num b cell_count <=? num e esc_cells_max))%float in
         let status := if mask_known && negb within then "FAIL" else "PASS" in
         let reason :=
           if mask_known && within then "Connector + cells OK"
           else if mask_known && negb within then "Cells out of ESC range"
           else "Connector matched" in
         ids b e ++ [cell_of_opt (str b battery_connector_eff);
                     CNum (num e esc_cells_min); CNum (num e esc_cells_max);
                     CNum (num b cell_count); CStr status; CStr reason]) j |}
  else empty_frame ["battery_sku"; "battery_name"; "esc_sku"; "esc_name";
                    "battery_connector_eff"; "esc_cells_min"; "esc_cells_max";
                    "cell_count"; "status"; "reason"].

(** *** esc - motor: basic, and with headroom *)

Definition _eval_basic (r : part * part) : string * string :=
  let '(e, m) := r in
  let cur_ok := negb (is_nan (num e esc_continuous_current_a))
                && negb (is_nan (num m max_current_a))
                && (num m max_current_a <=? num e esc_continuous_current_a)%float in
  let cells_ok := _s_overlap (num e esc_cells_min) (num e esc_cells_max)
                             (num m cells_min) (num m cells_max) in
  match cells_ok with
  | Some false => ("FAIL", "Cell ranges do not overlap")
  | _ =>
      if cur_ok then
        ("PASS", ("current OK" ++
                  match cells_ok with Some true => " & cells overlap" | _ => "" end)%string)
      else match cells_ok with
           | Some true => ("PASS", "cells overlap (current unknown)")
           | _ => ("WARN", "insufficient data")
           end
  end.

Definition _eval_head (headroom : float) (r : part * part) : string * string :=
  let '(e, m) := r in
  if is_nan (num e esc_continuous_current_a) || is_nan (num m max_current_a) then
    ("FAIL", "missing current rating(s)")
  else
    let cells_ok := _s_overlap (num e esc_cells_min) (num e esc_cells_max)
                               (num m cells_min) (num m cells_max) in
    match cells_ok with
    | Some false => ("FAIL", "Cell ranges do not overlap")
    | None => ("FAIL", "missing cell ranges")
    | Some true =>
        let ok := (headroom * num m max_current_a
                   <=? num e esc_continuous_current_a)%float in
        (if ok then "PASS" else "FAIL",
         ("current " ++ (if ok then "≥" else "<") ++ " " ++ format_1f headroom
            ++ "× & cells overlap")%string)
    end.

Definition esc_motor_cells (e m : part) : list cell :=
  [CNum (num e esc_continuous_current_a); CNum (num m max_current_a);
   CNum (num e esc_cells_min); CNum (num e esc_cells_max);
   CNum (num m cells_min); CNum (num m cells_max)].

Definition esc_motor_rows (eval : part * part -> string * string)
    (base : list (part * part)) : list (list cell) :=
  map (fun r => ids (fst r) (snd r) ++ esc_motor_cells (fst r) (snd r)
                ++ [CStr (fst (eval r)); CStr (snd (eval r))]) base.

(** Both frames of the block, basic first. *)
Definition compat_esc_motor_pair (headroom : float) (escs motors : list part)
    : DataFrame * DataFrame :=
  let base := _cartesian escs motors in
  if negb (is_empty base) then
    ({| columns := ["esc_sku"; "esc_name"; "motor_sku"; "motor_name";
                    "esc_continuous_current_a"; "max_current_a"; "esc_cells_min";
                    "esc_cells_max"; "cells_min"; "cells_max"; "status"; "reason"];
        rows := esc_motor_rows _eval_basic base |},
     {| columns := ["esc_sku"; "esc_name"; "motor_sku"; "motor_name";
                    "esc_continuous_current_a"; "max_current_a"; "esc_cells_min";
                    "esc_cells_max"; "cells_min"; "cells_max"; "status"; "reason"];
        rows := esc_motor_rows (_eval_head headroom) base |})
  else
    let d := empty_frame ["esc_sku"; "esc_name"; "motor_sku"; "motor_name";
                          "esc_continuous_current_a"; "max_current_a"; "esc_cells_min";
                          "esc_cells_max"; "cells_min"; "cells_max"; "status"; "reason"] in
    (d, d).

(** *** vtx - camera (system) *)

Definition sys_key (r : part) (c : str_col) : option string :=
  match str r c with
  | Some s => Some (lower (strip s))
  | None => None
  end.

(** [l[["sku", "name", c]].dropna()]: with no subset, a null [sku] or
    [name] drops the row as a null [c] does. *)
Definition dropna_ids (c : str_col) (l : list part) : list part :=
  filter (fun r => notna_opt (sku r) && notna_opt (name r) && notna_opt (str r c)) l.

Definition compat_vtx_camera (vtxs cams : list part) : DataFrame :=
  let vt := dropna_ids vtx_system vtxs in
  let cm := dropna_ids camera_system cams in
  if negb (is_empty vt) && negb (is_empty cm) then
    let j := merge key_eqb (fun v => sys_key v vtx_system)
                           (fun c => sys_key c camera_system) vt cm in
    {| columns := ["vtx_sku"; "vtx_name"; "camera_sku"; "camera_name"; "sys";
                   "status"; "reason"];
       rows := map (fun '(v, c) =>
         ids v c ++ [cell_of_opt (sys_key v vtx_system);
                     CStr "PASS"; CStr "Systems match"]) j |}
  else empty_frame ["vtx_sku"; "vtx_name"; "camera_sku"; "camera_name"; "sys";
                    "status"; "reason"].

(** *** vtx - antenna (RF connector, antenna gated on use or band) *)

(** [a.combine_first(b)] cell by cell *)
Definition combine_first (a b : option string) : option string :=
  match a with
  | Some _ => a
  | None => b
  end.

(** [astype(str)] of a text cell; a null cell gives "nan" (or "None"). *)
Definition astype_str (o : option string) : string :=
  match o with
  | Some s => s
  | None => "nan"
  end.

(** [series.between(lo, hi, inclusive="both")] *)
Definition between (x lo hi : float) : bool := ((lo <=? x) && (x <=? hi))%float.

Definition vtx_conn (v : part) : option string :=
  combine_first (str v vtx_ant_conn_eff) (str v vtx_ant_conn).

Definition ant_conn (a : part) : option string :=
  combine_first (str a antenna_conn_eff) (str a antenna_conn).

Definition ant_gate (a : part) : bool :=
  String.eqb (lower (astype_str (str a antenna_use))) "fpv"
  || between (num a antenna_band_ghz) 5.4 6.2.

(** The pairs of the join, before they are rendered. *)
Definition vtx_antenna_pairs (vtxs ants : list part) : list (part * part) :=
  merge key_eqb vtx_conn ant_conn vtxs (filter ant_gate ants).

Definition vtx_antenna_row (x : part * part) : list cell :=
  let '(v, a) := x in
  ids v a ++ [cell_of_opt (vtx_conn v); CStr "PASS"; CStr "RF connector matches"].

Definition compat_vtx_antenna (vtxs ants : list part) : DataFrame :=
  if negb (is_empty vtxs) && negb (is_empty ants) then
    {| columns := ["vtx_sku"; "vtx_name"; "antenna_sku"; "antenna_name"; "conn";
                   "status"; "reason"];
       rows := map vtx_antenna_row (vtx_antenna_pairs vtxs ants) |}
  else empty_frame ["vtx_sku"; "vtx_name"; "antenna_sku"; "antenna_name"; "conn";
                    "status"; "reason"].

(** *** fc - vtx: VBAT cell range, and the four rails *)

Definition compat_fc_vtx_vbat (fcs vtxs : list part) : DataFrame :=
  let fcv := dropna_num [fc_vbat_min_s; fc_vbat_max_s] fcs in
  let vti := dropna_num [vtx_input_s_min; vtx_input_s_max] vtxs in
  let j := _cartesian fcv vti in
  if negb (is_empty j) then
    {| columns := ["fc_sku"; "fc_name"; "vtx_sku"; "vtx_name"; "fc_vbat_min_s";
                   "fc_vbat_max_s"; "vtx_input_s_min"; "vtx_input_s_max";
                   "status"; "reason"];
       rows := map (fun '(f, v) =>
         let ok := _s_overlap (num f fc_vbat_min_s) (num f fc_vbat_max_s)
                              (num v vtx_input_s_min) (num v vtx_input_s_max) in
         let status := match ok with Some true => "PASS" | _ => "FAIL" end in
         let reason := if String.eqb status "PASS" then "VBAT ranges overlap"
                       else "VBAT ranges do not overlap" in
         ids f v ++ [CNum (num f fc_vbat_min_s); CNum (num f fc_vbat_max_s);
                     CNum (num v vtx_input_s_min); CNum (num v vtx_input_s_max);
                     CStr status; CStr reason]) j |}
  else empty_frame ["fc_sku"; "fc_name"; "vtx_sku"; "vtx_name"; "fc_vbat_min_s";
                    "fc_vbat_max_s"; "vtx_input_s_min"; "vtx_input_s_max";
                    "status"; "reason"].

Definition _rail (fcs vtxs : list part) (fc_col vtx_col : num_col) (V : Z)
    : DataFrame :=
  let a := dropna_num [fc_col] fcs in
  let b := dropna_num [vtx_col] vtxs in
  let j := _cartesian a b in
  if is_empty j then
    empty_frame ["fc_sku"; "fc_name"; "vtx_sku"; "vtx_name";
                 num_col_name fc_col; num_col_name vtx_col; "status"; "reason"]
  else
    {| columns := ["fc_sku"; "fc_name"; "vtx_sku"; "vtx_name";
                   num_col_name fc_col; num_col_name vtx_col; "status"; "reason"];
       rows := map (fun '(f, v) =>
         let status := if (num v vtx_col <=? num f fc_col)%float
                       then "PASS" else "FAIL" in
         let reason :=
           if String.eqb status "PASS"
           then ("FC " ++ str_of_nonneg V ++ "V BEC ≥ VTX current")%string
           else ("FC " ++ str_of_nonneg V ++ "V BEC < VTX current")%string in
         ids f v ++ [CNum (num f fc_col); CNum (num v vtx_col);
                     CStr status; CStr reason]) j |}.

(** *** fc - camera: 5V current, and the 10V and 12V rails *)

Definition compat_fc_cam_5v (fcs cams : list part) : DataFrame :=
  let a := dropna_num [fc_bec_5v_a] fcs in
  let b := dropna_num [camera_5v_current_a] cams in
  let j := _cartesian a b in
  if negb (is_empty j) then
    {| columns := ["fc_sku"; "fc_name"; "camera_sku"; "camera_name"; "fc_bec_5v_a";
                   "camera_5v_current_a"; "status"; "reason"];
       rows := map (fun '(f, c) =>
         let status := if (num c camera_5v_current_a <=? num f fc_bec_5v_a)%float
                       then "PASS" else "FAIL" in
         let reason := if String.eqb status "PASS" then "FC 5V BEC ≥ camera current"
                       else "FC 5V BEC < camera current" in
         ids f c ++ [CNum (num f fc_bec_5v_a); CNum (num c camera_5v_current_a);
                     CStr status; CStr reason]) j |}
  else empty_frame ["fc_sku"; "fc_name"; "camera_sku"; "camera_name"; "fc_bec_5v_a";
                    "camera_5v_current_a"; "status"; "reason"].

(** The float an [int] rail voltage is compared as. *)
Definition float_of_int (n : Z) : float := PrimFloat.of_uint63 (Uint63.of_Z n).

Definition _cam_accepts (fcs cams : list part) (V : Z) (fc_col : num_col)
    : DataFrame :=
  let a := dropna_num [fc_col] fcs in
  let b := dropna_num [camera_input_v_min; camera_input_v_max] cams in
  let j := _cartesian a b in
  if is_empty j then
    empty_frame ["fc_sku"; "fc_name"; "camera_sku"; "camera_name";
                 "camera_input_v_min"; "camera_input_v_max"; "status"; "reason"]
  else
    {| columns := ["fc_sku"; "fc_name"; "camera_sku"; "camera_name";
                   "camera_input_v_min"; "camera_input_v_max"; "status"; "reason"];
       rows := map (fun '(f, c) =>
         let ok := ((num c camera_input_v_min <=? float_of_int V)
                    && (float_of_int V <=? num c camera_input_v_max))%float in
         ids f c ++ [CNum (num c camera_input_v_min); CNum (num c camera_input_v_max);
                     CStr (if ok then "PASS" else "FAIL");
                     CStr (if ok then ("Camera accepts " ++ str_of_nonneg V ++ "V")%string
                           else ("Camera " ++ str_of_nonneg V ++ "V out of range")%string)])
         j |}.

(** *** rx - antenna (RF connector and band bucket) *)

(** [float(x)] of a cell *)
Definition float_of_cell (c : cell) : result float :=
  match c with
  | CNum x => Ok x
  | CStr s =>
      match float_of_str s with
      | Some x => Ok x
      | None => Raise (ValueError s)
      end
  | CNull => Raise TypeError
  end.

Definition bucket (x : cell) : result (option string) :=
  if isna x then Ok None
  else
    bind (float_of_cell x) (fun x =>
      if (abs (x - 5.8) <? 0.4)%float then Ok (Some "5.8")
      else if (abs (x - 2.4) <? 0.3)%float then Ok (Some "2.4")
      else if ((0.7 <=? x) && (x <=? 1.0))%float then Ok (Some "0.9")
      else Ok None).

(** A join key made of two columns. *)
Definition key2_eqb (a b : option string * option string) : bool :=
  key_eqb (fst a) (fst b) && key_eqb (snd a) (snd b).

Definition rx_key (r : part * option string) : option string * option string :=
  (_canon_connector (str (fst r) rx_ant_conn), snd r).

Definition ant_key (a : part * option string) : option string * option string :=
  (_canon_connector (str (fst a) antenna_conn), snd a).

(** The column [apply(bucket)] gives on a frame with rows is a column of
    floats when no cell has a bucket (every result is NaN), and a column of
    objects when some cell has one. *)
Definition float_column (bb : list (option string)) : bool :=
  forallb (fun b => negb (notna_opt b)) bb.

(** [merge] refuses a key that is a column of floats on one side and a
    column with texts on the other: [ValueError], on the key [bb]. *)
Definition compat_rx_antenna (rxs ants : list part) : result DataFrame :=
  let rx := filter (fun r => negb (isna (rx_band_ghz r))) (dropna_str [rx_ant_conn] rxs) in
  let an := dropna_num [antenna_band_ghz] (dropna_str [antenna_conn] ants) in
  if negb (is_empty rx) && negb (is_empty an) then
    bind (series_apply (fun r => bucket (rx_band_ghz r)) rx) (fun rx_bb =>
    bind (series_apply (fun a => bucket (CNum (num a antenna_band_ghz))) an) (fun an_bb =>
      if negb (Bool.eqb (float_column rx_bb) (float_column an_bb))
      then Raise (ValueError "bb")
      else
        let j := merge key2_eqb rx_key ant_key (combine rx rx_bb) (combine an an_bb) in
        Ok {| columns := ["rx_sku"; "rx_name"; "antenna_sku"; "antenna_name"; "conn";
                          "bb"; "status"; "reason"];
              rows := map (fun '(r, a) =>
                ids (fst r) (fst a) ++ [cell_of_opt (fst (rx_key r)); cell_of_opt (snd r);
                                        CStr "PASS"; CStr "Connector + band"]) j |}))
  else Ok (empty_frame ["rx_sku"; "rx_name"; "antenna_sku"; "antenna_name"; "conn";
                        "bb"; "status"; "reason"]).

(** *** pigtail - esc, battery - pigtail (connector) *)

Definition compat_pigtail_esc (pigtail escs : list part) : DataFrame :=
  let pg := dropna_str [pigtail_connector_eff] pigtail in
  let es := dropna_str [esc_batt_connector_eff] escs in
  if negb (is_empty pg) && negb (is_empty es) then
    let j := merge key_eqb (fun p => str p pigtail_connector_eff)
                           (fun e => str e esc_batt_connector_eff) pg es in
    {| columns := ["pigtail_sku"; "pigtail_name"; "esc_sku"; "esc_name";
                   "pigtail_connector_eff"; "status"; "reason"];
       rows := map (fun '(p, e) =>
         ids p e ++ [cell_of_opt (str p pigtail_connector_eff);
                     CStr "PASS"; CStr "Connector matched"]) j |}
  else empty_frame ["pigtail_sku"; "pigtail_name"; "esc_sku"; "esc_name";
                    "pigtail_connector_eff"; "status"; "reason"].

Definition compat_battery_pigtail (pigtail bats : list part) : DataFrame :=
  let pg := dropna_str [pigtail_connector_eff] pigtail in
  let bt := dropna_str [battery_connector_eff] bats in
  if negb (is_empty pg) && negb (is_empty bt) then
    let j := merge key_eqb (fun p => str p pigtail_connector_eff)
                           (fun b => str b battery_connector_eff) pg bt in
    {| columns := ["pigtail_sku"; "pigtail_name"; "battery_sku"; "battery_name";
                   "pigtail_connector_eff"; "status"; "reason"];
       rows := map (fun '(p, b) =>
         ids p b ++ [cell_of_opt (str p pigtail_connector_eff);
                     CStr "PASS"; CStr "Connector matched"]) j |}
  else empty_frame ["pigtail_sku"; "pigtail_name"; "battery_sku"; "battery_name";
                    "pigtail_connector_eff"; "status"; "reason"].

(** *** capacitor - esc (voltage) *)

Definition compat_cap_esc (caps escs : list part) : DataFrame :=
  let cap := dropna_num [capacitor_voltage_v] caps in
  let esv := dropna_num [esc_cells_max] escs in
  if negb (is_empty cap) && negb (is_empty esv) then
    {| columns := ["capacitor_sku"; "capacitor_name"; "esc_sku"; "esc_name";
                   "capacitor_voltage_v"; "esc_vmax"; "status"; "reason"];
       rows := map (fun '(c, e) =>
         let esc_vmax := (num e esc_cells_max * 4.2)%float in
         let esc_v_need := (esc_vmax * 1.05)%float in
         let status := if (esc_v_need <=? num c capacitor_voltage_v)%float
                       then "PASS" else "FAIL" in
         let reason := if String.eqb status "PASS" then "Cap voltage ≥ VBAT max"
                       else "Cap voltage < VBAT max" in
         ids c e ++ [CNum (num c capacitor_voltage_v); CNum esc_vmax;
                     CStr status; CStr reason]) (_cartesian cap esv) |}
  else empty_frame ["capacitor_sku"; "capacitor_name"; "esc_sku"; "esc_name";
                    "capacitor_voltage_v"; "esc_vmax"; "status"; "reason"].

(** *** motor - prop (hub type) *)

Definition motor_hub_eff (m : part) : option string :=
  _motor_hub_from_shaft (num m shaft_mm).

(** The pairs of the rule: every motor with every prop whose hub is known. *)
Definition motor_prop_pairs (motors props : list part) : list (part * part) :=
  _cartesian motors (dropna_str [prop_hub_eff] props).

(** [status] and [reason] of one pair. *)
Definition hub_verdict (m p : part) : string * string :=
  let mh := motor_hub_eff m in
  let ph := str p prop_hub_eff in
  let matches := notna_opt mh && notna_opt ph
                 && match mh, ph with
                    | Some a, Some b => String.eqb a b
                    | _, _ => false
                    end in
  let unknown := negb (notna_opt mh) || negb (notna_opt ph) in
  (if matches then "PASS" else if unknown then "WARN" else "FAIL",
   if matches then "Hub type matches"
   else if unknown then "Insufficient hub/shaft data" else "Hub type mismatch").

Definition hub_row (x : part * part) : list cell :=
  let '(m, p) := x in
  ids m p ++ [CNum (num m shaft_mm); cell_of_opt (motor_hub_eff m);
              cell_of_opt (str p prop_hub_eff);
              CStr (fst (hub_verdict m p)); CStr (snd (hub_verdict m p))].

Definition compat_motor_prop_hub (motors props : list part) : DataFrame :=
  let x := motor_prop_pairs motors props in
  if negb (is_empty x) then
    {| columns := ["motor_sku"; "motor_name"; "prop_sku"; "prop_name"; "shaft_mm";
                   "motor_hub_eff"; "prop_hub_eff"; "status"; "reason"];
       rows := map hub_row x |}
  else empty_frame ["motor_sku"; "motor_name"; "prop_sku"; "prop_name"; "shaft_mm";
                    "motor_hub_eff"; "prop_hub_eff"; "status"; "reason"].

(** *** build_compat

    The dict [out] is the list of its items in insertion order. *)

Definition build_compat (parts : list part) (headroom : float)
    : result (list (string * DataFrame)) :=
  let df := parts in
  let frames := slice "frame" df in
  let motors := slice "motor" df in
  let escs := slice "esc" df in
  let bats := slice "battery" df in
  let fcs := slice "fc" df in
  let vtxs := slice "vtx" df in
  let cams := slice "camera" df in
  let props := slice "prop" df in
  let ants := slice "antenna" df in
  let rxs := slice "rx" df in
  let pigtail := slice "pigtail" df in
  let caps := slice "capacitor" df in
  let em := compat_esc_motor_pair headroom escs motors in
  let out :=
    [("Compat_frame_prop", compat_frame_prop frames props);
     ("Compat_frame_fc", compat_frame_fc frames fcs);
     ("Compat_frame_motor", compat_frame_motor frames motors);
     ("Compat_esc_fc", compat_esc_fc escs fcs);
     ("Compat_battery_esc", compat_battery_esc bats escs);
     ("Compat_esc_motor", fst em);
     ("Compat_esc_motor_headroom", snd em);
     ("Compat_vtx_camera", compat_vtx_camera vtxs cams);
     ("Compat_vtx_antenna", compat_vtx_antenna vtxs ants);
     ("Compat_fc_vtx_vbat", compat_fc_vtx_vbat fcs vtxs);
     ("Compat_fc_vtx_5v", _rail fcs vtxs fc_bec_5v_a vtx_5v_current_a 5);
     ("Compat_fc_vtx_9v", _rail fcs vtxs fc_bec_9v_a vtx_9v_current_a 9);
     ("Compat_fc_vtx_10v", _rail fcs vtxs fc_bec_10v_a vtx_10v_current_a 10);
     ("Compat_fc_vtx_12v", _rail fcs vtxs fc_bec_12v_a vtx_12v_current_a 12);
     ("Compat_fc_cam_5v", compat_fc_cam_5v fcs cams);
     ("Compat_fc_cam_10v", _cam_accepts fcs cams 10 fc_bec_10v_a);
     ("Compat_fc_cam_12v", _cam_accepts fcs cams 12 fc_bec_12v_a)] in
  bind (compat_rx_antenna rxs ants) (fun rx_antenna =>
    Ok (out ++
        [("Compat_rx_antenna", rx_antenna);
         ("Compat_pigtail_esc", compat_pigtail_esc pigtail escs);
         ("Compat_battery_pigtail", compat_battery_pigtail pigtail bats);
         ("Compat_cap_esc", compat_cap_esc caps escs);
         ("Compat_motor_prop_hub", compat_motor_prop_hub motors props)])).

(** *** build_compat on a frame that may lack columns

    [build_compat] above reads a frame that has every column it selects,
    as the frame of [load_parts] has once a file was read.  On a frame that
    lacks one, the first selection of a missing label raises [KeyError].
    The labels are listed in the order of their first selection; those of
    [SELECTED_LATE] are first selected after the rx - antenna block, so an
    exception of that block comes before their [KeyError]. *)
Record parts_frame := {
  labels : list string;
  records : list part
}.

Definition SELECTED_EARLY : list string :=
  ["type"; "frame_max_prop_in"; "sku"; "name"; "prop_diameter_in";
   "frame_fc_mount_pattern_eff"; "fc_mount_pattern_eff";
   "frame_motor_mount_pattern_eff"; "motor_mount_pattern_eff";
   "esc_mount_pattern_eff"; "battery_connector_eff"; "cell_count";
   "esc_batt_connector_eff"; "esc_cells_min"; "esc_cells_max";
   "esc_continuous_current_a"; "max_current_a"; "cells_min"; "cells_max";
   "vtx_system"; "camera_system"; "vtx_ant_conn"; "vtx_ant_conn_eff";
   "antenna_conn"; "antenna_conn_eff"; "antenna_band_ghz"; "antenna_use";
   "fc_vbat_min_s"; "fc_vbat_max_s"; "vtx_input_s_min"; "vtx_input_s_max";
   "fc_bec_5v_a"; "vtx_5v_current_a"; "fc_bec_9v_a"; "vtx_9v_current_a";
   "fc_bec_10v_a"; "vtx_10v_current_a"; "fc_bec_12v_a"; "vtx_12v_current_a";
   "camera_5v_current_a"; "camera_input_v_min"; "camera_input_v_max";
   "rx_ant_conn"; "rx_band_ghz"].

Definition SELECTED_LATE : list string :=
  ["pigtail_connector_eff"; "capacitor_voltage_v"; "shaft_mm"; "prop_hub_eff"].

(** Every label of [cols] is a column of the frame. *)
Definition has_columns (cols : list string) (df : parts_frame) : bool :=
  forallb (fun c => mem c (labels df)) cols.

Definition build_compat_frame (df : parts_frame) (headroom : float)
    : result (list (string * DataFrame)) :=
  if negb (has_columns SELECTED_EARLY df) then Raise KeyError
  else
    bind (compat_rx_antenna (slice "rx" (records df)) (slice "antenna" (records df)))
         (fun _ =>
            if negb (has_columns SELECTED_LATE df) then Raise KeyError
            else build_compat (records df) headroom).

End Engine.

(** ** summarize.py *)

Module Summarize.
Import PyStr Schema Frame.

(** One row of the summary frame. *)
Record summary_row := {
  pair : string;
  pass : nat;
  fail : nat;
  unknown : nat
}.

Fixpoint index_of (c : string) (cols : list string) : option nat :=
  match cols with
  | [] => None
  | c' :: r => if String.eqb c c' then Some 0 else option_map S (index_of c r)
  end.

(** [df[c]], when [c] is a column of [df]. *)
Definition column (c : string) (df : DataFrame) : option (list cell) :=
  match index_of c (columns df) with
  | Some i => Some (map (fun r => nth i r CNull) (rows df))
  | None => None
  end.

(** [int(mask.sum())] *)
Definition count_if (p : string -> bool) (l : list string) : nat :=
  List.length (filter p l).

Definition is_pass (s : string) : bool := mem s PASS_VALUES.
Definition is_fail (s : string) : bool := String.eqb s "FAIL".
Definition is_unknown (s : string) : bool := negb (is_pass s) && negb (is_fail s).

(** Rows in the order of [sort_values(by=["pair"])]; a dict has no two
    equal keys, so the order of the result is fixed by the keys. *)
Fixpoint insert_row (r : summary_row) (l : list summary_row) : list summary_row :=
  match l with
  | [] => [r]
  | x :: t => if String.leb (pair r) (pair x) then r :: l else x :: insert_row r t
  end.

Definition sort_values (l : list summary_row) : list summary_row :=
  fold_right insert_row [] l.

Section Summary.
(** [str(x)] of a float, which [astype(str)] uses on a float cell. *)
Variable str_of_float : float -> string.

Definition astype_str (c : cell) : string :=
  match c with
  | CStr s => s
  | CNum x => str_of_float x
  | CNull => "nan"
  end.

(** The body of the loop for one item of [compat]. *)
Definition summary_of (key : string) (df : option DataFrame) : summary_row :=
  match df with
  | None => {| pair := key; pass := 0; fail := 0; unknown := 0 |}
  | Some df =>
      if empty df then {| pair := key; pass := 0; fail := 0; unknown := 0 |}
      else
        match column "status" df with
        | None =>
            {| pair := key; pass := 0; fail := 0; unknown := List.length (rows df) |}
        | Some col =>
            let s := map (fun c => upper (astype_str c)) col in
            {| pair := key;
               pass := count_if is_pass s;
               fail := count_if is_fail s;
               unknown := count_if is_unknown s |}
        end
  end.

Definition summarize (compat : list (string * option DataFrame)) : list summary_row :=
  let rows := map (fun kv => summary_of (fst kv) (snd kv)) compat in
  if is_empty rows then rows else sort_values rows.

End Summary.

End Summarize.

(** ** The contract of the result frames, and sample parts *)

Module Contract.
Import Engine.

(** The keys of [build_compat] with the columns of each frame, in the
    order the keys are set. *)
Definition COMPAT_SCHEMA : list (string * list string) :=
  [("Compat_frame_prop",
    ["frame_sku"; "frame_name"; "prop_sku"; "prop_name";
     "frame_max_prop_in"; "prop_diameter_in"; "status"; "reason"]);
   ("Compat_frame_fc",
    ["frame_sku"; "frame_name"; "fc_sku"; "fc_name"; "status"; "reason"]);
   ("Compat_frame_motor",
    ["frame_sku"; "frame_name"; "motor_sku"; "motor_name"; "status"; "reason"]);
   ("Compat_esc_fc",
    ["esc_sku"; "esc_name"; "fc_sku"; "fc_name"; "status"; "reason"]);
   ("Compat_battery_esc",
    ["battery_sku"; "battery_name"; "esc_sku"; "esc_name"; "battery_connector_eff";
     "esc_cells_min"; "esc_cells_max"; "cell_count"; "status"; "reason"]);
   ("Compat_esc_motor",
    ["esc_sku"; "esc_name"; "motor_sku"; "motor_name"; "esc_continuous_current_a";
     "max_current_a"; "esc_cells_min"; "esc_cells_max"; "cells_min"; "cells_max";
     "status"; "reason"]);
   ("Compat_esc_motor_headroom",
    ["esc_sku"; "esc_name"; "motor_sku"; "motor_name"; "esc_continuous_current_a";
     "max_current_a"; "esc_cells_min"; "esc_cells_max"; "cells_min"; "cells_max";
     "status"; "reason"]);
   ("Compat_vtx_camera",
    ["vtx_sku"; "vtx_name"; "camera_sku"; "camera_name"; "sys"; "status"; "reason"]);
   ("Compat_vtx_antenna",
    ["vtx_sku"; "vtx_name"; "antenna_sku"; "antenna_name"; "conn"; "status"; "reason"]);
   ("Compat_fc_vtx_vbat",
    ["fc_sku"; "fc_name"; "vtx_sku"; "vtx_name"; "fc_vbat_min_s"; "fc_vbat_max_s";
     "vtx_input_s_min"; "vtx_input_s_max"; "status"; "reason"]);
   ("Compat_fc_vtx_5v",
    ["fc_sku"; "fc_name"; "vtx_sku"; "vtx_name"; "fc_bec_5v_a"; "vtx_5v_current_a";
     "status"; "reason"]);
   ("Compat_fc_vtx_9v",
    ["fc_sku"; "fc_name"; "vtx_sku"; "vtx_name"; "fc_bec_9v_a"; "vtx_9v_current_a";
     "status"; "reason"]);
   ("Compat_fc_vtx_10v",
    ["fc_sku"; "fc_name"; "vtx_sku"; "vtx_name"; "fc_bec_10v_a"; "vtx_10v_current_a";
     "status"; "reason"]);
   ("Compat_fc_vtx_12v",
    ["fc_sku"; "fc_name"; "vtx_sku"; "vtx_name"; "fc_bec_12v_a"; "vtx_12v_current_a";
     "status"; "reason"]);
   ("Compat_fc_cam_5v",
    ["fc_sku"; "fc_name"; "camera_sku"; "camera_name"; "fc_bec_5v_a";
     "camera_5v_current_a"; "status"; "reason"]);
   ("Compat_fc_cam_10v",
    ["fc_sku"; "fc_name"; "camera_sku"; "camera_name"; "camera_input_v_min";
     "camera_input_v_max"; "status"; "reason"]);
   ("Compat_fc_cam_12v",
    ["fc_sku"; "fc_name"; "camera_sku"; "camera_name"; "camera_input_v_min";
     "camera_input_v_max"; "status"; "reason"]);
   ("Compat_rx_antenna",
    ["rx_sku"; "rx_name"; "antenna_sku"; "antenna_name"; "conn"; "bb";
     "status"; "reason"]);
   ("Compat_pigtail_esc",
    ["pigtail_sku"; "pigtail_name"; "esc_sku"; "esc_name"; "pigtail_connector_eff";
     "status"; "reason"]);
   ("Compat_battery_pigtail",
    ["pigtail_sku"; "pigtail_name"; "battery_sku"; "battery_name";
     "pigtail_connector_eff"; "status"; "reason"]);
   ("Compat_cap_esc",
    ["capacitor_sku"; "capacitor_name"; "esc_sku"; "esc_name"; "capacitor_voltage_v";
     "esc_vmax"; "status"; "reason"]);
   ("Compat_motor_prop_hub",
    ["motor_sku"; "motor_name"; "prop_sku"; "prop_name"; "shaft_mm"; "motor_hub_eff";
     "prop_hub_eff"; "status"; "reason"])].

Definition STATUSES : list string := ["PASS"; "FAIL"; "WARN"].

(** The cell of a row under the last but one column. *)
Definition status_cell (r : list cell) : option cell := nth_error (rev r) 1.

Definition row_ok (cols : list string) (r : list cell) : Prop :=
  List.length r = List.length cols /\
  exists s, status_cell r = Some (CStr s) /\ In s STATUSES.

(** A frame whose last two columns are [status] and [reason] and whose
    rows all carry one of the three statuses. *)
Definition frame_ok (df : DataFrame) : Prop :=
  (exists pre, columns df = (pre ++ ["status"; "reason"])%list) /\
  Forall (row_ok (columns df)) (rows df).

(** [float(x)] does not raise on the cell [x] of [rx_band_ghz]. *)
Definition band_parses (x : cell) : bool :=
  match x with
  | CStr s => notna_opt (PyFloat.float_of_str s)
  | _ => true
  end.

(** The keys with the columns of their frames. *)
Definition schema_of (out : list (string * DataFrame)) : list (string * list string) :=
  map (fun kv => (fst kv, columns (snd kv))) out.

(** Every character of [s] satisfies [p]. *)
Fixpoint all_chars (p : ascii -> bool) (s : string) : bool :=
  match s with
  | EmptyString => true
  | String c r => p c && all_chars p r
  end.

(** [s] without the character [a]. *)
Fixpoint remove_char (a : ascii) (s : string) : string :=
  match s with
  | EmptyString => EmptyString
  | String c r => if Ascii.eqb a c then remove_char a r else String c (remove_char a r)
  end.

(** The verdict of the headroom rule on an ESC and a motor. *)
Definition head_verdict (headroom : float) (e m : part) : string :=
  fst (_eval_head headroom (e, m)).

(** Some bound of the two cell ranges of the pair is missing. *)
Definition range_missing (e m : part) : bool :=
  is_nan (num e esc_cells_min) || is_nan (num e esc_cells_max)
  || is_nan (num m cells_min) || is_nan (num m cells_max).

(** [max(a_min, b_min) <= min(a_max, b_max)] on the cell ranges of the
    pair. *)
Definition ranges_overlap (e m : part) : bool :=
  (py_max (num e esc_cells_min) (num m cells_min)
   <=? py_min (num e esc_cells_max) (num m cells_max))%float.

(** [esc_continuous_current_a >= headroom * max_current_a] *)
Definition current_suffices (headroom : float) (e m : part) : bool :=
  (headroom * num m max_current_a <=? num e esc_continuous_current_a)%float.

(** The texts [_canon_connector] looks for. *)
Definition RF_TESTS : list string :=
  ["RP SMA"; "SMA"; "MMCX"; "MCX"; "MHF4"; "IPEX 4"; "MHF1"; "IPEX 1";
   "U FL"; "UFL"; "IPEX"].

Definition rf_unmatched (text : string) : bool :=
  forallb (fun t => negb (PyStr.contains t (Canon.rf_text text))) RF_TESTS.

(** The motor - prop hub rule as a table: PASS when both hub classes are
    resolved and equal, FAIL when both are resolved and differ, WARN when
    one of them is unresolved. *)
Definition hub_status (mh ph : option string) : string :=
  match mh, ph with
  | Some a, Some b => if String.eqb a b then "PASS" else "FAIL"
  | _, _ => "WARN"
  end.

Definition hub_reason (mh ph : option string) : string :=
  match mh, ph with
  | Some a, Some b => if String.eqb a b then "Hub type matches" else "Hub type mismatch"
  | _, _ => "Insufficient hub/shaft data"
  end.

(** The text [summarize] puts in a bucket for a status cell that is a
    text. *)
Definition status_text (i : nat) (row : list cell) : string :=
  match nth i row CNull with
  | CStr s => PyStr.upper s
  | _ => ""
  end.

End Contract.

Module Examples.
Import Canon Engine.

Definition TAB : string := String (ascii_of_nat 9) EmptyString.

(** An ESC and a motor with the given currents; cells 3-6 and 4-6. *)
Definition esc_with (cur : float) : part :=
  {| sku := Some "ESC-1"; type := "esc"; name := Some "esc";
     num := fun c => match c with
                     | esc_continuous_current_a => cur
                     | esc_cells_min => 3%float
                     | esc_cells_max => 6%float
                     | _ => nan
                     end;
     str := fun _ => None; rx_band_ghz := CNull |}.

Definition motor_with (cur shaft : float) : part :=
  {| sku := Some "MOT-1"; type := "motor"; name := Some "motor";
     num := fun c => match c with
                     | max_current_a => cur
                     | cells_min => 4%float
                     | cells_max => 6%float
                     | shaft_mm => shaft
                     | _ => nan
                     end;
     str := fun _ => None; rx_band_ghz := CNull |}.

(** A prop as [load_parts] leaves it for the hub text [hub]. *)
Definition prop_with (hub : option string) : part :=
  {| sku := Some "PROP-1"; type := "prop"; name := Some "prop"; num := fun _ => nan;
     str := fun c => match c with prop_hub_eff => _canon_prop_hub hub | _ => None end;
     rx_band_ghz := CNull |}.

(** A VTX and an FPV antenna as [load_parts] leaves them for the connector
    texts [conn]. *)
Definition vtx_with (conn : string) : part :=
  {| sku := Some "VTX-1"; type := "vtx"; name := Some "vtx"; num := fun _ => nan;
     str := fun c => match c with
                     | vtx_ant_conn => Some conn
                     | vtx_ant_conn_eff => _canon_connector (Some conn)
                     | _ => None
                     end;
     rx_band_ghz := CNull |}.

Definition antenna_with (conn : string) (band : float) : part :=
  {| sku := Some "ANT-1"; type := "antenna"; name := Some "antenna";
     num := fun c => match c with antenna_band_ghz => band | _ => nan end;
     str := fun c => match c with
                     | antenna_conn => Some conn
                     | antenna_conn_eff => _canon_connector (Some conn)
                     | antenna_use => Some "fpv"
                     | _ => None
                     end;
     rx_band_ghz := CNull |}.

(** A receiver whose band was read as the text [band]. *)
Definition rx_with (conn band : string) : part :=
  {| sku := Some "RX-1"; type := "rx"; name := Some "rx"; num := fun _ => nan;
     str := fun c => match c with rx_ant_conn => Some conn | _ => None end;
     rx_band_ghz := CStr band |}.

Definition parts_unparsed_band : list part :=
  [rx_with "SMA" "2.4GHz"; antenna_with "SMA" 2.4%float].

(** A receiver whose band is the number [band]. *)
Definition rx_on (conn : string) (band : float) : part :=
  {| sku := Some "RX-1"; type := "rx"; name := Some "rx"; num := fun _ => nan;
     str := fun c => match c with rx_ant_conn => Some conn | _ => None end;
     rx_band_ghz := CNum band |}.

(** A receiver on 5.8 GHz with an antenna on a band that has no bucket. *)
Definition parts_band_clash : list part :=
  [rx_on "SMA" 5.8%float; antenna_with "SMA" 3.3%float].

(** The frame [load_parts] returns when it was given no file, and the frame
    with no row that has every column ([pd.DataFrame(columns=...)]). *)
Definition frame_no_file : parts_frame :=
  {| labels := ["sku"; "type"; "name"]; records := [] |}.

Definition frame_no_row : parts_frame :=
  {| labels := (SELECTED_EARLY ++ SELECTED_LATE)%list; records := [] |}.

(** A frame of three edges. *)
Definition three_edges : DataFrame :=
  {| columns := ["a_sku"; "b_sku"; "status"; "reason"];
     rows := [[CStr "A"; CStr "B"; CStr "PASS"; CStr "ok"];
              [CStr "A"; CStr "C"; CStr "FAIL"; CStr "no"];
              [CStr "A"; CStr "D"; CStr "WARN"; CStr "insufficient data"]] |}.

End Examples.

(** ** schema.py: part types, fields and [normalize_type] *)

Module Fields.
Import PyStr Frame.

Definition CANON_TYPES : list string :=
  ["frame"; "motor"; "esc"; "battery"; "fc"; "vtx"; "camera"; "prop";
   "antenna"; "rx"; "pigtail"; "capacitor"].

Definition TYPE_FIELDS : list (string * list string) :=
  [("frame", ["frame_max_prop_in"; "frame_fc_mount_pattern_eff";
              "frame_motor_mount_pattern_eff"]);
   ("motor", ["shaft_mm"; "max_current_a"; "cells_min"; "cells_max";
              "motor_mount_pattern_eff"]);
   ("esc", ["esc_continuous_current_a"; "esc_cells_min"; "esc_cells_max";
            "esc_batt_connector"; "esc_mount_pattern_eff"]);
   ("battery", ["battery_connector"; "cell_count"]);
   ("fc", ["fc_mount_pattern_eff"; "fc_bec_5v_a"; "fc_bec_9v_a"; "fc_bec_10v_a";
           "fc_bec_12v_a"; "fc_vbat_min_s"; "fc_vbat_max_s"]);
   ("vtx", ["vtx_system"; "vtx_ant_conn"; "vtx_5v_current_a"; "vtx_9v_current_a";
            "vtx_10v_current_a"; "vtx_12v_current_a"; "vtx_input_s_min";
            "vtx_input_s_max"]);
   ("camera", ["camera_system"; "camera_input_v_min"; "camera_input_v_max";
               "camera_5v_current_a"; "camera_10v_current_a"; "camera_12v_current_a"]);
   ("prop", ["prop_diameter_in"; "prop_pitch_in"; "prop_blade_count"; "prop_hub"]);
   ("antenna", ["antenna_conn"; "antenna_band_ghz"; "antenna_use"]);
   ("rx", ["rx_ant_conn"; "rx_band_ghz"]);
   ("pigtail", ["pigtail_connector"; "pigtail_awg"; "pigtail_length_mm"]);
   ("capacitor", ["capacitor_voltage_v"; "capacitor_uf"])].

(** The union of the values of [TYPE_FIELDS]: the members, each once; a set
    has no order of its own, the list keeps that of first appearance. *)
Definition ALL_FIELDS : list string :=
  nodup string_dec (concat (map snd TYPE_FIELDS)).

(** [normalize_type] on a cell: only a text is a [str]. *)
Definition normalize_type (t : cell) : string :=
  match t with
  | CStr t =>
      let s := lower (strip t) in
      let s := if mem s ["motors"] then "motor" else s in
      let s := if mem s ["props"; "propellers"] then "prop" else s in
      let s := if mem s ["batteries"] then "battery" else s in
      s
  | _ => ""
  end.

End Fields.

(** ** engine.py: data loading *)

Module Loader.
Import PyStr PyFloat Frame Fields.
Local Open Scope list_scope.

(** [_to_float]: [float(x)], and NaN where it raises. *)
Definition _to_float (x : cell) : float :=
  match Engine.float_of_cell x with
  | Ok v => v
  | Raise _ => nan
  end.

(** A value [json.loads] returns. *)
#[warnings="-register-all"]
Inductive json :=
  | JNull
  | JBool (b : bool)
  | JInt (n : Z)
  | JFloat (x : float)
  | JStr (s : string)
  | JList (l : list json)
  | JDict (items : list (string * json)).

(** [isinstance(x, dict)] *)
Definition is_dict (x : json) : bool :=
  match x with JDict _ => true | _ => false end.

(** [d.get(k)] on the items of a dict. *)
Fixpoint get (k : string) (items : list (string * json)) : option json :=
  match items with
  | [] => None
  | (k', v) :: r => if String.eqb k k' then Some v else get k r
  end.

Definition _extract_items (obj : json) : list json :=
  match obj with
  | JList l => filter is_dict l
  | JDict d =>
      match get "parts" d with
      | Some (JList l) => filter is_dict l
      | _ =>
          match get "data" d with
          | Some (JList l) => filter is_dict l
          | _ => []
          end
      end
  | _ => []
  end.

(** The rows [_read_one_json] hands to [pd.json_normalize] for a payload that
    was read and parsed. *)
Definition _read_one_json_rows (payload : json) : list json :=
  let rows := _extract_items payload in
  if is_empty rows then
    (if is_dict payload then [payload] else rows)
  else rows.

(** [_collect_files] over a file system given by what its calls return:
    [p.is_dir()], which may raise, [sorted(p.glob(pattern))] and
    [str(f.resolve())]. *)
Section Files.
Variable path : Type.
Variable is_dir : path -> result bool.
Variable sorted_glob : path -> string -> list path.
Variable resolve : path -> string.

Definition _is_dir (p : path) : bool :=
  match is_dir p with
  | Ok b => b
  | Raise _ => false
  end.

(** The first loop: directories are replaced by their CSV then JSON files. *)
Definition expand (paths : list path) : list path :=
  flat_map (fun p => if _is_dir p
                     then sorted_glob p "*.csv" ++ sorted_glob p "*.json"
                     else [p]) paths.

(** The second loop, with the keys seen so far. *)
Fixpoint uniq (seen : list string) (files : list path) : list path :=
  match files with
  | [] => []
  | f :: r =>
      let key := resolve f in
      if mem key seen then uniq seen r else f :: uniq (key :: seen) r
  end.

Definition _collect_files (paths : list path) : list path :=
  uniq [] (expand paths).

End Files.

(** The columns [load_parts] turns into floats. *)
Definition numeric_cols : list string :=
  ["frame_max_prop_in"; "prop_diameter_in"; "prop_pitch_in"; "prop_blade_count";
   "shaft_mm"; "max_current_a"; "cells_min"; "cells_max";
   "esc_continuous_current_a"; "esc_cells_min"; "esc_cells_max";
   "cell_count";
   "fc_bec_5v_a"; "fc_bec_9v_a"; "fc_bec_10v_a"; "fc_bec_12v_a";
   "fc_vbat_min_s"; "fc_vbat_max_s";
   "vtx_5v_current_a"; "vtx_9v_current_a"; "vtx_10v_current_a"; "vtx_12v_current_a";
   "vtx_input_s_min"; "vtx_input_s_max";
   "camera_input_v_min"; "camera_input_v_max";
   "camera_5v_current_a"; "camera_10v_current_a"; "camera_12v_current_a";
   "antenna_band_ghz";
   "pigtail_awg"; "pigtail_length_mm";
   "capacitor_voltage_v"; "capacitor_uf"].

(** [df.rename(columns={old: new})] on the column labels. *)
Definition rename (old new : string) (cols : list string) : list string :=
  map (fun c => if String.eqb c old then new else c) cols.

(** [df[c] = ...] on the column labels: a new label goes last. *)
Definition assign (c : string) (cols : list string) : list string :=
  if mem c cols then cols else cols ++ [c].

(** The column labels of the frame [load_parts] returns: [read] is [None]
    when no file was collected or none was a CSV or JSON file, and else the
    labels of the concatenated frame. *)
Definition load_parts_columns (read : option (list string)) : list string :=
  match read with
  | None => ["sku"; "type"; "name"]
  | Some cols =>
      let cols := if negb (mem "type" cols) && mem "part_type" cols
                  then rename "part_type" "type" cols else cols in
      let cols := if negb (mem "name" cols) && mem "generic_name" cols
                  then rename "generic_name" "name" cols else cols in
      let cols := fold_left (fun cs c => if negb (mem c cs) then assign c cs else cs)
                            ["sku"; "type"; "name"] cols in
      let cols := fold_left (fun cs c => assign c cs) ["sku"; "name"; "type"] cols in
      let cols := fold_left (fun cs c => if negb (mem c cs) then assign c cs else cs)
                            ALL_FIELDS cols in
      let cols := if mem "vtx_ant_conn" cols && negb (mem "vtx_ant_conn_eff" cols)
                  then assign "vtx_ant_conn_eff" cols else cols in
      let cols := if mem "antenna_conn" cols
                  then assign "antenna_conn_eff" cols else cols in
      let cols := assign "battery_connector_eff" cols in
      let cols := assign "esc_batt_connector_eff" cols in
      let cols := assign "pigtail_connector_eff" cols in
      let cols := assign "prop_hub_eff" cols in
      cols
  end.

(** The labels of the text columns of a [part]. *)
Definition str_col_name (c : str_col) : string :=
  match c with
  | frame_fc_mount_pattern_eff => "frame_fc_mount_pattern_eff"
  | frame_motor_mount_pattern_eff => "frame_motor_mount_pattern_eff"
  | fc_mount_pattern_eff => "fc_mount_pattern_eff"
  | esc_mount_pattern_eff => "esc_mount_pattern_eff"
  | motor_mount_pattern_eff => "motor_mount_pattern_eff"
  | battery_connector_eff => "battery_connector_eff"
  | esc_batt_connector_eff => "esc_batt_connector_eff"
  | pigtail_connector_eff => "pigtail_connector_eff"
  | vtx_system => "vtx_system"
  | camera_system => "camera_system"
  | vtx_ant_conn => "vtx_ant_conn"
  | vtx_ant_conn_eff => "vtx_ant_conn_eff"
  | antenna_conn => "antenna_conn"
  | antenna_conn_eff => "antenna_conn_eff"
  | antenna_use => "antenna_use"
  | rx_ant_conn => "rx_ant_conn"
  | prop_hub_eff => "prop_hub_eff"
  end.

(** The labels [build_compat] selects from the parts frame: those of the
    cells of a [part]. *)
Definition part_columns : list string :=
  ["sku"; "type"; "name"; "rx_band_ghz"]
  ++ map num_col_name
       [frame_max_prop_in; prop_diameter_in; shaft_mm; max_current_a;
        cells_min; cells_max; esc_continuous_current_a; esc_cells_min;
        esc_cells_max; cell_count; fc_bec_5v_a; fc_bec_9v_a; fc_bec_10v_a;
        fc_bec_12v_a; fc_vbat_min_s; fc_vbat_max_s; vtx_5v_current_a;
        vtx_9v_current_a; vtx_10v_current_a; vtx_12v_current_a;
        vtx_input_s_min; vtx_input_s_max; camera_input_v_min;
        camera_input_v_max; camera_5v_current_a; antenna_band_ghz;
        capacitor_voltage_v]
  ++ map str_col_name
       [frame_fc_mount_pattern_eff; frame_motor_mount_pattern_eff;
        fc_mount_pattern_eff; esc_mount_pattern_eff; motor_mount_pattern_eff;
        battery_connector_eff; esc_batt_connector_eff; pigtail_connector_eff;
        vtx_system; camera_system; vtx_ant_conn; vtx_ant_conn_eff;
        antenna_conn; antenna_conn_eff; antenna_use; rx_ant_conn; prop_hub_eff].

End Loader.

(** ** cli/compat.py: helpers of the command line

    [len], slicing and padding count characters; on the keys of
    [build_compat], which are ASCII, a character is a byte. *)

Module Cli.
Import PyStr Schema Frame Summarize.
Local Open Scope list_scope.

(** Excel sheet names hold at most 31 characters. *)
Definition _safe_sheet_name (name : string) : string :=
  if (31 <? String.length name)%nat then substring 0 31 name else name.

(** The sheet [_write_xlsx] writes the frame of [key] to. *)
Definition sheet_name (key : string) : string :=
  _safe_sheet_name (replace "Compat_" "" key).

(** [d.insert(0, "pair_type", key)]: pandas refuses a label the frame has. *)
Definition insert_pair_type (key : string) (d : DataFrame) : result DataFrame :=
  if mem "pair_type" (columns d)
  then Raise (ValueError "cannot insert pair_type, already exists")
  else Ok {| columns := "pair_type" :: columns d;
             rows := map (cons (CStr key)) (rows d) |}.

(** The labels of [pd.concat(frames)]: those of the first frame, then the
    new ones of each next frame. *)
Definition union_columns (frames : list DataFrame) : list string :=
  fold_left (fun acc d => acc ++ filter (fun c => negb (mem c acc)) (columns d))
            frames [].

(** The rows of [d] under the labels [cols]; a label [d] does not have gives
    a null cell. *)
Definition reindex (cols : list string) (d : DataFrame) : list (list cell) :=
  map (fun r => map (fun c => match index_of c (columns d) with
                              | Some i => nth i r CNull
                              | None => CNull
                              end) cols) (rows d).

(** [pd.concat(frames, ignore_index=True)] of frames whose labels are
    distinct. *)
Definition concat (frames : list DataFrame) : DataFrame :=
  let cols := union_columns frames in
  {| columns := cols; rows := flat_map (reindex cols) frames |}.

(** The frames the loops of the writers keep: neither [None] nor empty. *)
Definition filled (compat : list (string * option DataFrame))
    : list (string * DataFrame) :=
  flat_map (fun kv => match snd kv with
                      | Some d => if empty d then [] else [(fst kv, d)]
                      | None => []
                      end) compat.

Definition _concat_with_pair_type (compat : list (string * option DataFrame))
    : result DataFrame :=
  bind (series_apply (fun kv => insert_pair_type (fst kv) (snd kv)) (filled compat))
       (fun parts =>
          Ok (if is_empty parts then {| columns := []; rows := [] |}
              else concat parts)).

(** [_write_csv_dir]: the files written under [out_dir], in order, each with
    the frame [to_csv] is called on; the list it returns is that of their
    names. *)
Definition _write_csv_dir (compat : list (string * option DataFrame))
    : list (string * DataFrame) :=
  map (fun kv => (fst kv ++ ".csv", snd kv)%string) (filled compat).

(** [c * n] for a one-character text *)
Fixpoint padding (c : ascii) (n : nat) : string :=
  match n with
  | O => EmptyString
  | S k => String c (padding c k)
  end.

(** [s.ljust(w)], and [format(s, ">w")] *)
Definition ljust (s : string) (w : nat) : string :=
  (s ++ padding " " (w - String.length s))%string.

Definition rjust (s : string) (w : nat) : string :=
  (padding " " (w - String.length s) ++ s)%string.

(** [format(n, ">w")] for a count *)
Definition count_field (n w : nat) : string :=
  rjust (str_of_nonneg (Z.of_nat n)) w.

(** The lines [run_cli] prints for [--print-summary]. *)
Definition summary_lines (summary : list summary_row) : list string :=
  if is_empty summary then []
  else
    let pair_width :=
      fold_right (fun r m => Nat.max (String.length (pair r)) m) 0%nat summary in
    let w := Nat.max 16 pair_width in
    let header := (ljust "PAIR" w ++ "  PASS  FAIL  UNK")%string in
    header :: padding "-" (String.length header)
    :: map (fun r => (ljust (pair r) w ++ "  " ++ count_field (pass r) 4 ++ "  "
                      ++ count_field (fail r) 4 ++ "  "
                      ++ count_field (unknown r) 3)%string) summary.

Section PassOnly.
Variable str_of_float : float -> string.

(** The mask of [_filter_pass_only] on one row; [i] is the place of
    [status]. *)
Definition pass_row (i : nat) (r : list cell) : bool :=
  is_pass (upper (astype_str str_of_float (nth i r CNull))).

Definition _filter_pass_only (df : option DataFrame) : option DataFrame :=
  match df with
  | None => None
  | Some d =>
      if empty d then Some d
      else
        match index_of "status" (columns d) with
        | None => Some d
        | Some i => Some {| columns := columns d;
                            rows := filter (pass_row i) (rows d) |}
        end
  end.

(** [{k: _filter_pass_only(v) for k, v in compat.items()}] *)
Definition pass_only (compat : list (string * option DataFrame))
    : list (string * option DataFrame) :=
  map (fun kv => (fst kv, _filter_pass_only (snd kv))) compat.

End PassOnly.

End Cli.

(** ** What the statements below are written with *)

Module Props.
Import Frame Engine Summarize.
Local Open Scope list_scope.

(** [l1] is [l2] with some elements left out. *)
Inductive sublist {A : Type} : list A -> list A -> Prop :=
  | sublist_nil : sublist [] []
  | sublist_skip (x : A) (l1 l2 : list A) : sublist l1 l2 -> sublist l1 (x :: l2)
  | sublist_keep (x : A) (l1 l2 : list A) : sublist l1 l2 -> sublist (x :: l1) (x :: l2).

(** The edges a summary row counts. *)
Definition total (r : summary_row) : nat := pass r + fail r + unknown r.

(** A mapping of frames as the writers and [summarize] take it. *)
Definition as_compat (out : list (string * DataFrame))
    : list (string * option DataFrame) :=
  map (fun kv => (fst kv, Some (snd kv))) out.

(** The texts under [status] in a frame. *)
Definition statuses (df : DataFrame) : list cell :=
  map (fun r => match Contract.status_cell r with Some c => c | None => CNull end)
      (rows df).

(** Every row of [df] carries one of the texts [S] under [status]. *)
Definition statuses_in (S : list string) (df : DataFrame) : Prop :=
  Forall (fun r => exists s, Contract.status_cell r = Some (CStr s) /\ In s S) (rows df).

(** The number of rows of [df] with the text [s] under [status]. *)
Definition count_status (s : string) (df : DataFrame) : nat :=
  List.length (filter (fun r => match Contract.status_cell r with
                                | Some (CStr t) => String.eqb t s
                                | _ => false
                                end) (rows df)).

(** The pairs that are the result of a join alone, and the pairs with a
    verdict for missing data. *)
Definition JOINED : list string :=
  ["Compat_vtx_camera"; "Compat_vtx_antenna"; "Compat_rx_antenna";
   "Compat_pigtail_esc"; "Compat_battery_pigtail"].

Definition WARNING : list string := ["Compat_esc_motor"; "Compat_motor_prop_hub"].

(** The statuses the frame of a key can hold. *)
Definition vocabulary (key : string) : list string :=
  if PyStr.mem key JOINED then ["PASS"]
  else if PyStr.mem key WARNING then ["PASS"; "FAIL"; "WARN"]
  else ["PASS"; "FAIL"].

(** The mapping [build_compat] returns on [parts], and none when it
    raises. *)
Definition compat_of (parts : list part) (headroom : float)
    : list (string * DataFrame) :=
  match build_compat parts headroom with
  | Ok out => out
  | Raise _ => []
  end.

(** The verdict of the battery - esc rule on a pair whose connectors
    match: the cells decide only when all three values are known. *)
Definition cells_known (b e : part) : bool :=
  negb (is_nan (num b cell_count)) && negb (is_nan (num e esc_cells_min))
  && negb (is_nan (num e esc_cells_max)).

Definition cells_within (b e : part) : bool :=
  ((num e esc_cells_min <=? num b cell_count)
   && (num b cell_count <=? num e esc_cells_max))%float.

Definition battery_esc_verdict (b e : part) : string * string :=
  if cells_known b e then
    if cells_within b e then ("PASS", "Connector + cells OK")
    else ("FAIL", "Cells out of ESC range")
  else ("PASS", "Connector matched").

(** The tokens two parts share in the mount columns [lc] and [rc]. *)
Definition common_mount (a : part) (lc : str_col) (b : part) (rc : str_col) : bool :=
  sets_meet (mounts a lc) (mounts b rc).

(** The two voltages of the capacitor - esc rule, and its verdict. *)
Definition esc_vmax (e : part) : float := (num e esc_cells_max * 4.2)%float.

Definition esc_v_need (e : part) : float := (esc_vmax e * 1.05)%float.

Definition cap_verdict (c e : part) : string :=
  if (esc_v_need e <=? num c capacitor_voltage_v)%float then "PASS" else "FAIL".

(** A capacitor of the given voltage. *)
Definition capacitor_with (v : float) : part :=
  {| sku := Some "CAP-1"; type := "capacitor"; name := Some "capacitor";
     num := fun c => match c with capacitor_voltage_v => v | _ => nan end;
     str := fun _ => None; rx_band_ghz := CNull |}.

(** [a <= b] on floats *)
Definition fle (a b : float) : bool := (a <=? b)%float.

(** The verdict of the basic rule on an ESC and a motor, and the two tests
    it is made of. *)
Definition basic_verdict (e m : part) : string := fst (_eval_basic (e, m)).

Definition cells_ok (e m : part) : option bool :=
  _s_overlap (num e esc_cells_min) (num e esc_cells_max)
             (num m cells_min) (num m cells_max).

Definition cur_ok (e m : part) : bool :=
  negb (is_nan (num e esc_continuous_current_a))
  && negb (is_nan (num m max_current_a))
  && (num m max_current_a <=? num e esc_continuous_current_a)%float.

End Props.

(** ** The verdicts of the rules on currents, voltages and sizes *)

Module Verdicts.
Import Frame Engine Props.

(** The verdict of the rules that compare what one part has with what the
    other needs. *)
Definition supplies (have need : float) : string :=
  if (need <=? have)%float then "PASS" else "FAIL".

(** The camera takes the rail voltage [V]. *)
Definition cam_takes (V : Z) (c : part) : bool :=
  ((num c camera_input_v_min <=? float_of_int V)
   && (float_of_int V <=? num c camera_input_v_max))%float.

(** The four bounds of the VBAT rule lie as those of two ranges that meet. *)
Definition vbat_overlap (f v : part) : bool :=
  fle (num f fc_vbat_min_s) (num f fc_vbat_max_s)
  && fle (num f fc_vbat_min_s) (num v vtx_input_s_max)
  && fle (num v vtx_input_s_min) (num f fc_vbat_max_s)
  && fle (num v vtx_input_s_min) (num v vtx_input_s_max).

(** A flight controller with the given BEC currents, and a camera with the
    given input range. *)
Definition fc_with (a5 a10 : float) : part :=
  {| sku := Some "FC-1"; type := "fc"; name := Some "fc";
     num := fun c => match c with
                     | fc_bec_5v_a => a5
                     | fc_bec_10v_a => a10
                     | _ => nan
                     end;
     str := fun _ => None; rx_band_ghz := CNull |}.

Definition camera_with (vmin vmax : float) (system : option string) : part :=
  {| sku := Some "CAM-1"; type := "camera"; name := Some "camera";
     num := fun c => match c with
                     | camera_input_v_min => vmin
                     | camera_input_v_max => vmax
                     | _ => nan
                     end;
     str := fun c => match c with camera_system => system | _ => None end;
     rx_band_ghz := CNull |}.

Definition vtx_of_system (system : option string) : part :=
  {| sku := Some "VTX-1"; type := "vtx"; name := Some "vtx";
     num := fun _ => nan;
     str := fun c => match c with vtx_system => system | _ => None end;
     rx_band_ghz := CNull |}.

(** An ESC with the given cell maximum. *)
Definition esc_of_cells (cmax : float) : part :=
  {| sku := Some "ESC-2"; type := "esc"; name := Some "esc";
     num := fun c => match c with esc_cells_max => cmax | _ => nan end;
     str := fun _ => None; rx_band_ghz := CNull |}.

(** The part has a sku and a name. *)
Definition named (p : part) : bool := notna_opt (sku p) && notna_opt (name p).

End Verdicts.

(** * Facts *)

Import PyStr PyFloat Schema Canon Engine Contract Examples.


(** ** esc - motor with headroom *)

Lemma s_overlap_cases (e m : part) :
  _s_overlap (num e esc_cells_min) (num e esc_cells_max)
             (num m cells_min) (num m cells_max) =
  if range_missing e m then None else Some (ranges_overlap e m).
Proof.
  unfold _s_overlap, range_missing, ranges_overlap; simpl.
  rewrite orb_false_r, !orb_assoc. reflexivity.
Qed.

(** The verdict of [_eval_head] as one decision list. *)
Lemma head_verdict_cases (h : float) (e m : part) :
  head_verdict h e m =
  if is_nan (num e esc_continuous_current_a) || is_nan (num m max_current_a)
  then "FAIL"
  else if range_missing e m then "FAIL"
  else if ranges_overlap e m
       then (if current_suffices h e m then "PASS" else "FAIL")
       else "FAIL".
Proof.
  unfold head_verdict, _eval_head, current_suffices.
  destruct (is_nan (num e esc_continuous_current_a) || is_nan (num m max_current_a));
    [reflexivity|].
  rewrite s_overlap_cases.
  destruct (range_missing e m); [reflexivity|].
  destruct (ranges_overlap e m); [|reflexivity].
  destruct (_ <=? _)%float; reflexivity.
Qed.


(** C4, as the code has it: with a 30 A ESC, a 20 A motor and overlapping
    cell ranges the rule passes at headroom 1.2 (24 A needed) and still
    passes at 1.3 (26 A needed); it fails at 1.6 (32 A needed). *)
Theorem headroom_scenario_30_20 (e m : part) :
  num e esc_continuous_current_a = 30%float ->
  num m max_current_a = 20%float ->
  range_missing e m = false -> ranges_overlap e m = true ->
  (1.2 * 20 = 24)%float /\ head_verdict 1.2 e m = "PASS"
  /\ (1.3 * 20 = 26)%float /\ head_verdict 1.3 e m = "PASS"
  /\ (1.6 * 20 = 32)%float /\ head_verdict 1.6 e m = "FAIL".
Proof.
  intros He Hm Hr Ho.
  rewrite !head_verdict_cases. unfold current_suffices.
  rewrite He, Hm, Hr, Ho. vm_compute. repeat split.
Qed.

Lemma headroom_scenario_30_20_witness :
  (1.2 * 20 = 24)%float /\ head_verdict 1.2 (esc_with 30) (motor_with 20 3) = "PASS"
  /\ (1.3 * 20 = 26)%float /\ head_verdict 1.3 (esc_with 30) (motor_with 20 3) = "PASS"
  /\ (1.6 * 20 = 32)%float /\ head_verdict 1.6 (esc_with 30) (motor_with 20 3) = "FAIL".
Proof.
  apply (headroom_scenario_30_20 (esc_with 30) (motor_with 20 3)); reflexivity.
Defined.

(** C4 as stated fails: at headroom 1.3 the 30 A ESC with the 20 A motor is
    a PASS, not a FAIL. *)
Lemma headroom_13_is_not_fail :
  ~ (head_verdict 1.2 (esc_with 30) (motor_with 20 3) = "PASS"
     /\ head_verdict 1.3 (esc_with 30) (motor_with 20 3) = "FAIL").
Proof. vm_compute. intros [_ H]. discriminate H. Qed.

(** C5 as stated fails for a negative motor current: the pair passes at
    headroom 2 and fails at headroom 1. *)
Lemma headroom_not_monotone_negative_current :
  ~ ((1 <=? 2)%float = true ->
     head_verdict 2 (esc_with (-30)) (motor_with (-20) 3) = "PASS" ->
     head_verdict 1 (esc_with (-30)) (motor_with (-20) 3) = "PASS").
Proof. vm_compute. intros H. specialize (H eq_refl eq_refl). discriminate H. Qed.

(** ** Connector scenarios *)

(** C6: "XT-60" becomes "XT60"; the RP-SMA test runs before the SMA test
    and "rp-sma" becomes "RP-SMA", but "rpsma" has no separator for the
    RP-SMA test to find and becomes "SMA". *)
Theorem connector_scenarios :
  _canon_power_conn (Some "XT-60") = Some "XT60"
  /\ _canon_connector (Some "rp-sma") = Some "RP-SMA"
  /\ rf_text "rpsma" = "RPSMA"
  /\ contains "RP SMA" (rf_text "rpsma") = false
  /\ _canon_connector (Some "rpsma") = Some "SMA".
Proof. vm_compute. repeat split. Qed.

(** ** motor - prop hub *)

Lemma cartesian_list_prod {A B} (a : list A) (b : list B) :
  _cartesian a b = list_prod a b.
Proof.
  unfold _cartesian. destruct a as [|x a]; [reflexivity|].
  destruct b as [|y b]; [|reflexivity].
  simpl. clear x. induction a as [|x a IH]; [reflexivity | exact IH].
Qed.

Lemma motor_hub_classes (m : part) :
  motor_hub_eff m = Some "M5" \/ motor_hub_eff m = Some "T-MOUNT"
  \/ motor_hub_eff m = None.
Proof.
  unfold motor_hub_eff, _motor_hub_from_shaft.
  destruct (is_nan _); [auto|].
  destruct (4.8 <=? _)%float; [auto|].
  destruct (_ <=? 2.1)%float; auto.
Qed.

Lemma compat_motor_prop_hub_rows (motors props : list part) :
  rows (compat_motor_prop_hub motors props) = map hub_row (motor_prop_pairs motors props).
Proof.
  unfold compat_motor_prop_hub.
  destruct (motor_prop_pairs motors props); reflexivity.
Qed.

Lemma list_prod_flat_map {A B} (l : list A) (r : list B) :
  list_prod l r = flat_map (fun a => map (pair a) r) l.
Proof. induction l as [|a l IH]; simpl; [reflexivity | now rewrite IH]. Qed.

Lemma map_flat_map {A B C} (f : B -> C) (g : A -> list B) (l : list A) :
  map f (flat_map g l) = flat_map (fun a => map f (g a)) l.
Proof.
  induction l as [|a l IH]; simpl; [reflexivity|]. now rewrite map_app, IH.
Qed.

Lemma flat_map_ext_all {A B} (f g : A -> list B) (l : list A) :
  (forall a, f a = g a) -> flat_map f l = flat_map g l.
Proof.
  intros H. induction l as [|a l IH]; simpl; [reflexivity|]. now rewrite H, IH.
Qed.

(** The verdict the code computes for a pair is that of the table, whatever
    the pair. *)
Lemma hub_verdict_table (m p : part) :
  hub_verdict m p = (hub_status (motor_hub_eff m) (str p prop_hub_eff),
                     hub_reason (motor_hub_eff m) (str p prop_hub_eff)).
Proof.
  unfold hub_verdict, hub_status, hub_reason.
  destruct (motor_hub_eff m) as [a|], (str p prop_hub_eff) as [b|]; simpl;
    try destruct (String.eqb a b); reflexivity.
Qed.

(** C8: the frame has, motor by motor, one row for every prop whose hub
    class is resolved, with the verdict of the claim's table: PASS when the
    two hub classes are the same, FAIL when they differ, WARN with
    "Insufficient hub/shaft data" when the motor hub is unresolved (a 3.0 mm
    shaft with an "M5" prop).  A prop whose hub class is unresolved is
    dropped before the pairs are formed: its pair with a motor gives no row
    at all, where the claim says WARN, and where the verdict the code itself
    computes for such a pair is WARN. *)
Theorem motor_prop_hub_rule (motors props : list part) :
  rows (compat_motor_prop_hub motors props)
  = flat_map (fun m =>
      map (fun p =>
             (ids m p ++ [CNum (num m shaft_mm); cell_of_opt (motor_hub_eff m);
                          cell_of_opt (str p prop_hub_eff);
                          CStr (hub_status (motor_hub_eff m) (str p prop_hub_eff));
                          CStr (hub_reason (motor_hub_eff m) (str p prop_hub_eff))])%list)
          (filter (fun p => notna_opt (str p prop_hub_eff)) props)) motors
  /\ (forall m p, hub_verdict m p
                  = (hub_status (motor_hub_eff m) (str p prop_hub_eff),
                     hub_reason (motor_hub_eff m) (str p prop_hub_eff)))
  /\ (forall m p, num m shaft_mm = 3%float -> str p prop_hub_eff = Some "M5" ->
        motor_hub_eff m = None
        /\ rows (compat_motor_prop_hub [m] [p])
           = [(ids m p ++ [CNum 3; CNull; CStr "M5"; CStr "WARN";
                           CStr "Insufficient hub/shaft data"])%list])
  /\ (forall m p, str p prop_hub_eff = None ->
        hub_status (motor_hub_eff m) (str p prop_hub_eff) = "WARN"
        /\ fst (hub_verdict m p) = "WARN"
        /\ rows (compat_motor_prop_hub [m] [p]) = [])
  /\ (str (prop_with (Some "hex")) prop_hub_eff = None
      /\ motor_hub_eff (motor_with 20 5) = Some "M5"
      /\ rows (compat_motor_prop_hub [motor_with 20 5] [prop_with (Some "hex")]) = []).
Proof.
  assert (R : forall ms ps, rows (compat_motor_prop_hub ms ps)
    = flat_map (fun m =>
        map (fun p =>
               (ids m p ++ [CNum (num m shaft_mm); cell_of_opt (motor_hub_eff m);
                            cell_of_opt (str p prop_hub_eff);
                            CStr (hub_status (motor_hub_eff m) (str p prop_hub_eff));
                            CStr (hub_reason (motor_hub_eff m) (str p prop_hub_eff))])%list)
            (filter (fun p => notna_opt (str p prop_hub_eff)) ps)) ms).
  { intros ms ps. rewrite compat_motor_prop_hub_rows. unfold motor_prop_pairs.
    rewrite cartesian_list_prod, list_prod_flat_map, map_flat_map.
    apply flat_map_ext_all. intros m. rewrite map_map. unfold dropna_str.
    rewrite (filter_ext _ (fun p => notna_opt (str p prop_hub_eff))).
    - apply map_ext. intros p. unfold hub_row. now rewrite hub_verdict_table.
    - intros p. simpl. apply andb_true_r. }
  split; [apply R|]. split; [exact hub_verdict_table|]. split; [|split].
  - intros m p Hs Hp.
    assert (Hm : motor_hub_eff m = None).
    { unfold motor_hub_eff. rewrite Hs. vm_compute. reflexivity. }
    split; [exact Hm|]. rewrite R. cbn [flat_map filter]. rewrite Hp.
    cbn [notna_opt map app]. rewrite Hp, Hm, Hs. reflexivity.
  - intros m p Hp. rewrite hub_verdict_table, R. cbn [flat_map filter fst].
    rewrite Hp. cbn [notna_opt map app]. unfold hub_status.
    destruct (motor_hub_eff m); repeat split.
  - vm_compute. repeat split.
Qed.

(** ** summarize *)

Import Summarize.

Lemma pass_is_not_fail (s : string) : is_pass s = true -> is_fail s = false.
Proof.
  unfold is_pass, is_fail, mem, PASS_VALUES; simpl.
  rewrite !orb_true_iff, !String.eqb_eq.
  intros [-> | [-> | [-> | [-> | [-> | H]]]]]; try reflexivity. discriminate H.
Qed.

(** Every status text falls in exactly one of the three buckets. *)
Lemma one_bucket (s : string) :
  (is_pass s = true /\ is_fail s = false /\ is_unknown s = false)
  \/ (is_pass s = false /\ is_fail s = true /\ is_unknown s = false)
  \/ (is_pass s = false /\ is_fail s = false /\ is_unknown s = true).
Proof.
  unfold is_unknown. pose proof (pass_is_not_fail s) as H.
  destruct (is_pass s); [rewrite (H eq_refl); auto|].
  destruct (is_fail s); auto.
Qed.

Lemma count_partition (l : list string) :
  count_if is_pass l + count_if is_fail l + count_if is_unknown l = List.length l.
Proof.
  unfold count_if. induction l as [|s l IH]; [reflexivity|]. simpl.
  destruct (one_bucket s) as [(-> & -> & ->) | [(-> & -> & ->) | (-> & -> & ->)]];
    simpl; lia.
Qed.

Lemma insert_row_perm (r : summary_row) (l : list summary_row) :
  Permutation (insert_row r l) (r :: l).
Proof.
  induction l as [|x t IH]; simpl; [reflexivity|].
  destruct (String.leb (pair r) (pair x)); [reflexivity|].
  rewrite IH. apply perm_swap.
Qed.

Lemma sort_values_perm (l : list summary_row) : Permutation (sort_values l) l.
Proof.
  induction l as [|r l IH]; simpl; [reflexivity|].
  rewrite insert_row_perm. now constructor.
Qed.

Section SummaryFacts.
Variable str_of_float : float -> string.

Lemma summarize_perm (compat : list (string * option DataFrame)) :
  Permutation (summarize str_of_float compat)
              (map (fun kv => summary_of str_of_float (fst kv) (snd kv)) compat).
Proof.
  unfold summarize. destruct (is_empty _); [reflexivity | apply sort_values_perm].
Qed.

Lemma summary_of_pair (k : string) (df : option DataFrame) :
  pair (summary_of str_of_float k df) = k.
Proof.
  unfold summary_of. destruct df as [d|]; [|reflexivity].
  destruct (empty d); [reflexivity|]. destruct (column "status" d); reflexivity.
Qed.

Lemma column_length (c : string) (d : DataFrame) (col : list cell) :
  column c d = Some col -> List.length col = List.length (rows d).
Proof.
  unfold column. destruct (index_of c (columns d)); [|discriminate].
  intros [= <-]. apply length_map.
Qed.

Lemma count_if_map {A} (p : string -> bool) (f : A -> string) (l : list A) :
  count_if p (map f l) = List.length (filter (fun a => p (f a)) l).
Proof.
  unfold count_if. induction l as [|a l IH]; [reflexivity|]. simpl.
  destruct (p (f a)); simpl; now rewrite IH.
Qed.

Lemma length_filter_agree {A} (p q : A -> bool) (l : list A) :
  Forall (fun a => p a = q a) l ->
  List.length (filter p l) = List.length (filter q l).
Proof.
  induction 1 as [|a l Ha _ IH]; [reflexivity|]. simpl. rewrite Ha.
  destruct (q a); simpl; now rewrite IH.
Qed.

(** The three counts of a frame whose status cells are texts, row by row. *)
Lemma summary_of_counts (k : string) (d : DataFrame) (i : nat) :
  empty d = false -> index_of "status" (columns d) = Some i ->
  Forall (fun row => exists s, nth i row CNull = CStr s) (rows d) ->
  let r := summary_of str_of_float k (Some d) in
  pass r = List.length (filter (fun row => mem (status_text i row) PASS_VALUES) (rows d))
  /\ fail r = List.length (filter (fun row => String.eqb (status_text i row) "FAIL")
                                  (rows d))
  /\ unknown r
     = List.length (filter (fun row => negb (mem (status_text i row) PASS_VALUES)
                                       && negb (String.eqb (status_text i row) "FAIL"))
                           (rows d)).
Proof.
  intros He Hi Hc. cbv zeta. unfold summary_of, column. rewrite He, Hi.
  cbn [pass fail unknown]. rewrite map_map, !count_if_map.
  repeat split; apply length_filter_agree; (eapply Forall_impl; [|exact Hc]);
    intros row [t Ht]; unfold status_text, is_pass, is_fail, is_unknown;
    rewrite Ht; reflexivity.
Qed.

(** C10: [summarize] gives one row per key of the mapping; a missing frame
    and a frame pandas calls empty count 0/0/0; a frame with no [status]
    column counts every row as unknown.  In a frame whose status cells are
    ASCII texts, pass is the number of rows whose status, in upper case, is
    a pass token (PASS, OK, TRUE, YES, 1), fail the number of rows whose
    status is FAIL, and unknown the number of all other rows, WARN among
    them: every row is counted in exactly one bucket and the three counts
    add up to the number of rows. *)
Theorem summarize_partitions_edges (compat : list (string * option DataFrame)) :
  Permutation (map pair (summarize str_of_float compat)) (map fst compat)
  /\ List.length (summarize str_of_float compat) = List.length compat
  /\ (forall k df, In (k, df) compat ->
        In (summary_of str_of_float k df) (summarize str_of_float compat))
  /\ (forall k df,
        let r := summary_of str_of_float k df in
        pair r = k
        /\ match df with
           | None => pass r = 0 /\ fail r = 0 /\ unknown r = 0
           | Some d =>
               if empty d then pass r = 0 /\ fail r = 0 /\ unknown r = 0
               else
                 pass r + fail r + unknown r = List.length (rows d)
                 /\ (index_of "status" (columns d) = None ->
                     pass r = 0 /\ fail r = 0 /\ unknown r = List.length (rows d))
           end)
  /\ (forall k d i,
        empty d = false -> index_of "status" (columns d) = Some i ->
        Forall (fun row => exists s, nth i row CNull = CStr s /\ isascii s = true)
               (rows d) ->
        let r := summary_of str_of_float k (Some d) in
        pass r = List.length (filter (fun row => mem (status_text i row) PASS_VALUES)
                                     (rows d))
        /\ fail r = List.length (filter (fun row => String.eqb (status_text i row) "FAIL")
                                        (rows d))
        /\ unknown r
           = List.length (filter (fun row => negb (mem (status_text i row) PASS_VALUES)
                                             && negb (String.eqb (status_text i row) "FAIL"))
                                 (rows d)))
  /\ (forall s, (is_pass s = true /\ is_fail s = false /\ is_unknown s = false)
                \/ (is_pass s = false /\ is_fail s = true /\ is_unknown s = false)
                \/ (is_pass s = false /\ is_fail s = false /\ is_unknown s = true))
  /\ (mem "PASS" PASS_VALUES = true /\ mem "FAIL" PASS_VALUES = false
      /\ mem "WARN" PASS_VALUES = false).
Proof.
  split; [|split; [|split; [|split; [|split; [|split]]]]].
  - rewrite (Permutation_map pair (summarize_perm compat)).
    rewrite map_map. erewrite map_ext; [reflexivity|].
    intros [k df]. apply summary_of_pair.
  - rewrite (Permutation_length (summarize_perm compat)). apply length_map.
  - intros k df Hin.
    apply (Permutation_in _ (Permutation_sym (summarize_perm compat))).
    apply in_map_iff. exists (k, df). auto.
  - intros k df r. split; [apply summary_of_pair|].
    subst r. unfold summary_of, column. destruct df as [d|]; [|auto].
    destruct (empty d); [auto|].
    destruct (index_of "status" (columns d)) as [i|] eqn:Hc; cbn [pass fail unknown].
    + split; [|discriminate]. rewrite count_partition. now rewrite !length_map.
    + split; [reflexivity | auto].
  - intros k d i He Hi Hc. apply summary_of_counts; [exact He | exact Hi |].
    eapply Forall_impl; [|exact Hc]. intros row [t [Ht _]]. now exists t.
  - apply one_bucket.
  - repeat split.
Qed.

End SummaryFacts.

(** ** Strings *)

Lemma all_chars_app (p : ascii -> bool) (a b : string) :
  all_chars p (a ++ b) = all_chars p a && all_chars p b.
Proof.
  induction a as [|c a IH]; simpl; [reflexivity|].
  now rewrite IH, andb_assoc.
Qed.

Lemma all_chars_weaken (p q : ascii -> bool) (s : string) :
  (forall c, p c = true -> q c = true) -> all_chars p s = true -> all_chars q s = true.
Proof.
  intros Hpq. induction s as [|c s IH]; simpl; [reflexivity|].
  rewrite !andb_true_iff. intros [Hc Hs]. auto.
Qed.

Lemma all_chars_join (p : ascii -> bool) (sep : string) (l : list string) :
  all_chars p sep = true -> Forall (fun t => all_chars p t = true) l ->
  all_chars p (join sep l) = true.
Proof.
  intros Hsep Hl. induction Hl as [|t l Ht Hl IH]; [reflexivity|].
  unfold join in *. simpl. destruct l as [|u l]; [exact Ht|].
  rewrite !all_chars_app, Ht, Hsep. exact IH.
Qed.

Lemma map_chars_fixed (f : ascii -> ascii) (p : ascii -> bool) (s : string) :
  (forall c, p c = true -> f c = c) -> all_chars p s = true -> map_chars f s = s.
Proof.
  intros Hf. induction s as [|c s IH]; simpl; [reflexivity|].
  rewrite andb_true_iff. intros [Hc Hs]. now rewrite (Hf c Hc), IH.
Qed.

Lemma all_chars_map (f : ascii -> ascii) (p : ascii -> bool) (s : string) :
  (forall c, p (f c) = true) -> all_chars p (map_chars f s) = true.
Proof.
  intros Hf. induction s as [|c s IH]; simpl; [reflexivity|]. now rewrite Hf, IH.
Qed.

Lemma prefix_cons (a c : ascii) (old r : string) :
  prefix (String a old) (String c r) = Ascii.eqb a c && prefix old r.
Proof.
  simpl. destruct (ascii_dec a c) as [-> | Hne].
  - now rewrite Ascii.eqb_refl.
  - apply Ascii.eqb_neq in Hne. now rewrite Hne.
Qed.

(** [replace] changes nothing in a text where the first character of [old]
    does not occur. *)
Lemma replace_absent (a : ascii) (old new s : string) :
  all_chars (fun c => negb (Ascii.eqb a c)) s = true ->
  replace (String a old) new s = s.
Proof.
  unfold replace. induction s as [|c s IH]; [reflexivity|].
  cbn [all_chars replace_from]. rewrite andb_true_iff, negb_true_iff.
  intros [Hc Hs]. rewrite prefix_cons, Hc. simpl. now rewrite IH.
Qed.

(** [s.replace(a, "")] for one character [a] removes it. *)
Lemma replace_char_empty (a : ascii) (s : string) :
  replace (String a "") "" s = remove_char a s.
Proof.
  unfold replace. induction s as [|c s IH]; [reflexivity|].
  cbn [replace_from remove_char]. rewrite prefix_cons.
  destruct (Ascii.eqb a c); simpl.
  - destruct s; exact IH.
  - now rewrite IH.
Qed.

Lemma remove_char_app (a : ascii) (s t : string) :
  remove_char a (s ++ t) = remove_char a s ++ remove_char a t.
Proof.
  induction s as [|c s IH]; simpl; [reflexivity|].
  destruct (Ascii.eqb a c); simpl; now rewrite IH.
Qed.

Lemma remove_char_absent (a : ascii) (s : string) :
  all_chars (fun c => negb (Ascii.eqb a c)) s = true -> remove_char a s = s.
Proof.
  induction s as [|c s IH]; simpl; [reflexivity|].
  rewrite andb_true_iff, negb_true_iff. intros [-> Hs]. now rewrite IH.
Qed.

Lemma all_chars_remove (p : ascii -> bool) (a : ascii) (s : string) :
  all_chars p s = true ->
  all_chars (fun c => p c && negb (Ascii.eqb a c)) (remove_char a s) = true.
Proof.
  induction s as [|c s IH]; simpl; [reflexivity|].
  rewrite andb_true_iff. intros [Hc Hs].
  destruct (Ascii.eqb a c) eqn:E; simpl; [auto|]. now rewrite Hc, E, IH.
Qed.

Lemma split_no_sep (sep : ascii) (t : string) :
  all_chars (fun c => negb (Ascii.eqb c sep)) t = true -> split sep t = [t].
Proof.
  induction t as [|c t IH]; simpl; [reflexivity|].
  rewrite andb_true_iff, negb_true_iff. intros [-> Ht]. now rewrite IH.
Qed.

Lemma split_app_sep (sep : ascii) (t rest : string) :
  all_chars (fun c => negb (Ascii.eqb c sep)) t = true ->
  split sep (t ++ String sep rest) = t :: split sep rest.
Proof.
  induction t as [|c t IH]; simpl.
  - now rewrite Ascii.eqb_refl.
  - rewrite andb_true_iff, negb_true_iff. intros [-> Ht]. now rewrite IH.
Qed.

Lemma mem_In (t : string) (l : list string) : mem t l = true <-> In t l.
Proof.
  unfold mem. rewrite existsb_exists. split.
  - intros [x [Hx E]]. apply String.eqb_eq in E. now subst.
  - intros H. exists t. split; [exact H | apply String.eqb_refl].
Qed.

Lemma mem_not_In (t : string) (l : list string) : mem t l = false <-> ~ In t l.
Proof.
  rewrite <- mem_In. destruct (mem t l); split; try congruence; intros H; now elim H.
Qed.

(** ** Canonical forms are fixed points *)

(** What the loop of [_canon_mount_list] needs of an allowed token. *)
Lemma allowed_token_facts (t : string) :
  In t ALLOWED_MOUNTS ->
  lower (strip t) = t
  /\ String.eqb t "" = false
  /\ String.eqb t "30x30" = false
  /\ String.eqb t "25x25" = false
  /\ mem t ALLOWED_MOUNTS = true
  /\ all_chars (fun c => negb (Ascii.eqb "195" c)) t = true
  /\ all_chars (fun c => negb (Ascii.eqb " " c)) t = true
  /\ all_chars (fun c => negb (Ascii.eqb c ",")) t = true.
Proof.
  unfold ALLOWED_MOUNTS. simpl.
  intros H; repeat destruct H as [<- | H]; try (vm_compute; repeat split); elim H.
Qed.

Lemma mount_step_allowed (out : list string) (t : string) :
  In t ALLOWED_MOUNTS ->
  mount_step out t = if mem t out then out else (out ++ [t])%list.
Proof.
  intros H. destruct (allowed_token_facts t H) as (E1 & E2 & E3 & E4 & E5 & _).
  unfold mount_step. rewrite E1, E2, E3, E4, E5. simpl.
  destruct (mem t out); reflexivity.
Qed.

(** The loop keeps a list of distinct allowed tokens. *)
Lemma mount_fold_invariant (toks out : list string) :
  Forall (fun t => In t ALLOWED_MOUNTS) out -> NoDup out ->
  Forall (fun t => In t ALLOWED_MOUNTS) (fold_left mount_step toks out)
  /\ NoDup (fold_left mount_step toks out).
Proof.
  revert out. induction toks as [|t0 toks IH]; intros out Ha Hn; [now split|].
  simpl. apply IH.
  - unfold mount_step. destruct (String.eqb _ ""); [exact Ha|].
    destruct (mem _ ALLOWED_MOUNTS && negb (mem _ out)) eqn:E; [|exact Ha].
    apply andb_true_iff in E. destruct E as [E _]. apply mem_In in E.
    apply Forall_app. split; [exact Ha | now constructor].
  - unfold mount_step. destruct (String.eqb _ ""); [exact Hn|].
    destruct (mem _ ALLOWED_MOUNTS && negb (mem _ out)) eqn:E; [|exact Hn].
    apply andb_true_iff in E. destruct E as [_ E].
    apply negb_true_iff, mem_not_In in E.
    apply NoDup_app; [exact Hn | repeat constructor; intros [] | ].
    intros x Hx [<- | []]. contradiction.
Qed.

Lemma canon_mount_list_invariant (val : mount_val) :
  Forall (fun t => In t ALLOWED_MOUNTS) (_canon_mount_list val)
  /\ NoDup (_canon_mount_list val).
Proof.
  destruct val; simpl; try apply mount_fold_invariant; repeat constructor.
Qed.

Lemma mount_fold_distinct (l out : list string) :
  Forall (fun t => In t ALLOWED_MOUNTS) l -> NoDup (out ++ l)%list ->
  fold_left mount_step l out = (out ++ l)%list.
Proof.
  revert out. induction l as [|t l IH]; intros out Ha Hn; simpl.
  - now rewrite app_nil_r.
  - inversion Ha as [|? ? Ht Hl]; subst.
    rewrite (mount_step_allowed out t Ht).
    assert (Hnot : mem t out = false).
    { apply mem_not_In. intros Hin. apply NoDup_remove_2 in Hn. apply Hn.
      apply in_or_app. now left. }
    rewrite Hnot, IH; [now rewrite <- app_assoc | exact Hl | now rewrite <- app_assoc].
Qed.

Lemma join_cons (sep t u : string) (l : list string) :
  join sep (t :: u :: l) = t ++ sep ++ join sep (u :: l).
Proof. reflexivity. Qed.

Lemma join_comma_space (l : list string) :
  Forall (fun t => In t ALLOWED_MOUNTS) l ->
  replace " " "" (replace "×" "x" (join ", " l)) = join "," l.
Proof.
  intros Hl.
  assert (H195 : Forall (fun t => all_chars (fun c => negb (Ascii.eqb "195" c)) t = true) l).
  { eapply Forall_impl; [|exact Hl]. intros t Ht. apply (allowed_token_facts t Ht). }
  rewrite (replace_absent "195" _ "x"); [|apply all_chars_join; [reflexivity | exact H195]].
  rewrite replace_char_empty. clear H195.
  induction Hl as [|t l Ht Hl IH]; [reflexivity|].
  destruct l as [|u l].
  - apply remove_char_absent, (allowed_token_facts t Ht).
  - rewrite !join_cons, !remove_char_app, IH.
    rewrite (remove_char_absent " " t); [reflexivity | apply (allowed_token_facts t Ht)].
Qed.

Lemma split_join_comma (l : list string) :
  l <> [] -> Forall (fun t => In t ALLOWED_MOUNTS) l ->
  split "," (join "," l) = l.
Proof.
  intros Hne Hl. induction Hl as [|t l Ht Hl IH]; [now elim Hne|].
  destruct l as [|u l].
  - apply split_no_sep, (allowed_token_facts t Ht).
  - rewrite join_cons.
    change (t ++ "," ++ join "," (u :: l)) with (t ++ String "," (join "," (u :: l))).
    rewrite split_app_sep; [|apply (allowed_token_facts t Ht)].
    rewrite IH; [reflexivity | discriminate].
Qed.

(** A list of distinct allowed tokens comes back from its joined text. *)
Lemma canon_mount_list_join (l : list string) :
  Forall (fun t => In t ALLOWED_MOUNTS) l -> NoDup l ->
  _canon_mount_list (MStr (join ", " l)) = l.
Proof.
  intros Hl Hn. unfold _canon_mount_list. rewrite (join_comma_space l Hl).
  destruct l as [|t l]; [reflexivity|].
  rewrite split_join_comma; [|discriminate | exact Hl].
  now rewrite mount_fold_distinct.
Qed.

Lemma canon_connector_fixed (v : option string) (c : string) :
  _canon_connector v = Some c -> _canon_connector (Some c) = Some c.
Proof.
  destruct v as [s|]; [|discriminate]. unfold _canon_connector at 1.
  repeat match goal with
         | |- (if ?b then _ else _) = _ -> _ => destruct b
         end; intros [= <-]; reflexivity.
Qed.

Lemma upper_char_idem (c : ascii) : upper_char (upper_char c) = upper_char c.
Proof. destruct c as [[] [] [] [] [] [] [] []]; reflexivity. Qed.

(** The text the power vocabulary is looked up with is upper case and has
    no space and no hyphen. *)
Lemma power_text_chars (s : string) :
  all_chars (fun c => (Ascii.eqb (upper_char c) c && negb (Ascii.eqb " " c))
                      && negb (Ascii.eqb "-" c)) (power_text s) = true.
Proof.
  unfold power_text. rewrite !replace_char_empty.
  apply all_chars_remove, all_chars_remove, all_chars_map.
  intros c. rewrite upper_char_idem. apply Ascii.eqb_refl.
Qed.

Lemma power_text_fixed (s : string) :
  strip (power_text s) = power_text s -> power_text (power_text s) = power_text s.
Proof.
  intros Hs. pose proof (power_text_chars s) as Hc.
  unfold power_text at 1. rewrite Hs, !replace_char_empty.
  assert (Hu : upper (power_text s) = power_text s).
  { refine (map_chars_fixed _ _ _ _ Hc). intros c H.
    apply andb_true_iff in H. destruct H as [H _].
    apply andb_true_iff in H. destruct H as [H _]. now apply Ascii.eqb_eq in H. }
  rewrite Hu.
  rewrite (remove_char_absent " ").
  - apply remove_char_absent. revert Hc. apply all_chars_weaken.
    intros c H. apply andb_true_iff in H. apply H.
  - revert Hc. apply all_chars_weaken.
    intros c H. apply andb_true_iff in H. destruct H as [H _].
    apply andb_true_iff in H. apply H.
Qed.

Lemma canon_power_conn_fixed (s : option string) (t : string) :
  _canon_power_conn s = Some t -> strip t = t -> _canon_power_conn (Some t) = Some t.
Proof.
  destruct s as [v|]; [|discriminate]. unfold _canon_power_conn at 1.
  destruct (mem _ ["XT30"; _; _]) eqn:E1; [intros [= <-]; reflexivity|].
  destruct (mem _ ["XT60"; _; _]) eqn:E2; [intros [= <-]; reflexivity|].
  destruct (mem _ ["XT90"; _]) eqn:E3; [intros [= <-]; reflexivity|].
  destruct (mem _ ["EC3"]) eqn:E4; [intros [= <-]; reflexivity|].
  destruct (mem _ ["EC5"]) eqn:E5; [intros [= <-]; reflexivity|].
  destruct (mem _ ["JSTRCY"; _]) eqn:E6; [intros [= <-]; reflexivity|].
  intros [= <-] Hs. unfold _canon_power_conn.
  rewrite (power_text_fixed v Hs), E1, E2, E3, E4, E5, E6. reflexivity.
Qed.

(** C9, as the code has it: the mount-pattern canonicaliser gives its own
    output back from the comma-joined text; the RF-connector canonicaliser
    leaves its own output unchanged; on a text of ASCII characters the
    power-connector canonicaliser leaves its own output unchanged when that
    output has no white space at its ends, as every token of its
    vocabulary. *)
Theorem canonical_forms_are_fixed_points :
  (forall val, _canon_mount_list (MStr (join ", " (_canon_mount_list val)))
               = _canon_mount_list val)
  /\ (forall v c, _canon_connector v = Some c -> _canon_connector (Some c) = Some c)
  /\ (forall s t, isascii s = true ->
                  _canon_power_conn (Some s) = Some t -> strip t = t ->
                  _canon_power_conn (Some t) = Some t)
  /\ (forall t, In t ["XT30"; "XT60"; "XT90"; "EC3"; "EC5"; "JST-RCY"] ->
                _canon_power_conn (Some t) = Some t).
Proof.
  split; [|split; [|split]].
  - intros val. destruct (canon_mount_list_invariant val) as [Ha Hn].
    now apply canon_mount_list_join.
  - exact canon_connector_fixed.
  - intros s t _ H. exact (canon_power_conn_fixed (Some s) t H).
  - simpl. intros t H. repeat destruct H as [<- | H]; try reflexivity. elim H.
Qed.

(** C9 as stated fails for the power connector: a hyphen before a tab goes
    and leaves the tab at the front, which the next run strips. *)
Lemma power_conn_not_idempotent :
  let x := "-" ++ TAB ++ "XT60" in
  _canon_power_conn (Some x) = Some (TAB ++ "XT60")
  /\ _canon_power_conn (_canon_power_conn (Some x)) = Some "XT60"
  /\ _canon_power_conn (_canon_power_conn (Some x)) <> _canon_power_conn (Some x).
Proof. vm_compute. repeat split. discriminate. Qed.

(** ** Joins on the RF connector *)

Lemma in_merge {A B K} (eqb : K -> K -> bool) (kl : A -> K) (kr : B -> K)
    (l : list A) (r : list B) (a : A) (b : B) :
  In (a, b) (merge eqb kl kr l r) <-> In a l /\ In b r /\ eqb (kl a) (kr b) = true.
Proof.
  unfold merge. rewrite in_flat_map. split.
  - intros [x [Hx H]]. apply in_map_iff in H. destruct H as [y [[= -> ->] Hy]].
    apply filter_In in Hy. tauto.
  - intros (Ha & Hb & E). exists a. split; [exact Ha|].
    apply in_map. apply filter_In. tauto.
Qed.

Lemma merge_nil_r {A B K} (eqb : K -> K -> bool) (kl : A -> K) (kr : B -> K)
    (l : list A) : merge eqb kl kr l [] = [].
Proof. unfold merge. induction l as [|a l IH]; [reflexivity | exact IH]. Qed.

Lemma key_eqb_some (s : string) (k : option string) :
  key_eqb (Some s) k = true <-> k = Some s.
Proof.
  destruct k as [y|]; simpl; [|split; discriminate].
  rewrite String.eqb_eq. split; [now intros -> | now intros [= ->]].
Qed.

Lemma key_eqb_sym (a b : option string) : key_eqb a b = key_eqb b a.
Proof. destruct a, b; simpl; auto using String.eqb_sym. Qed.

Lemma rf_unmatched_is_null (s : string) :
  rf_unmatched s = true -> _canon_connector (Some s) = None.
Proof.
  unfold rf_unmatched, RF_TESTS, _canon_connector. cbn [forallb].
  rewrite !andb_true_iff, !negb_true_iff.
  intros (E1 & E2 & E3 & E4 & E5 & E6 & E7 & E8 & E9 & E10 & E11 & _).
  now rewrite E1, E2, E3, E4, E5, E6, E7, E8, E9, E10, E11.
Qed.

Lemma compat_vtx_antenna_rows (vtxs ants : list part) :
  rows (compat_vtx_antenna vtxs ants)
  = map vtx_antenna_row (vtx_antenna_pairs vtxs ants).
Proof.
  unfold compat_vtx_antenna, vtx_antenna_pairs.
  destruct vtxs as [|v vtxs]; [reflexivity|].
  destruct ants as [|a ants]; [|reflexivity].
  simpl filter. now rewrite merge_nil_r.
Qed.

Lemma filter_andb {A} (p q : A -> bool) (l : list A) :
  filter p (filter q l) = filter (fun a => q a && p a) l.
Proof.
  induction l as [|a l IH]; [reflexivity|]. simpl.
  destruct (q a); simpl; [destruct (p a); now rewrite IH | exact IH].
Qed.

(** C7, as the code has it: an ASCII connector text that matches no known
    token has a null canonical form.  The vtx - antenna frame has, VTX by
    VTX, one PASS row for every antenna that passes the use-or-band gate and
    has the key of the VTX, the key being the canonical form or else the
    text as written.  So the key of a record with such a text is the text
    itself, and the record is paired with exactly the records on the other
    side whose key is that same text. *)
Theorem unmatched_rf_text_joins_on_raw_text (vtxs ants : list part) :
  (forall s, isascii s = true -> rf_unmatched s = true ->
             _canon_connector (Some s) = None)
  /\ rows (compat_vtx_antenna vtxs ants)
     = flat_map (fun v =>
         map (fun a => (ids v a ++ [cell_of_opt (vtx_conn v); CStr "PASS";
                                    CStr "RF connector matches"])%list)
             (filter (fun a => ant_gate a && key_eqb (vtx_conn v) (ant_conn a)) ants))
         vtxs
  /\ (forall v s,
        isascii s = true -> str v vtx_ant_conn = Some s -> rf_unmatched s = true ->
        str v vtx_ant_conn_eff = _canon_connector (str v vtx_ant_conn) ->
        vtx_conn v = Some s
        /\ forall a, ant_gate a && key_eqb (vtx_conn v) (ant_conn a) = true
                     <-> ant_gate a = true /\ ant_conn a = Some s)
  /\ (forall a s,
        isascii s = true -> str a antenna_conn = Some s -> rf_unmatched s = true ->
        str a antenna_conn_eff = _canon_connector (str a antenna_conn) ->
        ant_conn a = Some s
        /\ forall v, key_eqb (vtx_conn v) (ant_conn a) = true <-> vtx_conn v = Some s).
Proof.
  split; [intros s _; apply rf_unmatched_is_null|]. split; [|split].
  - rewrite compat_vtx_antenna_rows. unfold vtx_antenna_pairs, merge.
    rewrite map_flat_map. apply flat_map_ext_all. intros v.
    rewrite map_map, filter_andb. reflexivity.
  - intros v s _ Hraw Hun Heff.
    assert (Hk : vtx_conn v = Some s).
    { unfold vtx_conn. rewrite Heff, Hraw, (rf_unmatched_is_null s Hun). reflexivity. }
    split; [exact Hk|]. intros a. rewrite andb_true_iff, Hk, key_eqb_some. tauto.
  - intros a s _ Hraw Hun Heff.
    assert (Hk : ant_conn a = Some s).
    { unfold ant_conn. rewrite Heff, Hraw, (rf_unmatched_is_null s Hun). reflexivity. }
    split; [exact Hk|]. intros v. rewrite Hk, key_eqb_sym, key_eqb_some. tauto.
Qed.

(** C7 as stated fails: "BNC" matches no known token, yet a VTX and an FPV
    antenna that both say "BNC" are joined on that text and give a row. *)
Lemma unmatched_rf_text_still_joins :
  let v := vtx_with "BNC" in
  let a := antenna_with "BNC" nan in
  rf_unmatched "BNC" = true
  /\ str v vtx_ant_conn_eff = None /\ str a antenna_conn_eff = None
  /\ rows (compat_vtx_antenna [v] [a])
     = [[CStr "VTX-1"; CStr "vtx"; CStr "ANT-1"; CStr "antenna"; CStr "BNC";
         CStr "PASS"; CStr "RF connector matches"]]
  /\ rows (compat_vtx_antenna [v] [a]) <> [].
Proof. vm_compute. repeat split. discriminate. Qed.

(** ** The frames of [build_compat] *)

Lemma frame_ok_empty (cols pre : list string) :
  cols = (pre ++ ["status"; "reason"])%list -> frame_ok (empty_frame cols).
Proof. intros H. split; [now exists pre | constructor]. Qed.

Lemma frame_ok_map {A} (cols pre : list string) (f : A -> list cell) (j : list A) :
  cols = (pre ++ ["status"; "reason"])%list ->
  (forall a, row_ok cols (f a)) ->
  frame_ok {| columns := cols; rows := map f j |}.
Proof.
  intros H Hf. split; [now exists pre|]. simpl.
  apply Forall_forall. intros r Hr. apply in_map_iff in Hr.
  destruct Hr as [a [<- _]]. apply Hf.
Qed.

Lemma status_in (b : bool) (x y : string) :
  In x STATUSES -> In y STATUSES -> In (if b then x else y) STATUSES.
Proof. now destruct b. Qed.

Lemma eval_basic_status (r : part * part) : In (fst (_eval_basic r)) STATUSES.
Proof.
  destruct r as [e m]. unfold _eval_basic.
  destruct (_s_overlap _ _ _ _) as [[|]|];
    repeat match goal with |- context [if ?b then _ else _] => destruct b end;
    simpl; tauto.
Qed.

Lemma eval_head_status (h : float) (r : part * part) :
  In (fst (_eval_head h r)) STATUSES.
Proof.
  destruct r as [e m]. unfold _eval_head.
  destruct (_ || _); [simpl; tauto|].
  destruct (_s_overlap _ _ _ _) as [[|]|]; [|simpl; tauto..].
  destruct (_ <=? _)%float; simpl; tauto.
Qed.

Lemma hub_verdict_status (m p : part) : In (fst (hub_verdict m p)) STATUSES.
Proof.
  unfold hub_verdict.
  repeat match goal with |- context [if ?b then _ else _] => destruct b end;
    simpl; tauto.
Qed.

(** A row of four identifying cells, some data cells and the two last
    cells. *)
Ltac row_ok_tac :=
  unfold row_ok, status_cell, ids, esc_motor_cells; cbn [List.length app rev nth_error fst snd];
  split; [reflexivity | eexists; split; [reflexivity|]];
  repeat apply status_in; simpl; tauto.

Ltac frame_ok_tac pre :=
  first [ apply (frame_ok_empty _ pre); reflexivity
        | apply (frame_ok_map _ pre); [reflexivity | intros [a b]; row_ok_tac] ].

(** The columns of a rule are the expected ones and its frame is well
    formed, in the filled branch and in the empty one. *)
Ltac rule_ok_tac :=
  cbv zeta;
  match goal with
  | |- columns _ = ?cols /\ _ =>
      let pre := eval cbn [removelast] in (removelast (removelast cols)) in
      match goal with
      | |- context [columns (if ?c then _ else _)] =>
          destruct c; (split; [reflexivity | frame_ok_tac pre])
      end
  end.

Lemma compat_frame_prop_ok (frames props : list part) :
  columns (compat_frame_prop frames props)
  = ["frame_sku"; "frame_name"; "prop_sku"; "prop_name";
     "frame_max_prop_in"; "prop_diameter_in"; "status"; "reason"]
  /\ frame_ok (compat_frame_prop frames props).
Proof. unfold compat_frame_prop. rule_ok_tac. Qed.

Lemma mount_rule_ok (ls rs : list part) (lc rc : str_col) (c1 c2 c3 c4 why : string) :
  columns (mount_rule ls lc rs rc [c1; c2; c3; c4; "status"; "reason"]
                      [c1; c2; c3; c4; "status"; "reason"] why)
  = [c1; c2; c3; c4; "status"; "reason"]
  /\ frame_ok (mount_rule ls lc rs rc [c1; c2; c3; c4; "status"; "reason"]
                          [c1; c2; c3; c4; "status"; "reason"] why).
Proof. unfold mount_rule. rule_ok_tac. Qed.

Lemma compat_battery_esc_ok (bats escs : list part) :
  columns (compat_battery_esc bats escs)
  = ["battery_sku"; "battery_name"; "esc_sku"; "esc_name"; "battery_connector_eff";
     "esc_cells_min"; "esc_cells_max"; "cell_count"; "status"; "reason"]
  /\ frame_ok (compat_battery_esc bats escs).
Proof. unfold compat_battery_esc. rule_ok_tac. Qed.

Lemma compat_esc_motor_pair_ok (h : float) (escs motors : list part) :
  (columns (fst (compat_esc_motor_pair h escs motors))
   = ["esc_sku"; "esc_name"; "motor_sku"; "motor_name"; "esc_continuous_current_a";
      "max_current_a"; "esc_cells_min"; "esc_cells_max"; "cells_min"; "cells_max";
      "status"; "reason"]
   /\ frame_ok (fst (compat_esc_motor_pair h escs motors)))
  /\ (columns (snd (compat_esc_motor_pair h escs motors))
      = ["esc_sku"; "esc_name"; "motor_sku"; "motor_name"; "esc_continuous_current_a";
         "max_current_a"; "esc_cells_min"; "esc_cells_max"; "cells_min"; "cells_max";
         "status"; "reason"]
      /\ frame_ok (snd (compat_esc_motor_pair h escs motors))).
Proof.
  unfold compat_esc_motor_pair, esc_motor_rows. cbv zeta.
  destruct (negb _); cbn [fst snd]; (split; (split; [reflexivity|])).
  - apply (frame_ok_map _ ["esc_sku"; "esc_name"; "motor_sku"; "motor_name";
      "esc_continuous_current_a"; "max_current_a"; "esc_cells_min"; "esc_cells_max";
      "cells_min"; "cells_max"]); [reflexivity|].
    intros r. unfold row_ok, status_cell, ids, esc_motor_cells.
    cbn [List.length app rev nth_error]. split; [reflexivity|].
    eexists; split; [reflexivity | apply eval_basic_status].
  - apply (frame_ok_map _ ["esc_sku"; "esc_name"; "motor_sku"; "motor_name";
      "esc_continuous_current_a"; "max_current_a"; "esc_cells_min"; "esc_cells_max";
      "cells_min"; "cells_max"]); [reflexivity|].
    intros r. unfold row_ok, status_cell, ids, esc_motor_cells.
    cbn [List.length app rev nth_error]. split; [reflexivity|].
    eexists; split; [reflexivity | apply eval_head_status].
  - eapply frame_ok_empty with (pre := [_; _; _; _; _; _; _; _; _; _]). reflexivity.
  - eapply frame_ok_empty with (pre := [_; _; _; _; _; _; _; _; _; _]). reflexivity.
Qed.

Lemma compat_vtx_camera_ok (vtxs cams : list part) :
  columns (compat_vtx_camera vtxs cams)
  = ["vtx_sku"; "vtx_name"; "camera_sku"; "camera_name"; "sys"; "status"; "reason"]
  /\ frame_ok (compat_vtx_camera vtxs cams).
Proof. unfold compat_vtx_camera. rule_ok_tac. Qed.

Lemma compat_vtx_antenna_ok (vtxs ants : list part) :
  columns (compat_vtx_antenna vtxs ants)
  = ["vtx_sku"; "vtx_name"; "antenna_sku"; "antenna_name"; "conn"; "status"; "reason"]
  /\ frame_ok (compat_vtx_antenna vtxs ants).
Proof. unfold compat_vtx_antenna, vtx_antenna_row. rule_ok_tac. Qed.

Lemma compat_fc_vtx_vbat_ok (fcs vtxs : list part) :
  columns (compat_fc_vtx_vbat fcs vtxs)
  = ["fc_sku"; "fc_name"; "vtx_sku"; "vtx_name"; "fc_vbat_min_s"; "fc_vbat_max_s";
     "vtx_input_s_min"; "vtx_input_s_max"; "status"; "reason"]
  /\ frame_ok (compat_fc_vtx_vbat fcs vtxs).
Proof.
  unfold compat_fc_vtx_vbat. cbv zeta.
  destruct (negb _); (split; [reflexivity|]).
  - apply (frame_ok_map _ ["fc_sku"; "fc_name"; "vtx_sku"; "vtx_name"; "fc_vbat_min_s";
      "fc_vbat_max_s"; "vtx_input_s_min"; "vtx_input_s_max"]); [reflexivity|].
    intros [f v]. unfold row_ok, status_cell, ids.
    cbn [List.length app rev nth_error]. split; [reflexivity|].
    eexists; split; [reflexivity|].
    destruct (_s_overlap _ _ _ _) as [[|]|]; simpl; tauto.
  - eapply frame_ok_empty with (pre := [_; _; _; _; _; _; _; _]). reflexivity.
Qed.

Lemma rail_ok (fcs vtxs : list part) (fc_col vtx_col : num_col) (V : Z) :
  columns (_rail fcs vtxs fc_col vtx_col V)
  = ["fc_sku"; "fc_name"; "vtx_sku"; "vtx_name"; num_col_name fc_col;
     num_col_name vtx_col; "status"; "reason"]
  /\ frame_ok (_rail fcs vtxs fc_col vtx_col V).
Proof. unfold _rail. rule_ok_tac. Qed.

Lemma compat_fc_cam_5v_ok (fcs cams : list part) :
  columns (compat_fc_cam_5v fcs cams)
  = ["fc_sku"; "fc_name"; "camera_sku"; "camera_name"; "fc_bec_5v_a";
     "camera_5v_current_a"; "status"; "reason"]
  /\ frame_ok (compat_fc_cam_5v fcs cams).
Proof. unfold compat_fc_cam_5v. rule_ok_tac. Qed.

Lemma cam_accepts_ok (fcs cams : list part) (V : Z) (fc_col : num_col) :
  columns (_cam_accepts fcs cams V fc_col)
  = ["fc_sku"; "fc_name"; "camera_sku"; "camera_name"; "camera_input_v_min";
     "camera_input_v_max"; "status"; "reason"]
  /\ frame_ok (_cam_accepts fcs cams V fc_col).
Proof. unfold _cam_accepts. rule_ok_tac. Qed.

Lemma compat_pigtail_esc_ok (pigtail escs : list part) :
  columns (compat_pigtail_esc pigtail escs)
  = ["pigtail_sku"; "pigtail_name"; "esc_sku"; "esc_name"; "pigtail_connector_eff";
     "status"; "reason"]
  /\ frame_ok (compat_pigtail_esc pigtail escs).
Proof. unfold compat_pigtail_esc. rule_ok_tac. Qed.

Lemma compat_battery_pigtail_ok (pigtail bats : list part) :
  columns (compat_battery_pigtail pigtail bats)
  = ["pigtail_sku"; "pigtail_name"; "battery_sku"; "battery_name";
     "pigtail_connector_eff"; "status"; "reason"]
  /\ frame_ok (compat_battery_pigtail pigtail bats).
Proof. unfold compat_battery_pigtail. rule_ok_tac. Qed.

Lemma compat_cap_esc_ok (caps escs : list part) :
  columns (compat_cap_esc caps escs)
  = ["capacitor_sku"; "capacitor_name"; "esc_sku"; "esc_name"; "capacitor_voltage_v";
     "esc_vmax"; "status"; "reason"]
  /\ frame_ok (compat_cap_esc caps escs).
Proof. unfold compat_cap_esc. rule_ok_tac. Qed.

Lemma compat_motor_prop_hub_ok (motors props : list part) :
  columns (compat_motor_prop_hub motors props)
  = ["motor_sku"; "motor_name"; "prop_sku"; "prop_name"; "shaft_mm"; "motor_hub_eff";
     "prop_hub_eff"; "status"; "reason"]
  /\ frame_ok (compat_motor_prop_hub motors props).
Proof.
  unfold compat_motor_prop_hub. cbv zeta.
  destruct (negb _); (split; [reflexivity|]).
  - apply (frame_ok_map _ ["motor_sku"; "motor_name"; "prop_sku"; "prop_name"; "shaft_mm";
      "motor_hub_eff"; "prop_hub_eff"]); [reflexivity|].
    intros [m p]. unfold row_ok, status_cell, hub_row, ids.
    cbn [List.length app rev nth_error]. split; [reflexivity|].
    eexists; split; [reflexivity | apply hub_verdict_status].
  - eapply frame_ok_empty with (pre := [_; _; _; _; _; _; _]). reflexivity.
Qed.

(** *** The rx - antenna rule and its exception *)

Lemma series_apply_ok {A B} (f : A -> result B) (l : list A) :
  (forall a, In a l -> exists b, f a = Ok b) -> exists bs, series_apply f l = Ok bs.
Proof.
  induction l as [|a l IH]; intros H; [now exists []|].
  destruct (H a (or_introl eq_refl)) as [b Hb].
  destruct IH as [bs Hbs]; [intros x Hx; apply H; now right|].
  exists (b :: bs). simpl. now rewrite Hb, Hbs.
Qed.

Lemma series_apply_raise {A B} (f : A -> result B) (l : list A) (e : exn) :
  series_apply f l = Raise e -> exists a, In a l /\ f a = Raise e.
Proof.
  induction l as [|a l IH]; [discriminate|]. simpl.
  destruct (f a) as [b|e'] eqn:Ha; simpl.
  - destruct (series_apply f l) as [bs|e'] eqn:Hl; simpl; [discriminate|].
    intros [= ->]. destruct (IH eq_refl) as [x [Hx Hfx]]. exists x. auto.
  - intros [= ->]. exists a. auto.
Qed.

(** [bucket] raises on an unparsed text and on nothing else. *)
Lemma bucket_raise (x : cell) (e : exn) :
  bucket x = Raise e <->
  exists s, x = CStr s /\ float_of_str s = None /\ e = ValueError s.
Proof.
  unfold bucket, float_of_cell. destruct x as [|x|s]; simpl.
  - split; [discriminate | intros (s & H & _); discriminate H].
  - split; [|intros (s & H & _); discriminate H].
    destruct (is_nan x); [discriminate|]. simpl.
    repeat match goal with |- context [if ?b then _ else _] => destruct b end;
      discriminate.
  - destruct (float_of_str s) as [y|] eqn:E; simpl.
    + split; [|intros (s' & [= <-] & H & _); congruence].
      repeat match goal with |- context [if ?b then _ else _] => destruct b end;
        discriminate.
    + split; [intros [= <-]; now exists s | intros (s' & [= <-] & _ & ->); reflexivity].
Qed.

Lemma bucket_ok (x : cell) :
  band_parses x = true -> exists b, bucket x = Ok b.
Proof.
  intros H. destruct (bucket x) as [b|e] eqn:E; [now exists b|].
  apply bucket_raise in E. destruct E as (s & -> & Hs & _).
  simpl in H. rewrite Hs in H. discriminate H.
Qed.

Lemma compat_rx_antenna_cases (rxs ants : list part) :
  (exists df, compat_rx_antenna rxs ants = Ok df
              /\ columns df = ["rx_sku"; "rx_name"; "antenna_sku"; "antenna_name";
                               "conn"; "bb"; "status"; "reason"]
              /\ frame_ok df)
  \/ (exists r s, compat_rx_antenna rxs ants = Raise (ValueError s)
                  /\ In r rxs /\ rx_band_ghz r = CStr s /\ float_of_str s = None)
  \/ compat_rx_antenna rxs ants = Raise (ValueError "bb").
Proof.
  unfold compat_rx_antenna. cbv zeta.
  destruct (negb _ && negb _).
  - destruct (series_apply _ (filter _ _)) as [rx_bb|e] eqn:Hrx; simpl.
    + destruct (series_apply _ (dropna_num _ _)) as [an_bb|e] eqn:Han; simpl.
      * destruct (negb (Bool.eqb _ _)); [right; right; reflexivity|].
        left. eexists. split; [reflexivity|]. split; [reflexivity|].
        apply (frame_ok_map _ ["rx_sku"; "rx_name"; "antenna_sku"; "antenna_name";
                               "conn"; "bb"]); [reflexivity|].
        intros [r a]. unfold row_ok, status_cell, ids.
        cbn [List.length app rev nth_error]. split; [reflexivity|].
        eexists; split; [reflexivity | simpl; tauto].
      * apply series_apply_raise in Han. destruct Han as (a & _ & Ha).
        apply bucket_raise in Ha. destruct Ha as (s & H & _). discriminate H.
    + apply series_apply_raise in Hrx. destruct Hrx as (r & Hr & Hb).
      apply bucket_raise in Hb. destruct Hb as (s & Hs1 & Hs2 & ->).
      right. left. exists r, s. repeat split; auto.
      apply filter_In in Hr. destruct Hr as [Hr _].
      unfold dropna_str in Hr. apply filter_In in Hr. apply Hr.
  - left. eexists. split; [reflexivity|]. split; [reflexivity|].
    eapply frame_ok_empty with (pre := [_; _; _; _; _; _]). reflexivity.
Qed.

(** *** build_compat *)

(** Whenever [build_compat] returns, the mapping has every key with the
    columns of [COMPAT_SCHEMA], and every row of every frame carries PASS,
    FAIL or WARN under [status]. *)
Lemma build_compat_ok_frames (parts : list part) (h : float)
    (out : list (string * DataFrame)) :
  build_compat parts h = Ok out ->
  schema_of out = COMPAT_SCHEMA /\ Forall (fun kv => frame_ok (snd kv)) out.
Proof.
  unfold build_compat. cbv zeta.
  destruct (compat_rx_antenna_cases (slice "rx" parts) (slice "antenna" parts))
    as [(df & E & Hc & Hok) | [(r & s & E & _) | E]]; rewrite E; simpl;
    [|discriminate..].
  intros [= <-]. unfold schema_of, COMPAT_SCHEMA. cbn [map fst snd app].
  split.
  - repeat match goal with
           | |- (_ :: _) = (_ :: _) => f_equal
           | |- (_, _) = (_, _) => f_equal
           end;
      first [ reflexivity
            | apply compat_frame_prop_ok | apply mount_rule_ok
            | apply compat_battery_esc_ok | apply compat_esc_motor_pair_ok
            | apply compat_vtx_camera_ok | apply compat_vtx_antenna_ok
            | apply compat_fc_vtx_vbat_ok | apply rail_ok | apply compat_fc_cam_5v_ok
            | apply cam_accepts_ok | exact Hc | apply compat_pigtail_esc_ok
            | apply compat_battery_pigtail_ok | apply compat_cap_esc_ok
            | apply compat_motor_prop_hub_ok ].
  - repeat (apply Forall_cons; [cbn [snd];
      first [ apply compat_frame_prop_ok | apply mount_rule_ok
            | apply compat_battery_esc_ok | apply compat_esc_motor_pair_ok
            | apply compat_vtx_camera_ok | apply compat_vtx_antenna_ok
            | apply compat_fc_vtx_vbat_ok | apply rail_ok | apply compat_fc_cam_5v_ok
            | apply cam_accepts_ok | exact Hok | apply compat_pigtail_esc_ok
            | apply compat_battery_pigtail_ok | apply compat_cap_esc_ok
            | apply compat_motor_prop_hub_ok ] |]).
    apply Forall_nil.
Qed.

(** [build_compat] raises only in the rx - antenna block: out of [bucket],
    on a receiver whose band is a text [float] does not read, or out of
    [merge], on the key [bb]. *)
Lemma build_compat_raise (parts : list part) (h : float) (e : exn) :
  build_compat parts h = Raise e ->
  (exists r s, In r parts /\ type r = "rx" /\ rx_band_ghz r = CStr s
               /\ float_of_str s = None /\ e = ValueError s)
  \/ e = ValueError "bb".
Proof.
  unfold build_compat. cbv zeta.
  destruct (compat_rx_antenna_cases (slice "rx" parts) (slice "antenna" parts))
    as [(df & E & _) | [(r & s & E & Hr & Hc & Hs) | E]]; rewrite E; simpl;
    [discriminate | |].
  - intros [= <-]. left. exists r, s. unfold slice in Hr. apply filter_In in Hr.
    destruct Hr as [Hr Ht]. apply String.eqb_eq in Ht. auto.
  - intros [= <-]. now right.
Qed.

(** On a frame that has every column, [build_compat_frame] is
    [build_compat] on its rows; whatever it returns, [build_compat] returns
    on the rows. *)
Lemma build_compat_frame_full (df : parts_frame) (h : float) :
  has_columns SELECTED_EARLY df = true -> has_columns SELECTED_LATE df = true ->
  build_compat_frame df h = build_compat (records df) h.
Proof.
  intros He Hl. unfold build_compat_frame. rewrite He, Hl. cbn [negb].
  unfold build_compat. cbv zeta.
  destruct (compat_rx_antenna _ _); reflexivity.
Qed.

Lemma build_compat_frame_ok (df : parts_frame) (h : float)
    (out : list (string * DataFrame)) :
  build_compat_frame df h = Ok out -> build_compat (records df) h = Ok out.
Proof.
  unfold build_compat_frame.
  destruct (has_columns SELECTED_EARLY df); [|discriminate]. cbn [negb].
  destruct (compat_rx_antenna _ _); [|discriminate]. cbn [bind].
  destruct (has_columns SELECTED_LATE df); [|discriminate]. auto.
Qed.

(** C1: on a receiver whose [rx_band_ghz] was read as the text "2.4GHz" (the
    column is not among those [load_parts] makes float) and an antenna on the
    same connector, [bucket] calls [float] on the text and [build_compat]
    raises [ValueError] instead of leaving the record out or giving a
    status. *)
Theorem build_compat_raises_on_unparsed_band (h : float) :
  float_of_str "2.4GHz" = None
  /\ bucket (CStr "2.4GHz") = Raise (ValueError "2.4GHz")
  /\ compat_rx_antenna (slice "rx" parts_unparsed_band)
                       (slice "antenna" parts_unparsed_band)
     = Raise (ValueError "2.4GHz")
  /\ build_compat parts_unparsed_band h = Raise (ValueError "2.4GHz").
Proof.
  repeat split; vm_compute; reflexivity.
Qed.

(** C2: whatever frame [build_compat] is given, the mapping it returns has
    every key of the rule set, each frame with its columns in order and
    [status], [reason] last; so it is on the frame with every column and no
    row, where every frame of the mapping is empty.  But it does not return
    on every frame: on the frame [load_parts] gives when it has no file
    (columns sku, type and name, no row) it raises [KeyError]; on the parts
    of C1 it raises [ValueError] out of [bucket]; and on a receiver with a
    band bucket beside an antenna without one it raises [ValueError] out of
    [merge], whatever the columns of the frame. *)
Theorem build_compat_schema (df : parts_frame) (h : float) :
  (forall out, build_compat_frame df h = Ok out ->
     schema_of out = COMPAT_SCHEMA /\ Forall (fun kv => frame_ok (snd kv)) out)
  /\ (forall out, build_compat (records df) h = Ok out ->
        schema_of out = COMPAT_SCHEMA /\ Forall (fun kv => frame_ok (snd kv)) out)
  /\ (has_columns (SELECTED_EARLY ++ SELECTED_LATE) df = true ->
      build_compat_frame df h = build_compat (records df) h)
  /\ (exists out, build_compat_frame frame_no_row h = Ok out
                  /\ schema_of out = COMPAT_SCHEMA
                  /\ Forall (fun kv => rows (snd kv) = []) out)
  /\ build_compat_frame frame_no_file h = Raise KeyError
  /\ build_compat parts_unparsed_band h = Raise (ValueError "2.4GHz")
  /\ build_compat parts_band_clash h = Raise (ValueError "bb")
  /\ (forall labels, build_compat_frame {| labels := labels;
                                           records := parts_band_clash |} h
                     = Raise KeyError
                     \/ build_compat_frame {| labels := labels;
                                              records := parts_band_clash |} h
                        = Raise (ValueError "bb")).
Proof.
  split; [|split; [|split; [|split; [|split; [|split; [|split]]]]]].
  - intros out H. apply build_compat_frame_ok in H.
    now apply build_compat_ok_frames in H.
  - apply build_compat_ok_frames.
  - unfold has_columns. rewrite forallb_app, andb_true_iff. intros [He Hl].
    now apply build_compat_frame_full.
  - eexists. split; [reflexivity|]. split; [reflexivity|]. repeat constructor.
  - reflexivity.
  - vm_compute. reflexivity.
  - vm_compute. reflexivity.
  - intros labels. unfold build_compat_frame.
    destruct (has_columns SELECTED_EARLY _); [|now left]. cbn [negb records].
    assert (E : compat_rx_antenna (slice "rx" parts_band_clash)
                                  (slice "antenna" parts_band_clash)
                = Raise (ValueError "bb")) by (vm_compute; reflexivity).
    rewrite E. now right.
Qed.

(** ** Binary64: rounding a product is monotone *)

Section Binary64Facts.
Import Binary64.
Local Open Scope Z_scope.

Lemma digits2_size (p : positive) : digits2_pos p = Pos.size p.
Proof. induction p; simpl; congruence. Qed.

Lemma digits2_bounds (p : positive) :
  2 ^ (Zpos (digits2_pos p) - 1) <= Zpos p < 2 ^ Zpos (digits2_pos p).
Proof.
  rewrite digits2_size.
  pose proof (Pos.size_gt p) as Hgt. pose proof (Pos.size_le p) as Hle.
  apply Pos2Z.pos_lt_pos in Hgt. apply Pos2Z.pos_le_pos in Hle.
  rewrite Pos2Z.inj_pow in Hgt, Hle.
  split; [|exact Hgt].
  replace (Zpos (Pos.size p)) with (Zpos (Pos.size p) - 1 + 1) in Hle by lia.
  rewrite Z.pow_add_r in Hle by lia. change (2 ^ 1) with 2 in Hle.
  change (Zpos p~0) with (2 * Zpos p) in Hle. lia.
Qed.

Lemma iter_pos_nat {A} (f : A -> A) (p : positive) (x : A) :
  iter_pos f p x = Nat.iter (Pos.to_nat p) f x.
Proof.
  revert x. induction p as [p IH | p IH |]; intros x; cbn [iter_pos].
  - rewrite !IH, Pos2Nat.inj_xI.
    replace (S (2 * Pos.to_nat p))%nat with (Pos.to_nat p + S (Pos.to_nat p))%nat by lia.
    rewrite Nat.iter_add, Nat.iter_succ_r. reflexivity.
  - rewrite !IH, Pos2Nat.inj_xO.
    replace (2 * Pos.to_nat p)%nat with (Pos.to_nat p + Pos.to_nat p)%nat by lia.
    rewrite Nat.iter_add. reflexivity.
  - reflexivity.
Qed.

Lemma shr_1_nonneg (m : Z) (r s : bool) :
  0 <= m ->
  shr_1 (Build_shr_record m r s) = Build_shr_record (m / 2) (Z.odd m) (r || s).
Proof.
  intros Hm. destruct m as [|p|p]; [reflexivity | | lia].
  destruct p as [p|p|]; simpl.
  - f_equal. change (Zpos p~1) with (2 * Zpos p + 1).
    apply Z.div_unique with 1; lia.
  - f_equal. change (Zpos p~0) with (2 * Zpos p).
    apply Z.div_unique with 0; lia.
  - reflexivity.
Qed.

Lemma shr_iter_inv (P : Z) (k : nat) :
  0 <= P -> shr_inv P k (Nat.iter k shr_1 (Build_shr_record P false false)).
Proof.
  intros HP. induction k as [|k IH].
  - unfold shr_inv; simpl. rewrite Z.div_1_r. auto.
  - simpl Nat.iter. destruct (Nat.iter k shr_1 _) as [m r s].
    unfold shr_inv in IH. cbn [shr_m shr_r shr_s] in IH.
    destruct IH as (Hm & Hq & Hrs).
    rewrite shr_1_nonneg by exact Hm.
    unfold shr_inv. cbn [shr_m shr_r shr_s].
    assert (Hpow : 2 ^ Z.of_nat (S k) = 2 * 2 ^ Z.of_nat k).
    { rewrite Nat2Z.inj_succ, Z.pow_succ_r by lia. reflexivity. }
    assert (Hk : 0 < 2 ^ Z.of_nat k) by (apply Z.pow_pos_nonneg; lia).
    pose proof (Z.div_mod m 2 ltac:(lia)) as Hdm.
    pose proof (Z.mod_pos_bound m 2 ltac:(lia)) as Hb.
    pose proof (Z.div_mod P (2 ^ Z.of_nat k) ltac:(lia)) as HdP.
    pose proof (Z.mod_pos_bound P (2 ^ Z.of_nat k) ltac:(lia)) as HbP.
    rewrite <- Hq in HdP.
    split; [apply Z.div_pos; lia|]. split.
    + rewrite Hpow, Hq, Z.div_div by lia. f_equal. lia.
    + rewrite Hpow.
      assert (Hodd : Z.odd m = true <-> m mod 2 = 1).
      { rewrite Zmod_odd. destruct (Z.odd m); split; intros; try lia; auto; discriminate. }
      destruct k as [|k'].
      * destruct Hrs as [-> ->]. change (Z.of_nat 0) with 0 in *.
        rewrite Z.pow_0_r in *. rewrite Hodd. simpl orb.
        split; split; try discriminate; try lia.
      * destruct Hrs as [Hr Hs].
        assert (Hpow' : 2 ^ Z.of_nat (S k') = 2 * 2 ^ Z.of_nat k').
        { rewrite Nat2Z.inj_succ, Z.pow_succ_r by lia. reflexivity. }
        assert (Hk' : 0 < 2 ^ Z.of_nat k') by (apply Z.pow_pos_nonneg; lia).
        rewrite Hodd, orb_true_iff, Hr, Hs.
        rewrite Hpow' in *. clear Hr Hs Hodd Hpow Hpow' Hq.
        generalize dependent (2 ^ Z.of_nat k'). intros X HX HdP HbP.
        generalize dependent (m / 2). generalize dependent (m mod 2).
        intros b Hb h Hdm. subst m.
        assert (Hb' : b = 0 \/ b = 1) by lia.
        destruct Hb' as [-> | ->]; split; split; intros; nia.
Qed.

Lemma rne_cases (P n : Z) :
  0 <= P -> 0 <= n ->
  let q := P / 2 ^ n in
  let r := P - q * 2 ^ n in
  0 <= r < 2 ^ n /\
  ((2 * r < 2 ^ n /\ rne P n = q)
   \/ (2 * r > 2 ^ n /\ rne P n = q + 1)
   \/ (2 * r = 2 ^ n /\ Z.even q = true /\ rne P n = q)
   \/ (2 * r = 2 ^ n /\ Z.even q = false /\ rne P n = q + 1)).
Proof.
  intros HP Hn q r.
  assert (Hpos : 0 < 2 ^ n) by (apply Z.pow_pos_nonneg; lia).
  pose proof (Z.div_mod P (2 ^ n) ltac:(lia)) as Hdm.
  pose proof (Z.mod_pos_bound P (2 ^ n) Hpos) as Hb.
  assert (Hr : r = P mod 2 ^ n) by (unfold r, q; lia).
  split; [lia|]. unfold rne. fold q. rewrite <- Hr.
  destruct (Z.compare_spec (2 * r) (2 ^ n)) as [E | E | E].
  - destruct (Z.even q) eqn:Ev; auto 6.
  - auto.
  - right; left. split; [lia | reflexivity].
Qed.

(** What [shr] then [round_nearest_even] compute from an exact integer. *)
Lemma shr_round (P E n : Z) :
  0 <= P -> 0 <= n ->
  let mrs := fst (shr (Build_shr_record P false false) E n) in
  round_nearest_even (shr_m mrs) (loc_of_shr_record mrs) = rne P n
  /\ snd (shr (Build_shr_record P false false) E n) = E + n.
Proof.
  intros HP Hn. destruct n as [|p|p]; [| |lia].
  - simpl. split; [|lia]. unfold rne. rewrite Z.pow_0_r, Z.mod_1_r, Z.div_1_r. reflexivity.
  - cbn [shr fst snd]. split; [|reflexivity].
    rewrite iter_pos_nat.
    pose proof (shr_iter_inv P (Pos.to_nat p) HP) as Hinv.
    destruct (Nat.iter _ _ _) as [m r s]. unfold shr_inv in Hinv.
    cbn [shr_m shr_r shr_s] in *.
    destruct (Pos.to_nat p) as [|k'] eqn:Hk; [pose proof (Pos2Nat.is_pos p); lia|].
    assert (HZ : Z.of_nat (S k') = Zpos p) by (rewrite <- Hk; apply positive_nat_Z).
    rewrite HZ in Hinv. destruct Hinv as (Hm & Hq & Hr & Hs).
    assert (Hpow : 2 ^ Zpos p = 2 * 2 ^ Z.of_nat k').
    { rewrite <- HZ, Nat2Z.inj_succ, Z.pow_succ_r by lia. reflexivity. }
    destruct (rne_cases P (Zpos p) HP ltac:(lia)) as [Hb Hc].
    rewrite <- Hq in Hb, Hc. rewrite Hpow in *.
    destruct r, s; cbn [loc_of_shr_record round_nearest_even].
    + destruct Hr as [Hr _], Hs as [Hs _]. specialize (Hr eq_refl). specialize (Hs eq_refl).
      destruct Hc as [[? ->] | [[? ->] | [[? [? ->]] | [? [? ->]]]]]; lia.
    + destruct Hr as [Hr _]. specialize (Hr eq_refl).
      assert (Hs' : ~ (P - m * (2 * 2 ^ Z.of_nat k') <> 0
                       /\ P - m * (2 * 2 ^ Z.of_nat k') <> 2 ^ Z.of_nat k')).
      { intros H. apply Hs in H. discriminate H. }
      destruct Hc as [[? ->] | [[? ->] | [[? [Ev ->]] | [? [Ev ->]]]]]; rewrite ?Ev; lia.
    + assert (Hr' : ~ 2 ^ Z.of_nat k' <= P - m * (2 * 2 ^ Z.of_nat k')).
      { intros H. apply Hr in H. discriminate H. }
      destruct Hc as [[? ->] | [[? ->] | [[? [? ->]] | [? [? ->]]]]]; lia.
    + assert (Hr' : ~ 2 ^ Z.of_nat k' <= P - m * (2 * 2 ^ Z.of_nat k')).
      { intros H. apply Hr in H. discriminate H. }
      destruct Hc as [[? ->] | [[? ->] | [[? [? ->]] | [? [? ->]]]]]; lia.
Qed.

(** Rounding to nearest is monotone, also across two scales. *)
Lemma rne_monotone (P1 n1 P2 n2 : Z) :
  0 <= P1 -> 0 <= P2 -> 0 <= n1 -> 0 <= n2 ->
  P1 * 2 ^ n2 <= P2 * 2 ^ n1 ->
  rne P1 n1 <= rne P2 n2.
Proof.
  intros HP1 HP2 Hn1 Hn2 Hle.
  destruct (rne_cases P1 n1 HP1 Hn1) as [Hb1 Hc1].
  destruct (rne_cases P2 n2 HP2 Hn2) as [Hb2 Hc2].
  assert (HA : 0 < 2 ^ n1) by (apply Z.pow_pos_nonneg; lia).
  assert (HB : 0 < 2 ^ n2) by (apply Z.pow_pos_nonneg; lia).
  set (A := 2 ^ n1) in *. set (B := 2 ^ n2) in *. clearbody A B.
  cbv zeta in Hb1, Hc1, Hb2, Hc2.
  set (q1 := P1 / A) in *. set (q2 := P2 / B) in *. clearbody q1 q2.
  assert (Hq : q1 <= q2).
  { destruct (Z_le_gt_dec q1 q2) as [H | H]; [exact H | exfalso].
    assert (H1 : 0 <= (P1 - q1 * A) * B) by (apply Z.mul_nonneg_nonneg; lia).
    assert (H2 : 0 < (q2 * B + B - P2) * A) by (apply Z.mul_pos_pos; lia).
    assert (H3 : 0 <= (q1 - q2 - 1) * (A * B)).
    { apply Z.mul_nonneg_nonneg; [lia | apply Z.mul_nonneg_nonneg; lia]. }
    lia. }
  assert (Hq' : q1 < q2 \/ q1 = q2) by lia.
  destruct Hq' as [Hlt | ->].
  - destruct Hc1 as [[? ->] | [[? ->] | [[? [? ->]] | [? [? ->]]]]];
      destruct Hc2 as [[? ->] | [[? ->] | [[? [? ->]] | [? [? ->]]]]]; lia.
  - destruct Hc1 as [[? ->] | [[? ->] | [[? [? ->]] | [? [Ev1 ->]]]]];
      destruct Hc2 as [[? ->] | [[? ->] | [[? [Ev2 ->]] | [? [? ->]]]]];
      try lia; try congruence; nia.
Qed.

Lemma fexp64 (x : Z) : fexp prec emax x = Z.max (x - 53) (-1074).
Proof. reflexivity. Qed.

Lemma rne_bounds (P : positive) (E : Z) :
  let d := Zpos (digits2_pos P) in
  let e' := fexp prec emax (d + E) in
  let m1 := rne (Zpos P) (e' - E) in
  0 <= e' - E ->
  0 <= m1 <= 2 ^ 53 /\ (-1074 < e' -> 2 ^ 52 <= m1).
Proof.
  intros d e' m1 Hn.
  pose proof (digits2_bounds P) as Hd. fold d in Hd.
  assert (He : e' = Z.max (d + E - 53) (-1074)) by apply fexp64.
  destruct (rne_cases (Zpos P) (e' - E) ltac:(lia) Hn) as [Hb Hc].
  fold m1 in Hc.
  set (n := e' - E) in *.
  assert (Hpn : 0 < 2 ^ n) by (apply Z.pow_pos_nonneg; lia).
  assert (Hq0 : 0 <= Zpos P / 2 ^ n) by (apply Z.div_pos; lia).
  assert (Hq1 : Zpos P / 2 ^ n < 2 ^ 53).
  { apply Z.div_lt_upper_bound; [exact Hpn|].
    rewrite <- Z.pow_add_r by lia.
    apply Z.lt_le_trans with (2 ^ d); [apply Hd|].
    apply Z.pow_le_mono_r; lia. }
  split.
  - destruct Hc as [[? ->] | [[? ->] | [[? [? ->]] | [? [? ->]]]]]; lia.
  - intros Hnorm.
    assert (Hq2 : 2 ^ 52 <= Zpos P / 2 ^ n).
    { apply Z.div_le_lower_bound; [exact Hpn|].
      rewrite <- Z.pow_add_r by lia.
      replace (n + 52) with (d - 1) by lia. apply Hd. }
    destruct Hc as [[? ->] | [[? ->] | [[? [? ->]] | [? [? ->]]]]]; lia.
Qed.

Lemma binary_round_aux_spec (s : bool) (P : positive) (E : Z) :
  let e' := fexp prec emax (Zpos (digits2_pos P) + E) in
  0 <= e' - E ->
  binary_round_aux prec emax s (Zpos P) E loc_Exact
  = rounded s (rne (Zpos P) (e' - E)) e'.
Proof.
  intros e' Hn.
  destruct (rne_bounds P E Hn) as [Hm1 _]. fold e' in Hm1.
  assert (He : -1074 <= e') by (unfold e'; rewrite fexp64; lia).
  unfold binary_round_aux, shr_fexp at 1. cbn [Zdigits2 shr_record_of_loc]. fold e'.
  pose proof (shr_round (Zpos P) E (e' - E) ltac:(lia) Hn) as [Hr He'].
  destruct (shr _ E (e' - E)) as [mrs1 e1]. cbn [fst snd] in Hr, He'.
  rewrite Hr. replace e1 with e' by lia. clear Hr He' mrs1 e1.
  set (m1 := rne (Zpos P) (e' - E)) in *.
  unfold rounded, shr_fexp. cbn [shr_record_of_loc].
  destruct (Z.eqb_spec m1 0) as [-> | Hnz].
  - cbn [Zdigits2]. rewrite fexp64.
    destruct (Z.max (0 + e' - 53) (-1074) - e') eqn:Hs; try lia; reflexivity.
  - destruct m1 as [|p1|p1]; try lia. cbn [Zdigits2].
    pose proof (digits2_bounds p1) as Hd1.
    destruct (Z.eqb_spec (Zpos p1) (2 ^ 53)) as [E53 | N53].
    + assert (p1 = (2 ^ 53)%positive) by (apply Pos2Z.inj; rewrite E53; reflexivity).
      subst p1. change (Zpos (digits2_pos (2 ^ 53))) with 54. rewrite fexp64.
      replace (Z.max (54 + e' - 53) (-1074) - e') with 1 by lia.
      cbn [shr iter_pos shr_1 shr_m]. reflexivity.
    + assert (Hd53 : Zpos (digits2_pos p1) <= 53).
      { destruct (Z_le_gt_dec (Zpos (digits2_pos p1)) 53) as [H | H]; [exact H | exfalso].
        assert (2 ^ 53 <= 2 ^ (Zpos (digits2_pos p1) - 1)) by (apply Z.pow_le_mono_r; lia).
        lia. }
      rewrite fexp64.
      destruct (Z.max (Zpos (digits2_pos p1) + e' - 53) (-1074) - e') eqn:Hs; try lia;
        cbn [shr shr_m]; reflexivity.
Qed.

Lemma lex_le_trans (a b c : Z * Z * Z) : lex_le a b -> lex_le b c -> lex_le a c.
Proof.
  destruct a as [[a1 a2] a3], b as [[b1 b2] b3], c as [[c1 c2] c3]. unfold lex_le. lia.
Qed.

Lemma SFleb_rank (x y : spec_float) :
  SFleb x y = true <-> not_nan x /\ not_nan y /\ lex_le (sf_rank x) (sf_rank y).
Proof.
  unfold SFleb, SFcompare.
  destruct x as [sx | sx | | sx mx ex], y as [sy | sy | | sy my ey];
    try destruct sx; try destruct sy; simpl; try (intuition (try discriminate; lia)).
  - change (PosDef.Pos.compare_cont Eq mx my) with (Pos.compare mx my).
    destruct (Z.compare_spec ex ey), (Pos.compare_spec mx my); simpl;
      intuition (try discriminate; lia).
  - change (PosDef.Pos.compare_cont Eq mx my) with (Pos.compare mx my).
    destruct (Z.compare_spec ex ey), (Pos.compare_spec mx my); simpl;
      intuition (try discriminate; lia).
Qed.

Lemma rounded_rank_mono (m1 m2 e1 e2 : Z) :
  0 <= m1 <= 2 ^ 53 -> 0 <= m2 <= 2 ^ 53 -> e1 <= e2 ->
  (e1 = e2 -> m1 <= m2) -> (e1 < e2 -> 2 ^ 52 <= m2) ->
  lex_le (sf_rank (rounded false m1 e1)) (sf_rank (rounded false m2 e2))
  /\ lex_le (sf_rank (rounded true m2 e2)) (sf_rank (rounded true m1 e1)).
Proof.
  change (2 ^ 53) with 9007199254740992. change (2 ^ 52) with 4503599627370496.
  intros H1 H2 He Heq Hlt. unfold rounded.
  change (2 ^ 53) with 9007199254740992.
  change (Zpos (2 ^ 52)) with 4503599627370496.
  assert (P52 : Zpos (2 ^ 52)%positive = 4503599627370496) by reflexivity.
  destruct (Z.eqb_spec m1 0), (Z.eqb_spec m2 0),
    (Z.eqb_spec m1 9007199254740992), (Z.eqb_spec m2 9007199254740992),
    (Z.leb_spec (e1 + 1) 971), (Z.leb_spec e1 971),
    (Z.leb_spec (e2 + 1) 971), (Z.leb_spec e2 971);
    cbn [sf_rank]; rewrite ?P52, ?Z2Pos.id by lia; unfold lex_le; lia.
Qed.

(** Rounding the exact products keeps their order. *)
Lemma round_monotone (P1 P2 : positive) (E1 E2 K : Z) :
  let e1 := fexp prec emax (Zpos (digits2_pos P1) + E1) in
  let e2 := fexp prec emax (Zpos (digits2_pos P2) + E2) in
  0 <= e1 - E1 -> 0 <= e2 - E2 -> 0 <= E1 + K -> 0 <= E2 + K ->
  Zpos P1 * 2 ^ (E1 + K) <= Zpos P2 * 2 ^ (E2 + K) ->
  lex_le (sf_rank (binary_round_aux prec emax false (Zpos P1) E1 loc_Exact))
         (sf_rank (binary_round_aux prec emax false (Zpos P2) E2 loc_Exact))
  /\ lex_le (sf_rank (binary_round_aux prec emax true (Zpos P2) E2 loc_Exact))
            (sf_rank (binary_round_aux prec emax true (Zpos P1) E1 loc_Exact)).
Proof.
  intros e1 e2 Hn1 Hn2 HK1 HK2 HV.
  rewrite !binary_round_aux_spec by assumption. fold e1 e2.
  destruct (rne_bounds P1 E1 Hn1) as [B1 N1].
  destruct (rne_bounds P2 E2 Hn2) as [B2 N2]. fold e1 in B1, N1. fold e2 in B2, N2.
  pose proof (digits2_bounds P1) as D1. pose proof (digits2_bounds P2) as D2.
  set (d1 := Zpos (digits2_pos P1)) in *. set (d2 := Zpos (digits2_pos P2)) in *.
  assert (He1 : e1 = Z.max (d1 + E1 - 53) (-1074)) by apply fexp64.
  assert (He2 : e2 = Z.max (d2 + E2 - 53) (-1074)) by apply fexp64.
  assert (Hmag : d1 + E1 <= d2 + E2).
  { destruct (Z_le_gt_dec (d1 + E1) (d2 + E2)) as [H | H]; [exact H | exfalso].
    assert (H1 : 2 ^ (d1 - 1) * 2 ^ (E1 + K) <= Zpos P1 * 2 ^ (E1 + K)).
    { apply Z.mul_le_mono_nonneg_r; [apply Z.pow_nonneg; lia | apply D1]. }
    assert (H2 : Zpos P2 * 2 ^ (E2 + K) < 2 ^ d2 * 2 ^ (E2 + K)).
    { apply Z.mul_lt_mono_pos_r; [apply Z.pow_pos_nonneg; lia | apply D2]. }
    rewrite <- Z.pow_add_r in H1 by lia. rewrite <- Z.pow_add_r in H2 by lia.
    assert (H3 : 2 ^ (d2 + (E2 + K)) <= 2 ^ (d1 - 1 + (E1 + K)))
      by (apply Z.pow_le_mono_r; lia).
    lia. }
  apply rounded_rank_mono; [exact B1 | exact B2 | lia | | intros Hlt; apply N2; lia].
  intros Heq. apply rne_monotone; try lia.
    assert (Hc : 0 < 2 ^ (e1 + K)) by (apply Z.pow_pos_nonneg; lia).
    apply (Z.mul_le_mono_pos_r _ _ _ Hc).
    replace (Zpos P1 * 2 ^ (e2 - E2) * 2 ^ (e1 + K))
      with (Zpos P1 * 2 ^ (E1 + K) * 2 ^ (e1 - E1 + (e2 - E2))).
  - replace (Zpos P2 * 2 ^ (e1 - E1) * 2 ^ (e1 + K))
      with (Zpos P2 * 2 ^ (E2 + K) * 2 ^ (e1 - E1 + (e2 - E2))).
    + apply Z.mul_le_mono_nonneg_r; [apply Z.pow_nonneg; lia | exact HV].
    + rewrite <- !Z.mul_assoc, <- !Z.pow_add_r by lia. do 2 f_equal. lia.
  - rewrite <- !Z.mul_assoc, <- !Z.pow_add_r by lia. do 2 f_equal. lia.
Qed.

Lemma canonical_facts (m : positive) (e : Z) :
  bounded prec emax m e = true ->
  Zpos (digits2_pos m) <= 53 /\ -1074 <= e
  /\ (e = -1074 \/ Zpos (digits2_pos m) = 53).
Proof.
  unfold bounded, canonical_mantissa. rewrite andb_true_iff, Z.eqb_eq, fexp64. lia.
Qed.

(** The exact product of two binary64 numbers never needs a left shift. *)
Lemma product_admissible (mx my : positive) (ex ey : Z) :
  bounded prec emax mx ex = true -> bounded prec emax my ey = true ->
  0 <= fexp prec emax (Zpos (digits2_pos (mx * my)) + (ex + ey)) - (ex + ey).
Proof.
  intros Hx Hy. apply canonical_facts in Hx, Hy. rewrite fexp64.
  pose proof (digits2_bounds mx) as Dx. pose proof (digits2_bounds my) as Dy.
  pose proof (digits2_bounds (mx * my)) as Dp.
  set (dx := Zpos (digits2_pos mx)) in *. set (dy := Zpos (digits2_pos my)) in *.
  set (dp := Zpos (digits2_pos (mx * my))) in *.
  assert (Hdx : 1 <= dx) by (unfold dx; lia).
  assert (Hdy : 1 <= dy) by (unfold dy; lia).
  assert (Hdp : dx + dy - 1 <= dp).
  { destruct (Z_le_gt_dec (dx + dy - 1) dp) as [H | H]; [exact H | exfalso].
    assert (H1 : 2 ^ (dx - 1) * 2 ^ (dy - 1) <= Zpos mx * Zpos my).
    { apply Z.mul_le_mono_nonneg; try apply Z.pow_nonneg; lia. }
    rewrite <- Z.pow_add_r in H1 by lia.
    assert (H2 : 2 ^ dp <= 2 ^ (dx - 1 + (dy - 1))) by (apply Z.pow_le_mono_r; lia).
    rewrite Pos2Z.inj_mul in Dp. lia. }
  lia.
Qed.

(** Two positive binary64 numbers in the order of [SFcompare] are in the
    order of their values. *)
Lemma canonical_value_order (mx my : positive) (ex ey : Z) :
  bounded prec emax mx ex = true -> bounded prec emax my ey = true ->
  ex < ey \/ (ex = ey /\ Zpos mx <= Zpos my) ->
  Zpos mx * 2 ^ (ex + 1074) <= Zpos my * 2 ^ (ey + 1074).
Proof.
  intros Hx Hy Hle. apply canonical_facts in Hx, Hy.
  pose proof (digits2_bounds mx) as Dx. pose proof (digits2_bounds my) as Dy.
  destruct Hle as [Hlt | [-> Hm]].
  - assert (Hdy : Zpos (digits2_pos my) = 53) by lia. rewrite Hdy in Dy.
    assert (H1 : Zpos mx < 2 ^ 53).
    { apply Z.lt_le_trans with (2 ^ Zpos (digits2_pos mx)); [apply Dx|].
      apply Z.pow_le_mono_r; lia. }
    assert (H2 : 2 ^ (ex + 1074 + 1) <= 2 ^ (ey + 1074)) by (apply Z.pow_le_mono_r; lia).
    rewrite Z.pow_add_r in H2 by lia. change (2 ^ 1) with 2 in H2.
    assert (H3 : 0 < 2 ^ (ex + 1074)) by (apply Z.pow_pos_nonneg; lia).
    change (2 ^ 53) with 9007199254740992 in H1.
    change (2 ^ (53 - 1)) with 4503599627370496 in Dy.
    nia.
  - apply Z.mul_le_mono_nonneg_r; [apply Z.pow_nonneg; lia | exact Hm].
Qed.

Lemma rounded_shape (s : bool) (m e : Z) :
  0 <= m ->
  not_nan (rounded s m e)
  /\ (s = false -> lex_le (0, 0, 0) (sf_rank (rounded s m e)))
  /\ (s = true -> lex_le (sf_rank (rounded s m e)) (0, 0, 0)).
Proof.
  intros Hm. unfold rounded.
  destruct (m =? 0), (m =? 2 ^ 53), (e + 1 <=? 971), (e <=? 971), s;
    simpl; repeat split; intros; try discriminate; try lia.
Qed.

Lemma rank_le_infinity (x : spec_float) : lex_le (sf_rank x) (2, 0, 0).
Proof. destruct x as [s | [|] | | [|] m e]; simpl; lia. Qed.

(** The product of two binary64 numbers with a mantissa, as rounded. *)
Lemma SFmul_finite (sx sy : bool) (mx my : positive) (ex ey : Z) :
  bounded prec emax mx ex = true -> bounded prec emax my ey = true ->
  SFmul prec emax (S754_finite sx mx ex) (S754_finite sy my ey)
  = rounded (xorb sx sy)
      (rne (Zpos (mx * my))
           (fexp prec emax (Zpos (digits2_pos (mx * my)) + (ex + ey)) - (ex + ey)))
      (fexp prec emax (Zpos (digits2_pos (mx * my)) + (ex + ey))).
Proof.
  intros Hx Hy. cbn [SFmul].
  apply binary_round_aux_spec. now apply product_admissible.
Qed.

Lemma scale_by_factor (a b mz : positive) (ea eb ez : Z) :
  Zpos a * 2 ^ (ea + 1074) <= Zpos b * 2 ^ (eb + 1074) ->
  -1074 <= ea -> -1074 <= eb -> -1074 <= ez ->
  Zpos (a * mz) * 2 ^ (ea + ez + 2148) <= Zpos (b * mz) * 2 ^ (eb + ez + 2148).
Proof.
  intros H Ha Hb Hz.
  replace (ea + ez + 2148) with (ea + 1074 + (ez + 1074)) by lia.
  replace (eb + ez + 2148) with (eb + 1074 + (ez + 1074)) by lia.
  rewrite !Pos2Z.inj_mul.
  rewrite (Z.pow_add_r 2 (ea + 1074)), (Z.pow_add_r 2 (eb + 1074)) by lia.
  assert (H0 : 0 <= Zpos mz * 2 ^ (ez + 1074))
    by (apply Z.mul_nonneg_nonneg; [lia | apply Z.pow_nonneg; lia]).
  pose proof (Z.mul_le_mono_nonneg_r _ _ _ H0 H) as H1.
  replace (Zpos a * Zpos mz * (2 ^ (ea + 1074) * 2 ^ (ez + 1074)))
    with (Zpos a * 2 ^ (ea + 1074) * (Zpos mz * 2 ^ (ez + 1074))) by ring.
  replace (Zpos b * Zpos mz * (2 ^ (eb + 1074) * 2 ^ (ez + 1074)))
    with (Zpos b * 2 ^ (eb + 1074) * (Zpos mz * 2 ^ (ez + 1074))) by ring.
  exact H1.
Qed.

(** Multiplying by a finite [z >= 0] keeps the order. *)
Lemma SFmul_monotone (x y z : spec_float) :
  valid_binary x = true -> valid_binary y = true ->
  valid_binary z = true ->
  finite_or_zero x -> finite_or_zero z ->
  SFleb (S754_zero false) z = true -> SFleb x y = true ->
  not_nan (SFmul prec emax y z) ->
  not_nan (SFmul prec emax x z)
  /\ lex_le (sf_rank (SFmul prec emax x z)) (sf_rank (SFmul prec emax y z)).
Proof.
  intros Vx Vy Vz Fx Fz Hz Hxy Hyz.
  apply SFleb_rank in Hz. destruct Hz as (_ & _ & Hz).
  apply SFleb_rank in Hxy. destruct Hxy as (_ & Ny & Hxy).
  destruct z as [sz | sz | | sz mz ez]; try contradiction.
  - (* z is a zero *)
    destruct x as [sx | sx | | sx mx ex]; try contradiction;
      destruct y as [sy | sy | | sy my ey]; try contradiction;
      simpl in *; try contradiction; split; auto; lia.
  - (* z has a mantissa, and it is positive *)
    destruct sz; [simpl in Hz; lia|]. simpl in Vx, Vy, Vz.
    destruct x as [sx | sx | | sx mx ex]; try contradiction.
    + (* x is a zero *)
      destruct y as [sy | sy | | sy my ey]; try contradiction.
      * simpl. split; auto; lia.
      * destruct sy; simpl in Hxy; [lia|]. simpl. split; auto; lia.
      * destruct sy; simpl in Hxy; [lia|].
        rewrite (SFmul_finite false false my mz ey ez Vy Vz).
        cbn [SFmul xorb sf_rank]. split; [exact I|].
        apply rounded_shape; [|reflexivity].
        apply (rne_bounds (my * mz) (ey + ez)). now apply product_admissible.
    + (* x has a mantissa *)
      assert (Sx := rounded_shape (xorb sx false)
                      (rne (Zpos (mx * mz))
                         (fexp prec emax (Zpos (digits2_pos (mx * mz)) + (ex + ez))
                          - (ex + ez)))
                      (fexp prec emax (Zpos (digits2_pos (mx * mz)) + (ex + ez)))
                      (proj1 (proj1 (rne_bounds (mx * mz) (ex + ez)
                                       (product_admissible mx mz ex ez Vx Vz))))).
      rewrite (SFmul_finite sx false mx mz ex ez Vx Vz).
      destruct Sx as (Nx & Px & Mx). split; [exact Nx|].
      destruct y as [sy | sy | | sy my ey]; try contradiction.
      * destruct sx; simpl in Hxy; [|lia]. cbn [SFmul sf_rank]. now apply Mx.
      * destruct sy; [destruct sx; simpl in Hxy; lia|].
        cbn [SFmul xorb]. apply rank_le_infinity.
      * rewrite (SFmul_finite sy false my mz ey ez Vy Vz).
        assert (Sy := rounded_shape (xorb sy false)
                      (rne (Zpos (my * mz))
                         (fexp prec emax (Zpos (digits2_pos (my * mz)) + (ey + ez))
                          - (ey + ez)))
                      (fexp prec emax (Zpos (digits2_pos (my * mz)) + (ey + ez)))
                      (proj1 (proj1 (rne_bounds (my * mz) (ey + ez)
                                       (product_admissible my mz ey ez Vy Vz))))).
        destruct Sy as (_ & Py & My).
        destruct sx, sy; simpl in Hxy; try lia.
        -- (* both negative: the larger magnitude is on the left *)
           rewrite <- !binary_round_aux_spec by now apply product_admissible.
           apply (round_monotone (my * mz) (mx * mz) (ey + ez) (ex + ez) 2148);
             try (now apply product_admissible);
             try (apply canonical_facts in Vx, Vy, Vz; lia).
           apply scale_by_factor; try (apply canonical_facts in Vx, Vy, Vz; lia).
           apply canonical_value_order; try assumption. lia.
        -- (* negative, then positive *)
           apply lex_le_trans with (0, 0, 0); [now apply Mx | now apply Py].
        -- (* both positive *)
           rewrite <- !binary_round_aux_spec by now apply product_admissible.
           apply (round_monotone (mx * mz) (my * mz) (ex + ez) (ey + ez) 2148);
             try (now apply product_admissible);
             try (apply canonical_facts in Vx, Vy, Vz; lia).
           apply scale_by_factor; try (apply canonical_facts in Vx, Vy, Vz; lia).
           apply canonical_value_order; try assumption. lia.
Qed.

Lemma is_finite_spec (x : float) : is_finite x = true -> finite_or_zero (Prim2SF x).
Proof.
  unfold is_finite, is_nan, is_infinity.
  rewrite !FloatAxioms.eqb_spec, FloatAxioms.abs_spec.
  change (Prim2SF infinity) with (S754_infinity false).
  destruct (Prim2SF x) as [s | [|] | | s m e]; simpl; try discriminate; auto.
Qed.

(** With a finite [m >= 0] and a finite [h1 <= h2], any bound above
    [h2 * m] is above [h1 * m]. *)
Lemma float_mul_le_mono (h1 h2 m e : float) :
  is_finite h1 = true -> is_finite m = true ->
  (0 <=? m)%float = true -> (h1 <=? h2)%float = true ->
  (h2 * m <=? e)%float = true -> (h1 * m <=? e)%float = true.
Proof.
  intros F1 Fm Hm Hh He.
  rewrite FloatAxioms.leb_spec in Hm, Hh, He |- *. rewrite FloatAxioms.mul_spec in He |- *.
  change (Prim2SF 0) with (S754_zero false) in Hm. unfold SF64mul in *.
  apply is_finite_spec in F1, Fm.
  apply SFleb_rank in He. destruct He as (N2 & Ne & L2).
  destruct (SFmul_monotone (Prim2SF h1) (Prim2SF h2) (Prim2SF m)
              (Prim2SF_valid h1) (Prim2SF_valid h2) (Prim2SF_valid m)
              F1 Fm Hm Hh N2) as [N1 L1].
  apply SFleb_rank. split; [exact N1|]. split; [exact Ne|].
  eapply lex_le_trans; eassumption.
Qed.

End Binary64Facts.

(** C5, as the code has it: for a motor whose max current is a finite
    number that is not negative, and headrooms [h1 <= h2] with [h1] finite,
    a pair that passes the headroom rule at [h2] passes it at [h1]. *)
Theorem headroom_monotone_nonneg_current (h1 h2 : float) (e m : part) :
  is_finite h1 = true ->
  is_finite (num m max_current_a) = true ->
  (0 <=? num m max_current_a)%float = true ->
  (h1 <=? h2)%float = true ->
  head_verdict h2 e m = "PASS" -> head_verdict h1 e m = "PASS".
Proof.
  intros F1 Fm Hm Hh. rewrite !head_verdict_cases.
  destruct (is_nan _ || is_nan _); [discriminate|].
  destruct (range_missing e m); [discriminate|].
  destruct (ranges_overlap e m); [|discriminate].
  unfold current_suffices.
  destruct (h2 * num m max_current_a <=? num e esc_continuous_current_a)%float eqn:E2;
    [intros _ | discriminate].
  now rewrite (float_mul_le_mono h1 h2 _ _ F1 Fm Hm Hh E2).
Qed.

Lemma headroom_monotone_nonneg_current_witness :
  head_verdict 1.2 (esc_with 30) (motor_with 20 3) = "PASS".
Proof.
  apply (headroom_monotone_nonneg_current 1.2 1.3 (esc_with 30) (motor_with 20 3));
    reflexivity.
Defined.

(** ** The theorems at sample parts *)


Lemma motor_prop_hub_rule_witness :
  motor_hub_eff (motor_with 20 3) = None
  /\ rows (compat_motor_prop_hub [motor_with 20 3] [prop_with (Some "M5")])
     = [(ids (motor_with 20 3) (prop_with (Some "M5"))
         ++ [CNum 3; CNull; CStr "M5"; CStr "WARN";
             CStr "Insufficient hub/shaft data"])%list].
Proof.
  refine (proj1 (proj2 (proj2 (motor_prop_hub_rule [] [])))
                (motor_with 20 3) (prop_with (Some "M5")) _ _); reflexivity.
Defined.

Lemma canonical_forms_are_fixed_points_witness :
  _canon_power_conn (Some "XT60") = Some "XT60".
Proof.
  apply (proj1 (proj2 (proj2 canonical_forms_are_fixed_points)) "XT-60" "XT60");
    reflexivity.
Defined.

Lemma unmatched_rf_text_joins_on_raw_text_witness :
  vtx_conn (vtx_with "BNC") = Some "BNC"
  /\ forall a, ant_gate a && key_eqb (vtx_conn (vtx_with "BNC")) (ant_conn a) = true
               <-> ant_gate a = true /\ ant_conn a = Some "BNC".
Proof.
  refine (proj1 (proj2 (proj2 (unmatched_rf_text_joins_on_raw_text
                                 [vtx_with "BNC"] [antenna_with "BNC" nan])))
                (vtx_with "BNC") "BNC" _ _ _ _); vm_compute; reflexivity.
Defined.

(** In the rx - antenna join the key is the canonical connector alone, and
    [merge] pairs a null key with a null key: a receiver and an antenna
    whose texts match no token, on the same band, give a row. *)
Lemma rx_antenna_null_keys_join :
  compat_rx_antenna [rx_with "BNC" "5.8"] [antenna_with "TNC" 5.8]
  = Ok {| columns := ["rx_sku"; "rx_name"; "antenna_sku"; "antenna_name"; "conn"; "bb";
                      "status"; "reason"];
          rows := [[CStr "RX-1"; CStr "rx"; CStr "ANT-1"; CStr "antenna"; CNull;
                    CStr "5.8"; CStr "PASS"; CStr "Connector + band"]] |}.
Proof. vm_compute. reflexivity. Qed.

Lemma summarize_partitions_edges_witness :
  let r := Summarize.summary_of (fun _ => "") "Compat_a_b" (Some three_edges) in
  pass r = 1 /\ fail r = 1 /\ unknown r = 1.
Proof.
  refine (proj1 (proj2 (proj2 (proj2 (proj2 (summarize_partitions_edges (fun _ => "")
            [("Compat_a_b", Some three_edges)])))))
          "Compat_a_b" three_edges 2 _ _ _); try reflexivity.
  repeat constructor; eexists; split; reflexivity.
Defined.

(** * More of the code: loading, the other rules, the command line *)

Import PyStr PyFloat Schema Canon Frame Engine Summarize Contract Examples.
Import Fields Loader Cli Props Verdicts.

(** ** The order of floats *)

Section FloatOrder.
Import Binary64.

Lemma lex_le_refl (a : Z * Z * Z) : lex_le a a.
Proof. destruct a as [[a1 a2] a3]. unfold lex_le. lia. Qed.

Lemma lex_le_total (a b : Z * Z * Z) : lex_le a b \/ lex_le b a.
Proof.
  destruct a as [[a1 a2] a3], b as [[b1 b2] b3]. unfold lex_le. lia.
Qed.

Lemma SFltb_rank (x y : spec_float) :
  SFltb x y = true <-> not_nan x /\ not_nan y /\ ~ lex_le (sf_rank y) (sf_rank x).
Proof.
  unfold SFltb, SFcompare.
  destruct x as [sx | sx | | sx mx ex], y as [sy | sy | | sy my ey];
    try destruct sx; try destruct sy; simpl; try (intuition (try discriminate; lia)).
  - change (PosDef.Pos.compare_cont Eq mx my) with (Pos.compare mx my).
    destruct (Z.compare_spec ex ey), (Pos.compare_spec mx my); simpl;
      intuition (try discriminate; lia).
  - change (PosDef.Pos.compare_cont Eq mx my) with (Pos.compare mx my).
    destruct (Z.compare_spec ex ey), (Pos.compare_spec mx my); simpl;
      intuition (try discriminate; lia).
Qed.

Lemma is_nan_spec (x : float) : is_nan x = false <-> not_nan (Prim2SF x).
Proof.
  unfold is_nan. rewrite negb_false_iff, FloatAxioms.eqb_spec.
  unfold SFeqb, SFcompare.
  destruct (Prim2SF x) as [s | s | | s m e]; simpl.
  - tauto.
  - destruct s; simpl; tauto.
  - split; [discriminate | tauto].
  - rewrite Z.compare_refl.
    change (PosDef.Pos.compare_cont Eq m m) with (Pos.compare m m).
    rewrite Pos.compare_refl. destruct s; simpl; tauto.
Qed.

(** On floats that are not NaN, [<=] is the order of the ranks and [<] its
    strict part. *)
Lemma leb_rank (x y : float) :
  is_nan x = false -> is_nan y = false ->
  ((x <=? y)%float = true <-> lex_le (sf_rank (Prim2SF x)) (sf_rank (Prim2SF y))).
Proof.
  intros Hx Hy. apply is_nan_spec in Hx, Hy.
  rewrite FloatAxioms.leb_spec, SFleb_rank. tauto.
Qed.

Lemma ltb_rank (x y : float) :
  is_nan x = false -> is_nan y = false ->
  ((x <? y)%float = true <-> ~ lex_le (sf_rank (Prim2SF y)) (sf_rank (Prim2SF x))).
Proof.
  intros Hx Hy. apply is_nan_spec in Hx, Hy.
  rewrite FloatAxioms.ltb_spec, SFltb_rank. tauto.
Qed.

Lemma leb_nan_l (x y : float) : is_nan x = true -> (x <=? y)%float = false.
Proof.
  intros Hx. destruct (x <=? y)%float eqn:E; [|reflexivity].
  rewrite FloatAxioms.leb_spec, SFleb_rank in E. destruct E as (N & _).
  apply is_nan_spec in N. congruence.
Qed.

Lemma leb_nan_r (x y : float) : is_nan y = true -> (x <=? y)%float = false.
Proof.
  intros Hy. destruct (x <=? y)%float eqn:E; [|reflexivity].
  rewrite FloatAxioms.leb_spec, SFleb_rank in E. destruct E as (_ & N & _).
  apply is_nan_spec in N. congruence.
Qed.

Lemma leb_refl (x : float) : is_nan x = false -> (x <=? x)%float = true.
Proof. intros Hx. apply (leb_rank x x Hx Hx), lex_le_refl. Qed.

Lemma leb_trans (x y z : float) :
  (x <=? y)%float = true -> (y <=? z)%float = true -> (x <=? z)%float = true.
Proof.
  rewrite !FloatAxioms.leb_spec, !SFleb_rank.
  intros (Nx & Ny & H1) (_ & Nz & H2). repeat split; auto.
  eapply lex_le_trans; eauto.
Qed.

Lemma leb_total (x y : float) :
  is_nan x = false -> is_nan y = false ->
  (x <=? y)%float = true \/ (y <=? x)%float = true.
Proof.
  intros Hx Hy. rewrite (leb_rank x y Hx Hy), (leb_rank y x Hy Hx).
  apply lex_le_total.
Qed.

Lemma ltb_leb (x y : float) :
  is_nan x = false -> is_nan y = false ->
  (x <? y)%float = negb (y <=? x)%float.
Proof.
  intros Hx Hy. apply eq_true_iff_eq.
  rewrite negb_true_iff, <- not_true_iff_false.
  rewrite (ltb_rank x y Hx Hy), (leb_rank y x Hy Hx). tauto.
Qed.

(** [max(a, b) <= min(c, d)] holds exactly when each of [a], [b] is at most
    each of [c], [d]. *)
Lemma max_le_min (a b c d : float) :
  is_nan a = false -> is_nan b = false -> is_nan c = false -> is_nan d = false ->
  (py_max a b <=? py_min c d)%float
  = fle a c && fle a d && fle b c && fle b d.
Proof.
  intros Ha Hb Hc Hd. unfold py_max, py_min, fle.
  rewrite (ltb_leb a b Ha Hb), (ltb_leb d c Hd Hc).
  apply eq_true_iff_eq. rewrite !andb_true_iff.
  destruct (b <=? a)%float eqn:Eba, (c <=? d)%float eqn:Ecd; simpl.
  - split.
    + intros H. repeat split; eauto using leb_trans.
    + tauto.
  - destruct (leb_total c d Hc Hd) as [E | E]; [congruence|].
    split.
    + intros H. repeat split; eauto using leb_trans.
    + tauto.
  - destruct (leb_total b a Hb Ha) as [E | E]; [congruence|].
    split.
    + intros H. repeat split; eauto using leb_trans.
    + tauto.
  - destruct (leb_total b a Hb Ha) as [E | E]; [congruence|].
    destruct (leb_total c d Hc Hd) as [E' | E']; [congruence|].
    split.
    + intros H. repeat split; eauto using leb_trans.
    + tauto.
Qed.

End FloatOrder.

(** X1: [_s_overlap] is undecided exactly when one of the four bounds is
    missing; otherwise it says whether each lower bound is at most each
    upper bound, so a range given upside down overlaps nothing, and the two
    ranges can be given in either order. *)
Theorem s_overlap_decides (a_min a_max b_min b_max : float) :
  _s_overlap a_min a_max b_min b_max
  = (if is_nan a_min || is_nan a_max || is_nan b_min || is_nan b_max then None
     else Some (fle a_min a_max && fle a_min b_max
                && fle b_min a_max && fle b_min b_max))
  /\ _s_overlap a_min a_max b_min b_max = _s_overlap b_min b_max a_min a_max
  /\ (fle a_min a_max = false -> _s_overlap a_min a_max b_min b_max <> Some true)
  /\ (fle b_min b_max = false -> _s_overlap a_min a_max b_min b_max <> Some true).
Proof.
  assert (E : forall a1 a2 b1 b2, _s_overlap a1 a2 b1 b2
    = if is_nan a1 || is_nan a2 || is_nan b1 || is_nan b2 then None
      else Some (fle a1 a2 && fle a1 b2 && fle b1 a2 && fle b1 b2)).
  { intros a1 a2 b1 b2. unfold _s_overlap. cbn [existsb]. rewrite orb_false_r.
    destruct (is_nan a1) eqn:H1; [reflexivity|].
    destruct (is_nan a2) eqn:H2; [reflexivity|].
    destruct (is_nan b1) eqn:H3; [reflexivity|].
    destruct (is_nan b2) eqn:H4; [reflexivity|]. simpl.
    rewrite (max_le_min a1 b1 a2 b2 H1 H3 H2 H4). reflexivity. }
  split; [apply E|]. split; [|split].
  - rewrite !E.
    destruct (is_nan a_min), (is_nan a_max), (is_nan b_min), (is_nan b_max);
      try reflexivity. simpl. f_equal.
    destruct (fle a_min a_max), (fle a_min b_max), (fle b_min a_max), (fle b_min b_max);
      reflexivity.
  - intros H. rewrite E, H. destruct (_ || _); [discriminate|]. simpl. discriminate.
  - intros H. rewrite E, H. destruct (_ || _); [discriminate|].
    rewrite andb_false_r. discriminate.
Qed.

(** ** esc - motor: the basic rule beside the headroom rule *)

Lemma eval_basic_cases (e m : part) :
  _eval_basic (e, m)
  = match cells_ok e m with
    | Some false => ("FAIL", "Cell ranges do not overlap")
    | Some true => if cur_ok e m then ("PASS", "current OK & cells overlap")
                   else ("PASS", "cells overlap (current unknown)")
    | None => if cur_ok e m then ("PASS", "current OK")
              else ("WARN", "insufficient data")
    end.
Proof.
  unfold _eval_basic, cells_ok, cur_ok.
  destruct (_s_overlap _ _ _ _) as [[|]|]; try reflexivity; destruct (negb _ && negb _ && _); reflexivity.
Qed.

(** X2: the basic rule fails a pair only for cell ranges that are known and
    disjoint, never for the current: with overlapping cell ranges it passes,
    also when the ESC current is known to be below the motor current (the
    reason then reads "current unknown"); the current decides between PASS
    and WARN only when a cell bound is missing.  So a pair the headroom rule
    passes passes the basic rule, and a pair the basic rule fails fails the
    headroom rule. *)
Theorem basic_rule_never_fails_on_current (h : float) (e m : part) :
  (basic_verdict e m = "FAIL" <-> cells_ok e m = Some false)
  /\ (basic_verdict e m = "WARN" <-> cells_ok e m = None /\ cur_ok e m = false)
  /\ (basic_verdict e m = "PASS" <->
      cells_ok e m = Some true \/ (cells_ok e m = None /\ cur_ok e m = true))
  /\ (cells_ok e m = Some true ->
      (num e esc_continuous_current_a <? num m max_current_a)%float = true ->
      _eval_basic (e, m) = ("PASS", "cells overlap (current unknown)"))
  /\ (head_verdict h e m = "PASS" -> basic_verdict e m = "PASS")
  /\ (basic_verdict e m = "FAIL" -> head_verdict h e m = "FAIL").
Proof.
  unfold basic_verdict. rewrite eval_basic_cases.
  split; [|split; [|split; [|split; [|split]]]].
  - destruct (cells_ok e m) as [[|]|], (cur_ok e m); simpl; split;
      intros H; try discriminate H; try reflexivity.
  - destruct (cells_ok e m) as [[|]|], (cur_ok e m); simpl; split;
      intros H; try discriminate H; try (destruct H; discriminate); auto.
  - destruct (cells_ok e m) as [[|]|], (cur_ok e m); simpl; split;
      intros H; try discriminate H; auto;
      destruct H as [H | [H1 H2]]; discriminate.
  - intros Hc Hlt. rewrite Hc.
    assert (E : cur_ok e m = false).
    { unfold cur_ok.
      destruct (is_nan (num e esc_continuous_current_a)) eqn:He; [reflexivity|].
      destruct (is_nan (num m max_current_a)) eqn:Hm; [reflexivity|]. simpl.
      rewrite (ltb_leb _ _ He Hm) in Hlt. now apply negb_true_iff in Hlt. }
    now rewrite E.
  - rewrite head_verdict_cases. unfold cells_ok. rewrite s_overlap_cases.
    destruct (is_nan _ || is_nan _); [discriminate|].
    destruct (range_missing e m); [discriminate|].
    destruct (ranges_overlap e m); [|discriminate].
    intros _. destruct (cur_ok e m); reflexivity.
  - rewrite head_verdict_cases. unfold cells_ok. rewrite s_overlap_cases.
    destruct (range_missing e m); [destruct (cur_ok e m); discriminate|].
    destruct (ranges_overlap e m); [destruct (cur_ok e m); discriminate|].
    intros _. destruct (is_nan _ || is_nan _); reflexivity.
Qed.

(** ** The rows of the rules *)

Lemma rows_if_filled {A} (f : A -> list cell) (j : list A) (cols cols0 : list string) :
  rows (if negb (is_empty j) then {| columns := cols; rows := map f j |}
        else empty_frame cols0) = map f j.
Proof. destruct j; reflexivity. Qed.

Lemma rows_if_empty {A} (f : A -> list cell) (j : list A) (cols cols0 : list string) :
  rows (if is_empty j then empty_frame cols0
        else {| columns := cols; rows := map f j |}) = map f j.
Proof. destruct j; reflexivity. Qed.

Lemma rows_if_both_cartesian {A B} (f : A * B -> list cell) (l : list A) (r : list B)
    (cols cols0 : list string) :
  rows (if negb (is_empty l) && negb (is_empty r)
        then {| columns := cols; rows := map f (_cartesian l r) |}
        else empty_frame cols0) = map f (_cartesian l r).
Proof.
  destruct l as [|a l]; [reflexivity|]. destruct r as [|b r]; reflexivity.
Qed.

Lemma rows_if_both_merge {A B K} (eqb : K -> K -> bool) (kl : A -> K) (kr : B -> K)
    (f : A * B -> list cell) (l : list A) (r : list B) (cols cols0 : list string) :
  rows (if negb (is_empty l) && negb (is_empty r)
        then {| columns := cols; rows := map f (merge eqb kl kr l r) |}
        else empty_frame cols0) = map f (merge eqb kl kr l r).
Proof.
  destruct l as [|a l]; [reflexivity|]. destruct r as [|b r]; [|reflexivity].
  simpl negb. simpl andb. cbv iota. now rewrite merge_nil_r.
Qed.

Lemma esc_motor_pair_rows (h : float) (escs motors : list part) :
  rows (fst (compat_esc_motor_pair h escs motors))
  = esc_motor_rows _eval_basic (list_prod escs motors)
  /\ rows (snd (compat_esc_motor_pair h escs motors))
     = esc_motor_rows (_eval_head h) (list_prod escs motors).
Proof.
  unfold compat_esc_motor_pair. cbv zeta. rewrite cartesian_list_prod.
  destruct (list_prod escs motors); split; reflexivity.
Qed.

(** *** Lists that grow *)

Lemma incl_filter {A} (p : A -> bool) (l l' : list A) :
  incl l l' -> incl (filter p l) (filter p l').
Proof. intros H x. rewrite !filter_In. intros [Hx Hp]. auto. Qed.

Lemma incl_list_prod {A B} (a a' : list A) (b b' : list B) :
  incl a a' -> incl b b' -> incl (list_prod a b) (list_prod a' b').
Proof. intros Ha Hb [x y]. rewrite !in_prod_iff. intros [Hx Hy]. auto. Qed.

Lemma incl_cartesian {A B} (a a' : list A) (b b' : list B) :
  incl a a' -> incl b b' -> incl (_cartesian a b) (_cartesian a' b').
Proof. rewrite !cartesian_list_prod. apply incl_list_prod. Qed.

Lemma incl_merge {A B K} (eqb : K -> K -> bool) (kl : A -> K) (kr : B -> K)
    (l l' : list A) (r r' : list B) :
  incl l l' -> incl r r' -> incl (merge eqb kl kr l r) (merge eqb kl kr l' r').
Proof.
  intros Hl Hr [a b]. rewrite !in_merge. intros (Ha & Hb & E). auto.
Qed.

Lemma incl_slice (t : string) (l l' : list part) :
  incl l l' -> incl (slice t l) (slice t l').
Proof. apply incl_filter. Qed.

Lemma incl_dropna_num (cs : list num_col) (l l' : list part) :
  incl l l' -> incl (dropna_num cs l) (dropna_num cs l').
Proof. apply incl_filter. Qed.

Lemma incl_dropna_str (cs : list str_col) (l l' : list part) :
  incl l l' -> incl (dropna_str cs l) (dropna_str cs l').
Proof. apply incl_filter. Qed.

Lemma incl_dropna_ids (c : str_col) (l l' : list part) :
  incl l l' -> incl (dropna_ids c l) (dropna_ids c l').
Proof. apply incl_filter. Qed.

Create HintDb grow.
#[local] Hint Resolve incl_filter incl_list_prod incl_cartesian incl_merge incl_slice
  incl_dropna_num incl_dropna_str incl_dropna_ids incl_map : grow.

(** The rows of a rule, as the image of its pairs. *)
Ltac rows_as_map :=
  cbv zeta;
  rewrite ?rows_if_filled, ?rows_if_empty, ?rows_if_both_cartesian, ?rows_if_both_merge.

Ltac rule_grows := rows_as_map; auto 8 with grow.

Lemma compat_frame_prop_grows (l l' r r' : list part) :
  incl l l' -> incl r r' ->
  incl (rows (compat_frame_prop l r)) (rows (compat_frame_prop l' r')).
Proof. intros Hl Hr. unfold compat_frame_prop. rule_grows. Qed.

Lemma mount_rule_grows (l l' r r' : list part) (lc rc : str_col)
    (cols cols0 : list string) (why : string) :
  incl l l' -> incl r r' ->
  incl (rows (mount_rule l lc r rc cols cols0 why))
       (rows (mount_rule l' lc r' rc cols cols0 why)).
Proof. intros Hl Hr. unfold mount_rule. rule_grows. Qed.

Lemma compat_battery_esc_grows (l l' r r' : list part) :
  incl l l' -> incl r r' ->
  incl (rows (compat_battery_esc l r)) (rows (compat_battery_esc l' r')).
Proof. intros Hl Hr. unfold compat_battery_esc. rule_grows. Qed.

Lemma esc_motor_pair_grows (h : float) (l l' r r' : list part) :
  incl l l' -> incl r r' ->
  incl (rows (fst (compat_esc_motor_pair h l r)))
       (rows (fst (compat_esc_motor_pair h l' r')))
  /\ incl (rows (snd (compat_esc_motor_pair h l r)))
          (rows (snd (compat_esc_motor_pair h l' r'))).
Proof.
  intros Hl Hr.
  destruct (esc_motor_pair_rows h l r) as [-> ->].
  destruct (esc_motor_pair_rows h l' r') as [-> ->].
  unfold esc_motor_rows. split; auto 8 with grow.
Qed.

Lemma compat_vtx_camera_grows (l l' r r' : list part) :
  incl l l' -> incl r r' ->
  incl (rows (compat_vtx_camera l r)) (rows (compat_vtx_camera l' r')).
Proof. intros Hl Hr. unfold compat_vtx_camera. rule_grows. Qed.

Lemma compat_vtx_antenna_grows (l l' r r' : list part) :
  incl l l' -> incl r r' ->
  incl (rows (compat_vtx_antenna l r)) (rows (compat_vtx_antenna l' r')).
Proof.
  intros Hl Hr. rewrite !compat_vtx_antenna_rows. unfold vtx_antenna_pairs.
  auto 8 with grow.
Qed.

Lemma compat_fc_vtx_vbat_grows (l l' r r' : list part) :
  incl l l' -> incl r r' ->
  incl (rows (compat_fc_vtx_vbat l r)) (rows (compat_fc_vtx_vbat l' r')).
Proof. intros Hl Hr. unfold compat_fc_vtx_vbat. rule_grows. Qed.

Lemma rail_grows (l l' r r' : list part) (fc_col vtx_col : num_col) (V : Z) :
  incl l l' -> incl r r' ->
  incl (rows (_rail l r fc_col vtx_col V)) (rows (_rail l' r' fc_col vtx_col V)).
Proof. intros Hl Hr. unfold _rail. rule_grows. Qed.

Lemma compat_fc_cam_5v_grows (l l' r r' : list part) :
  incl l l' -> incl r r' ->
  incl (rows (compat_fc_cam_5v l r)) (rows (compat_fc_cam_5v l' r')).
Proof. intros Hl Hr. unfold compat_fc_cam_5v. rule_grows. Qed.

Lemma cam_accepts_grows (l l' r r' : list part) (V : Z) (fc_col : num_col) :
  incl l l' -> incl r r' ->
  incl (rows (_cam_accepts l r V fc_col)) (rows (_cam_accepts l' r' V fc_col)).
Proof. intros Hl Hr. unfold _cam_accepts. rule_grows. Qed.

Lemma compat_pigtail_esc_grows (l l' r r' : list part) :
  incl l l' -> incl r r' ->
  incl (rows (compat_pigtail_esc l r)) (rows (compat_pigtail_esc l' r')).
Proof. intros Hl Hr. unfold compat_pigtail_esc. rule_grows. Qed.

Lemma compat_battery_pigtail_grows (l l' r r' : list part) :
  incl l l' -> incl r r' ->
  incl (rows (compat_battery_pigtail l r)) (rows (compat_battery_pigtail l' r')).
Proof. intros Hl Hr. unfold compat_battery_pigtail. rule_grows. Qed.

Lemma compat_cap_esc_grows (l l' r r' : list part) :
  incl l l' -> incl r r' ->
  incl (rows (compat_cap_esc l r)) (rows (compat_cap_esc l' r')).
Proof. intros Hl Hr. unfold compat_cap_esc. rule_grows. Qed.

Lemma compat_motor_prop_hub_grows (l l' r r' : list part) :
  incl l l' -> incl r r' ->
  incl (rows (compat_motor_prop_hub l r)) (rows (compat_motor_prop_hub l' r')).
Proof.
  intros Hl Hr. rewrite !compat_motor_prop_hub_rows. unfold motor_prop_pairs.
  auto 8 with grow.
Qed.

(** *** rx - antenna *)

Lemma series_apply_combine {A B} (f : A -> result B) (l : list A) (bs : list B) :
  series_apply f l = Ok bs ->
  forall a b, In (a, b) (combine l bs) <-> In a l /\ f a = Ok b.
Proof.
  revert bs. induction l as [|x l IH]; intros bs H a b.
  - simpl. tauto.
  - simpl in H. destruct (f x) as [y|e] eqn:Hx; [|discriminate]. simpl in H.
    destruct (series_apply f l) as [ys|e] eqn:Hl; [|discriminate]. simpl in H.
    injection H as <-. simpl. rewrite (IH ys eq_refl). split.
    + intros [[= <- <-] | [Ha Hf]]; auto.
    + intros [[<- | Ha] Hf]; [left; congruence | right; auto].
Qed.

(** The rows of the rx - antenna frame, when it is built. *)
Lemma compat_rx_antenna_rows (rxs ants : list part) (df : DataFrame) :
  compat_rx_antenna rxs ants = Ok df ->
  forall row, In row (rows df) <->
    exists r a br ba,
      In r rxs /\ In a ants
      /\ notna_opt (str r rx_ant_conn) = true /\ isna (rx_band_ghz r) = false
      /\ notna_opt (str a antenna_conn) = true
      /\ is_nan (num a antenna_band_ghz) = false
      /\ bucket (rx_band_ghz r) = Ok br
      /\ bucket (CNum (num a antenna_band_ghz)) = Ok ba
      /\ key2_eqb (rx_key (r, br)) (ant_key (a, ba)) = true
      /\ row = (ids r a ++ [cell_of_opt (_canon_connector (str r rx_ant_conn));
                            cell_of_opt br; CStr "PASS"; CStr "Connector + band"])%list.
Proof.
  unfold compat_rx_antenna. cbv zeta.
  set (rx := filter _ (dropna_str _ rxs)). set (an := dropna_num _ (dropna_str _ ants)).
  assert (Hrx : forall r, In r rx <-> In r rxs /\ notna_opt (str r rx_ant_conn) = true
                                      /\ isna (rx_band_ghz r) = false).
  { intros r. unfold rx, dropna_str. rewrite !filter_In. cbn [forallb].
    rewrite andb_true_r, negb_true_iff. tauto. }
  assert (Han : forall a, In a an <-> In a ants /\ notna_opt (str a antenna_conn) = true
                                      /\ is_nan (num a antenna_band_ghz) = false).
  { intros a. unfold an, dropna_num, dropna_str. rewrite !filter_In. cbn [forallb].
    rewrite !andb_true_r, negb_true_iff. tauto. }
  destruct (negb (is_empty rx) && negb (is_empty an)) eqn:Hne.
  - destruct (series_apply _ rx) as [rx_bb|e] eqn:E1; [|discriminate]. simpl.
    destruct (series_apply _ an) as [an_bb|e] eqn:E2; [|discriminate]. simpl.
    destruct (negb (Bool.eqb _ _)); [discriminate|].
    intros [= <-] row. cbn [rows]. rewrite in_map_iff. split.
    + intros [[[r br] [a ba]] [<- Hin]]. apply in_merge in Hin.
      destruct Hin as (Hr & Ha & Hk).
      apply (series_apply_combine _ _ _ E1) in Hr.
      apply (series_apply_combine _ _ _ E2) in Ha.
      destruct Hr as [Hr Hbr], Ha as [Ha Hba].
      apply Hrx in Hr. apply Han in Ha.
      exists r, a, br, ba. cbn [fst snd rx_key]. intuition.
    + intros (r & a & br & ba & Hr & Ha & H1 & H2 & H3 & H4 & Hbr & Hba & Hk & ->).
      exists ((r, br), (a, ba)). split; [reflexivity|].
      apply in_merge. repeat split; [| |exact Hk].
      * apply (series_apply_combine _ _ _ E1). split; [apply Hrx; auto | exact Hbr].
      * apply (series_apply_combine _ _ _ E2). split; [apply Han; auto | exact Hba].
  - intros [= <-] row. cbn [rows empty_frame]. split; [intros []|].
    intros (r & a & br & ba & Hr & Ha & H1 & H2 & H3 & H4 & _).
    assert (Ir : In r rx) by (apply Hrx; auto).
    assert (Ia : In a an) by (apply Han; auto).
    destruct rx; [elim Ir|]. destruct an; [elim Ia|]. discriminate Hne.
Qed.

Lemma compat_rx_antenna_grows (l l' r r' : list part) (df df' : DataFrame) :
  incl l l' -> incl r r' ->
  compat_rx_antenna l r = Ok df -> compat_rx_antenna l' r' = Ok df' ->
  incl (rows df) (rows df').
Proof.
  intros Hl Hr E E' row.
  rewrite (compat_rx_antenna_rows _ _ _ E), (compat_rx_antenna_rows _ _ _ E').
  intros (x & a & br & ba & Hx & Ha & H). exists x, a, br, ba. auto.
Qed.

(** ** build_compat on a table that grows *)

(** X3: every edge depends on the two parts it names only.  When a parts
    table is extended (or reordered) and [build_compat] returns on both
    tables, every frame of the larger table has every row of the frame of
    the same key of the smaller one, unchanged: more parts never remove or
    alter an edge. *)
Theorem edges_survive_more_parts (parts parts' : list part) (h : float)
    (out out' : list (string * DataFrame)) :
  incl parts parts' ->
  build_compat parts h = Ok out -> build_compat parts' h = Ok out' ->
  Forall2 (fun kv kv' => fst kv = fst kv' /\ incl (rows (snd kv)) (rows (snd kv')))
          out out'.
Proof.
  intros Hi. unfold build_compat. cbv zeta.
  destruct (compat_rx_antenna (slice "rx" parts) (slice "antenna" parts))
    as [df|e] eqn:E; [|discriminate].
  destruct (compat_rx_antenna (slice "rx" parts') (slice "antenna" parts'))
    as [df'|e] eqn:E'; [|discriminate].
  simpl. intros [= <-] [= <-].
  pose proof (fun t => incl_slice t _ _ Hi) as Hs.
  repeat (apply Forall2_cons; [split; [reflexivity|]; cbn [snd];
    first [ apply compat_frame_prop_grows | apply mount_rule_grows
          | apply compat_battery_esc_grows | apply esc_motor_pair_grows
          | apply compat_vtx_camera_grows | apply compat_vtx_antenna_grows
          | apply compat_fc_vtx_vbat_grows | apply rail_grows
          | apply compat_fc_cam_5v_grows | apply cam_accepts_grows
          | apply (compat_rx_antenna_grows _ _ _ _ _ _ (Hs "rx") (Hs "antenna") E E')
          | apply compat_pigtail_esc_grows | apply compat_battery_pigtail_grows
          | apply compat_cap_esc_grows | apply compat_motor_prop_hub_grows ];
    apply Hs |]).
  apply Forall2_nil.
Qed.

Lemma edges_survive_more_parts_witness :
  map (fun kv => List.length (rows (snd kv)))
      (compat_of [esc_with 30; motor_with 20 5; prop_with (Some "M5")] 1.2)
  = [0; 0; 0; 0; 0; 1; 1; 0; 0; 0; 0; 0; 0; 0; 0; 0; 0; 0; 0; 0; 0; 1]
  /\ Forall2 (fun kv kv' => fst kv = fst kv' /\ incl (rows (snd kv)) (rows (snd kv')))
             (compat_of [esc_with 30; motor_with 20 5; prop_with (Some "M5")] 1.2)
             (compat_of [motor_with 25 2; prop_with (Some "M5"); esc_with 30;
                         motor_with 20 5] 1.2).
Proof.
  split; [vm_compute; reflexivity|].
  refine (edges_survive_more_parts
            [esc_with 30; motor_with 20 5; prop_with (Some "M5")]
            [motor_with 25 2; prop_with (Some "M5"); esc_with 30; motor_with 20 5]
            1.2 _ _ _ _ _).
  - intros x [<- | [<- | [<- | []]]]; simpl; tauto.
  - vm_compute. reflexivity.
  - vm_compute. reflexivity.
Defined.

(** ** The statuses of each frame, and how [summarize] counts them *)

Lemma statuses_in_map {A} (S : list string) (f : A -> list cell) (j : list A)
    (cols : list string) :
  (forall a, exists s, status_cell (f a) = Some (CStr s) /\ In s S) ->
  statuses_in S {| columns := cols; rows := map f j |}.
Proof.
  intros H. unfold statuses_in. simpl. apply Forall_forall. intros r Hr.
  apply in_map_iff in Hr. destruct Hr as [a [<- _]]. apply H.
Qed.

Lemma statuses_in_empty (S : list string) (cols : list string) :
  statuses_in S (empty_frame cols).
Proof. constructor. Qed.

Lemma in_if (b : bool) (x y : string) (S : list string) :
  In x S -> In y S -> In (if b then x else y) S.
Proof. now destruct b. Qed.

Ltac status_tac :=
  unfold status_cell, ids, esc_motor_cells, vtx_antenna_row, hub_row;
  cbn [List.length app rev nth_error fst snd];
  eexists; split; [reflexivity|];
  repeat apply in_if; simpl; tauto.

Ltac vocab_tac :=
  cbv zeta;
  match goal with
  | |- statuses_in _ (if ?c then _ else _) =>
      destruct c;
      first [ apply statuses_in_empty
            | apply statuses_in_map; intros [a b]; status_tac ]
  end.

Lemma compat_frame_prop_vocab (l r : list part) :
  statuses_in ["PASS"; "FAIL"] (compat_frame_prop l r).
Proof. unfold compat_frame_prop. vocab_tac. Qed.

Lemma mount_rule_vocab (l r : list part) (lc rc : str_col) (cols cols0 : list string)
    (why : string) :
  statuses_in ["PASS"; "FAIL"] (mount_rule l lc r rc cols cols0 why).
Proof. unfold mount_rule. vocab_tac. Qed.

Lemma compat_battery_esc_vocab (l r : list part) :
  statuses_in ["PASS"; "FAIL"] (compat_battery_esc l r).
Proof. unfold compat_battery_esc. vocab_tac. Qed.

Lemma eval_head_vocab (h : float) (r : part * part) :
  In (fst (_eval_head h r)) ["PASS"; "FAIL"].
Proof.
  destruct r as [e m]. unfold _eval_head.
  destruct (_ || _); [simpl; tauto|].
  destruct (_s_overlap _ _ _ _) as [[|]|]; [|simpl; tauto..].
  destruct (_ <=? _)%float; simpl; tauto.
Qed.

Lemma esc_motor_pair_vocab (h : float) (l r : list part) :
  statuses_in ["PASS"; "FAIL"; "WARN"] (fst (compat_esc_motor_pair h l r))
  /\ statuses_in ["PASS"; "FAIL"] (snd (compat_esc_motor_pair h l r)).
Proof.
  unfold compat_esc_motor_pair, esc_motor_rows. cbv zeta.
  destruct (negb _); cbn [fst snd]; split; try apply statuses_in_empty;
    apply statuses_in_map; intros x;
    unfold status_cell, ids, esc_motor_cells; cbn [List.length app rev nth_error];
    eexists; (split; [reflexivity|]).
  - apply eval_basic_status.
  - apply eval_head_vocab.
Qed.

Lemma compat_vtx_camera_vocab (l r : list part) :
  statuses_in ["PASS"] (compat_vtx_camera l r).
Proof. unfold compat_vtx_camera. vocab_tac. Qed.

Lemma compat_vtx_antenna_vocab (l r : list part) :
  statuses_in ["PASS"] (compat_vtx_antenna l r).
Proof. unfold compat_vtx_antenna. vocab_tac. Qed.

Lemma compat_fc_vtx_vbat_vocab (l r : list part) :
  statuses_in ["PASS"; "FAIL"] (compat_fc_vtx_vbat l r).
Proof.
  unfold compat_fc_vtx_vbat. cbv zeta.
  destruct (negb _); [|apply statuses_in_empty].
  apply statuses_in_map. intros [f v]. unfold status_cell, ids.
  cbn [List.length app rev nth_error]. eexists; split; [reflexivity|].
  destruct (_s_overlap _ _ _ _) as [[|]|]; simpl; tauto.
Qed.

Lemma rail_vocab (l r : list part) (fc_col vtx_col : num_col) (V : Z) :
  statuses_in ["PASS"; "FAIL"] (_rail l r fc_col vtx_col V).
Proof. unfold _rail. vocab_tac. Qed.

Lemma compat_fc_cam_5v_vocab (l r : list part) :
  statuses_in ["PASS"; "FAIL"] (compat_fc_cam_5v l r).
Proof. unfold compat_fc_cam_5v. vocab_tac. Qed.

Lemma cam_accepts_vocab (l r : list part) (V : Z) (fc_col : num_col) :
  statuses_in ["PASS"; "FAIL"] (_cam_accepts l r V fc_col).
Proof. unfold _cam_accepts. vocab_tac. Qed.

Lemma compat_rx_antenna_vocab (l r : list part) (df : DataFrame) :
  compat_rx_antenna l r = Ok df -> statuses_in ["PASS"] df.
Proof.
  intros E. apply Forall_forall. intros row Hrow.
  apply (compat_rx_antenna_rows _ _ _ E) in Hrow.
  destruct Hrow as (x & a & br & ba & _ & _ & _ & _ & _ & _ & _ & _ & _ & ->).
  unfold status_cell, ids. cbn [List.length app rev nth_error].
  eexists; split; [reflexivity | simpl; tauto].
Qed.

Lemma compat_pigtail_esc_vocab (l r : list part) :
  statuses_in ["PASS"] (compat_pigtail_esc l r).
Proof. unfold compat_pigtail_esc. vocab_tac. Qed.

Lemma compat_battery_pigtail_vocab (l r : list part) :
  statuses_in ["PASS"] (compat_battery_pigtail l r).
Proof. unfold compat_battery_pigtail. vocab_tac. Qed.

Lemma compat_cap_esc_vocab (l r : list part) :
  statuses_in ["PASS"; "FAIL"] (compat_cap_esc l r).
Proof. unfold compat_cap_esc. vocab_tac. Qed.

Lemma compat_motor_prop_hub_vocab (l r : list part) :
  statuses_in ["PASS"; "FAIL"; "WARN"] (compat_motor_prop_hub l r).
Proof.
  unfold compat_motor_prop_hub. cbv zeta.
  destruct (negb _); [|apply statuses_in_empty].
  apply statuses_in_map. intros [m p]. unfold status_cell, hub_row, ids.
  cbn [List.length app rev nth_error]. eexists; split; [reflexivity|].
  apply hub_verdict_status.
Qed.

Lemma index_of_app (c : string) (pre t : list string) :
  ~ In c pre -> index_of c (pre ++ c :: t) = Some (List.length pre).
Proof.
  induction pre as [|x pre IH]; simpl; intros H.
  - now rewrite String.eqb_refl.
  - destruct (String.eqb_spec c x) as [-> | _]; [elim H; now left|].
    rewrite IH; [reflexivity | tauto].
Qed.

Lemma index_of_lt (c : string) (cols : list string) (i : nat) :
  index_of c cols = Some i -> i < List.length cols.
Proof.
  revert i. induction cols as [|x cols IH]; simpl; intros i; [discriminate|].
  destruct (String.eqb c x); [intros [= <-]; lia|].
  destruct (index_of c cols) as [j|]; [|discriminate].
  simpl. intros [= <-]. specialize (IH j eq_refl). lia.
Qed.

(** The cell under a label that stands last but one. *)
Lemma nth_status (r : list cell) (n : nat) (c : cell) :
  List.length r = S (S n) -> status_cell r = Some c -> nth n r CNull = c.
Proof.
  unfold status_cell. intros Hl H.
  apply (nth_error_nth _ _ CNull) in H.
  rewrite rev_nth in H by lia. rewrite Hl in H.
  replace (S (S n) - 2) with n in H by lia. exact H.
Qed.

Lemma length_filter_map {A B} (p : B -> bool) (g : A -> B) (l : list A) :
  List.length (filter p (map g l)) = List.length (filter (fun a => p (g a)) l).
Proof.
  induction l as [|a l IH]; [reflexivity|]. simpl.
  destruct (p (g a)); simpl; now rewrite IH.
Qed.

Lemma length_filter_ext {A} (p q : A -> bool) (l : list A) :
  (forall a, In a l -> p a = q a) ->
  List.length (filter p l) = List.length (filter q l).
Proof. intros H. now rewrite (filter_ext_in _ _ _ H). Qed.

Lemma count_status_none (S : list string) (s : string) (df : DataFrame) :
  statuses_in S df -> ~ In s S -> count_status s df = 0.
Proof.
  unfold statuses_in, count_status. intros H Hs.
  induction H as [|r l (t & Ht & Hin) _ IH]; [reflexivity|].
  simpl. rewrite Ht. destruct (String.eqb_spec t s) as [-> | _]; [contradiction | exact IH].
Qed.

Lemma count_status_all (s : string) (df : DataFrame) :
  statuses_in [s] df -> count_status s df = List.length (rows df).
Proof.
  unfold statuses_in, count_status. intros H.
  induction H as [|r l (t & Ht & Hin) _ IH]; [reflexivity|].
  simpl. rewrite Ht. destruct Hin as [<- | []]. rewrite String.eqb_refl. simpl.
  now rewrite IH.
Qed.

Section SummaryOfFrames.
Variable str_of_float : float -> string.

(** On a frame with [status] last but one and its rows in the three
    statuses, [summarize] counts the PASS rows, the FAIL rows and the WARN
    rows. *)
Lemma summary_of_frame (k : string) (df : DataFrame) (cols : list string) :
  columns df = cols /\ frame_ok df ->
  index_of "status" cols = Some (List.length cols - 2) ->
  summary_of str_of_float k (Some df)
  = {| pair := k; pass := count_status "PASS" df; fail := count_status "FAIL" df;
       unknown := count_status "WARN" df |}.
Proof.
  intros [Hc [[pre Hpre] Hrows]] Hi. unfold summary_of.
  assert (Hlen : List.length cols = S (S (List.length cols - 2))).
  { rewrite <- Hc, Hpre, length_app. simpl. lia. }
  destruct (empty df) eqn:He.
  - unfold empty in He. destruct (rows df) as [|r l] eqn:Hr.
    + unfold count_status. now rewrite Hr.
    + rewrite Hc in He. destruct cols; [discriminate Hlen | discriminate He].
  - unfold column. rewrite Hc, Hi. unfold count_if, count_status.
    rewrite map_map, !length_filter_map.
    f_equal; apply length_filter_ext; intros r Hr;
      (rewrite Forall_forall in Hrows; destruct (Hrows r Hr) as (Hl & s & Hs & Hin));
      rewrite Hc, Hlen in Hl; rewrite (nth_status _ _ _ Hl Hs), Hs;
      simpl in Hin; destruct Hin as [<- | [<- | [<- | []]]]; reflexivity.
Qed.

Lemma frame_summary (k : string) (df : DataFrame) (cols : list string) :
  columns df = cols /\ frame_ok df ->
  index_of "status" cols = Some (List.length cols - 2) ->
  statuses_in (vocabulary k) df ->
  let r := summary_of str_of_float k (Some df) in
  r = {| pair := k; pass := count_status "PASS" df; fail := count_status "FAIL" df;
         unknown := count_status "WARN" df |}
  /\ statuses_in (vocabulary k) df
  /\ (~ In k WARNING -> unknown r = 0)
  /\ (In k JOINED -> fail r = 0 /\ pass r = List.length (rows df)).
Proof.
  intros Hok Hi Hv r. subst r. rewrite (summary_of_frame k df cols Hok Hi).
  split; [reflexivity|]. split; [exact Hv|]. cbn [pass fail unknown]. split.
  - intros Hk. apply (count_status_none (vocabulary k)); [exact Hv|].
    unfold vocabulary. destruct (mem k JOINED); [simpl; intuition discriminate|].
    apply mem_not_In in Hk. rewrite Hk. simpl. intuition discriminate.
  - intros Hk. apply mem_In in Hk. unfold vocabulary in Hv. rewrite Hk in Hv. split.
    + apply (count_status_none ["PASS"]); [exact Hv | simpl; intuition discriminate].
    + now apply count_status_all.
Qed.

(** X4: on every frame [build_compat] returns, [summarize] counts the
    PASS rows as pass, the FAIL rows as fail and the WARN rows as unknown.
    Only the basic esc - motor rule and the motor - prop hub rule can give
    WARN, so the unknown count of every other pair is 0; the five pairs that
    are joins (vtx - camera, vtx - antenna, rx - antenna, pigtail - esc,
    battery - pigtail) hold PASS rows only, so their fail count is 0. *)
Theorem summary_counts_by_status (parts : list part) (h : float)
    (out : list (string * DataFrame)) :
  build_compat parts h = Ok out ->
  Forall (fun kv =>
    let r := summary_of str_of_float (fst kv) (Some (snd kv)) in
    r = {| pair := fst kv; pass := count_status "PASS" (snd kv);
           fail := count_status "FAIL" (snd kv);
           unknown := count_status "WARN" (snd kv) |}
    /\ statuses_in (vocabulary (fst kv)) (snd kv)
    /\ (~ In (fst kv) WARNING -> unknown r = 0)
    /\ (In (fst kv) JOINED -> fail r = 0 /\ pass r = List.length (rows (snd kv))))
    out.
Proof.
  unfold build_compat. cbv zeta.
  destruct (compat_rx_antenna_cases (slice "rx" parts) (slice "antenna" parts))
    as [(df & E & Hc & Hok) | [(r & s & E & _) | E]]; rewrite E; simpl;
    [|discriminate..].
  intros [= <-].
  pose proof (esc_motor_pair_vocab h (slice "esc" parts) (slice "motor" parts)) as [Vb Vh].
  pose proof (compat_esc_motor_pair_ok h (slice "esc" parts) (slice "motor" parts))
    as [Ob Oh].
  repeat (apply Forall_cons; [cbn [fst snd]; eapply frame_summary;
    [ first [ apply compat_frame_prop_ok | apply mount_rule_ok
            | apply compat_battery_esc_ok | exact Ob | exact Oh
            | apply compat_vtx_camera_ok | apply compat_vtx_antenna_ok
            | apply compat_fc_vtx_vbat_ok | apply rail_ok | apply compat_fc_cam_5v_ok
            | apply cam_accepts_ok | exact (conj Hc Hok) | apply compat_pigtail_esc_ok
            | apply compat_battery_pigtail_ok | apply compat_cap_esc_ok
            | apply compat_motor_prop_hub_ok ]
    | reflexivity
    | match goal with
      | |- statuses_in ?v _ => let v' := eval vm_compute in v in change v with v'
      end;
      first [ apply compat_frame_prop_vocab | apply mount_rule_vocab
            | apply compat_battery_esc_vocab | exact Vb | exact Vh
            | apply compat_vtx_camera_vocab | apply compat_vtx_antenna_vocab
            | apply compat_fc_vtx_vbat_vocab | apply rail_vocab
            | apply compat_fc_cam_5v_vocab | apply cam_accepts_vocab
            | apply (compat_rx_antenna_vocab _ _ _ E) | apply compat_pigtail_esc_vocab
            | apply compat_battery_pigtail_vocab | apply compat_cap_esc_vocab
            | apply compat_motor_prop_hub_vocab ] ] |]).
  apply Forall_nil.
Qed.

End SummaryOfFrames.

Lemma summary_counts_by_status_witness :
  Forall (fun kv =>
    let r := summary_of (fun _ => "") (fst kv) (Some (snd kv)) in
    r = {| pair := fst kv; pass := count_status "PASS" (snd kv);
           fail := count_status "FAIL" (snd kv);
           unknown := count_status "WARN" (snd kv) |}
    /\ statuses_in (vocabulary (fst kv)) (snd kv)
    /\ (~ In (fst kv) WARNING -> unknown r = 0)
    /\ (In (fst kv) JOINED -> fail r = 0 /\ pass r = List.length (rows (snd kv))))
    (compat_of [motor_with 20 3; esc_with 30] 1.2).
Proof.
  apply (summary_counts_by_status (fun _ => "") [motor_with 20 3; esc_with 30] 1.2).
  vm_compute. reflexivity.
Defined.

(** ** esc - motor: the two frames side by side *)

(** X5: the basic and the headroom frame both have one row for every
    ESC with every motor, ESC by ESC in the order of the parts table: no
    part is left out for a missing value.  Row by row the two frames agree
    on the ten cells before [status]. *)
Theorem esc_motor_frames_pair_up (h : float) (escs motors : list part) :
  let basic := fst (compat_esc_motor_pair h escs motors) in
  let head := snd (compat_esc_motor_pair h escs motors) in
  rows basic = esc_motor_rows _eval_basic (list_prod escs motors)
  /\ rows head = esc_motor_rows (_eval_head h) (list_prod escs motors)
  /\ List.length (rows basic) = List.length escs * List.length motors
  /\ List.length (rows head) = List.length escs * List.length motors
  /\ map (firstn 10) (rows basic) = map (firstn 10) (rows head).
Proof.
  cbv zeta. destruct (esc_motor_pair_rows h escs motors) as [-> ->].
  unfold esc_motor_rows. rewrite !length_map, length_prod, !map_map.
  repeat split; reflexivity.
Qed.

(** ** The mount rules *)

Lemma sets_meet_spec (x y : list string) :
  sets_meet x y = true <-> exists t, In t x /\ In t y.
Proof.
  unfold sets_meet. rewrite existsb_exists.
  split; intros [t [H1 H2]]; exists t; [apply mem_In in H2 | apply mem_In in H2]; auto.
Qed.

Lemma sets_meet_sym (x y : list string) : sets_meet x y = sets_meet y x.
Proof.
  apply eq_true_iff_eq. rewrite !sets_meet_spec.
  split; intros [t [H1 H2]]; exists t; auto.
Qed.

Lemma in_dropna_str1 (c : str_col) (l : list part) (a : part) :
  In a (dropna_str [c] l) <-> In a l /\ exists s, str a c = Some s.
Proof.
  unfold dropna_str. rewrite filter_In. cbn [forallb]. rewrite andb_true_r.
  destruct (str a c) as [s|]; simpl; split; intros [H1 H2]; split; auto.
  - now exists s.
  - discriminate.
  - destruct H2 as [s H2]. discriminate.
Qed.

(** X6: each of the three mount rules (frame - fc, frame - motor,
    esc - fc) has a row exactly for the pairs whose two pattern texts are
    both present; the pair passes exactly when the two canonical token lists
    share a token, whichever side is read first.  A part whose text holds no
    allowed pattern is kept and fails against every counterpart. *)
Theorem mount_rule_shares_a_token (ls rs : list part) (lc rc : str_col)
    (cols cols0 : list string) (why : string) :
  (forall row, In row (rows (mount_rule ls lc rs rc cols cols0 why)) <->
     exists a b sa sb,
       In a ls /\ In b rs /\ str a lc = Some sa /\ str b rc = Some sb
       /\ row = (ids a b
                 ++ [CStr (if common_mount a lc b rc then "PASS" else "FAIL");
                     CStr (if common_mount a lc b rc then why
                           else "No common mount pattern")])%list)
  /\ (forall a b, common_mount a lc b rc = true <->
        exists t, In t ALLOWED_MOUNTS /\ In t (mounts a lc) /\ In t (mounts b rc))
  /\ (forall a b, common_mount a lc b rc = common_mount b rc a lc)
  /\ (forall a b, mounts a lc = [] -> common_mount a lc b rc = false).
Proof.
  split; [|split; [|split]].
  - intros row. unfold mount_rule. rows_as_map.
    rewrite cartesian_list_prod, in_map_iff. split.
    + intros [[a b] [<- Hin]]. apply in_prod_iff in Hin.
      rewrite !in_dropna_str1 in Hin. destruct Hin as [[Ha [sa Hsa]] [Hb [sb Hsb]]].
      exists a, b, sa, sb. auto.
    + intros (a & b & sa & sb & Ha & Hb & Hsa & Hsb & ->).
      exists (a, b). split; [reflexivity|]. apply in_prod_iff.
      rewrite !in_dropna_str1. repeat split; eauto.
  - intros a b. unfold common_mount. rewrite sets_meet_spec.
    split; intros [t H]; exists t; [|tauto].
    split; [|exact H]. destruct H as [H _]. unfold mounts in H.
    destruct (str a lc);
      eapply Forall_forall in H; try apply canon_mount_list_invariant; exact H.
  - intros a b. apply sets_meet_sym.
  - intros a b H. unfold common_mount. now rewrite H.
Qed.

(** ** The joins on the power connector *)

Lemma key_eqb_spec (a b : option string) :
  key_eqb a b = true <-> a = b.
Proof.
  destruct a as [x|], b as [y|]; simpl; try (split; [discriminate | discriminate]);
    [|tauto].
  rewrite String.eqb_eq. split; [now intros -> | now intros [= ->]].
Qed.

Lemma in_connector_join (lc rc : str_col) (l r : list part) (a b : part) :
  In (a, b) (merge key_eqb (fun x => str x lc) (fun y => str y rc)
               (dropna_str [lc] l) (dropna_str [rc] r)) <->
  In a l /\ In b r /\ exists c, str a lc = Some c /\ str b rc = Some c.
Proof.
  rewrite in_merge, !in_dropna_str1, key_eqb_spec. split.
  - intros ((Ha & sa & Hsa) & (Hb & sb & Hsb) & E). repeat split; auto.
    exists sa. split; [exact Hsa | congruence].
  - intros (Ha & Hb & c & Hc1 & Hc2). repeat split; eauto. congruence.
Qed.

(** X7: the three joins on the canonical power connector.  Each frame
    has a row exactly for the pairs whose two connectors are known and equal,
    so a battery and an ESC that take the same pigtail also appear together
    in the battery - esc frame.  The pigtail rows are all PASS; a battery -
    esc row fails only when the cell count and both ESC bounds are known and
    the count is outside them, and passes on the connector alone when one of
    the three is missing. *)
Theorem power_connector_joins (pigtail escs bats : list part) :
  (forall row, In row (rows (compat_pigtail_esc pigtail escs)) <->
     exists p e c, In p pigtail /\ In e escs
       /\ str p pigtail_connector_eff = Some c /\ str e esc_batt_connector_eff = Some c
       /\ row = (ids p e ++ [CStr c; CStr "PASS"; CStr "Connector matched"])%list)
  /\ (forall row, In row (rows (compat_battery_pigtail pigtail bats)) <->
     exists p b c, In p pigtail /\ In b bats
       /\ str p pigtail_connector_eff = Some c /\ str b battery_connector_eff = Some c
       /\ row = (ids p b ++ [CStr c; CStr "PASS"; CStr "Connector matched"])%list)
  /\ (forall row, In row (rows (compat_battery_esc bats escs)) <->
     exists b e c, In b bats /\ In e escs
       /\ str b battery_connector_eff = Some c /\ str e esc_batt_connector_eff = Some c
       /\ row = (ids b e
                 ++ [CStr c; CNum (num e esc_cells_min); CNum (num e esc_cells_max);
                     CNum (num b cell_count); CStr (fst (battery_esc_verdict b e));
                     CStr (snd (battery_esc_verdict b e))])%list)
  /\ (forall b e, fst (battery_esc_verdict b e) = "FAIL" <->
        cells_known b e = true /\ cells_within b e = false).
Proof.
  split; [|split; [|split]].
  - intros row. unfold compat_pigtail_esc. rows_as_map. rewrite in_map_iff. split.
    + intros [[p e] [<- Hin]]. apply in_connector_join in Hin.
      destruct Hin as (Hp & He & c & Hc1 & Hc2). exists p, e, c.
      rewrite Hc1. auto.
    + intros (p & e & c & Hp & He & Hc1 & Hc2 & ->). exists (p, e).
      rewrite Hc1. split; [reflexivity|]. apply in_connector_join. eauto.
  - intros row. unfold compat_battery_pigtail. rows_as_map. rewrite in_map_iff. split.
    + intros [[p e] [<- Hin]]. apply in_connector_join in Hin.
      destruct Hin as (Hp & He & c & Hc1 & Hc2). exists p, e, c.
      rewrite Hc1. auto.
    + intros (p & e & c & Hp & He & Hc1 & Hc2 & ->). exists (p, e).
      rewrite Hc1. split; [reflexivity|]. apply in_connector_join. eauto.
  - assert (Hv : forall b e,
      (if cells_known b e && negb (cells_within b e) then "FAIL" else "PASS")
      = fst (battery_esc_verdict b e)
      /\ (if cells_known b e && cells_within b e then "Connector + cells OK"
          else if cells_known b e && negb (cells_within b e)
               then "Cells out of ESC range" else "Connector matched")
         = snd (battery_esc_verdict b e)).
    { intros b e. unfold battery_esc_verdict.
      destruct (cells_known b e), (cells_within b e); split; reflexivity. }
    intros row. unfold compat_battery_esc. rows_as_map. rewrite in_map_iff. split.
    + intros [[b e] [<- Hin]]. apply in_connector_join in Hin.
      destruct Hin as (Hp & He & c & Hc1 & Hc2). exists b, e, c.
      rewrite Hc1. repeat split; auto.
      destruct (Hv b e) as [<- <-]. reflexivity.
    + intros (b & e & c & Hp & He & Hc1 & Hc2 & ->). exists (b, e).
      rewrite Hc1. split; [|apply in_connector_join; eauto].
      destruct (Hv b e) as [<- <-]. reflexivity.
  - intros b e. unfold battery_esc_verdict.
    destruct (cells_known b e), (cells_within b e); simpl; split;
      try discriminate; try tauto; intros [H1 H2]; discriminate.
Qed.

(** ** Parts of another type *)

Lemma filter_filter_same {A} (p q : A -> bool) (l : list A) :
  (forall x, p x = true -> q x = true) -> filter p (filter q l) = filter p l.
Proof.
  intros H. induction l as [|x l IH]; [reflexivity|]. simpl.
  destruct (q x) eqn:Eq; simpl.
  - now rewrite IH.
  - destruct (p x) eqn:Ep; [rewrite (H x Ep) in Eq; discriminate | exact IH].
Qed.

Lemma slice_canonical (t : string) (parts : list part) :
  In t CANON_TYPES ->
  slice t (filter (fun p => mem (type p) CANON_TYPES) parts) = slice t parts.
Proof.
  intros Ht. unfold slice. apply filter_filter_same.
  intros x E. apply String.eqb_eq in E. rewrite E. now apply mem_In.
Qed.

(** X8: [build_compat] reads the parts of the twelve canonical types
    only: a part of any other type (a plural such as "escs" that
    [normalize_type] leaves alone, an empty type) adds nothing to any frame
    and raises nothing. *)
Theorem build_compat_reads_canonical_types (parts : list part) (h : float) :
  build_compat (filter (fun p => mem (type p) CANON_TYPES) parts) h
  = build_compat parts h.
Proof.
  unfold build_compat. cbv zeta.
  rewrite !slice_canonical by (simpl; tauto). reflexivity.
Qed.

(** ** Strings: [strip] and [lower] *)

Lemma lower_char_idem (c : ascii) : lower_char (lower_char c) = lower_char c.
Proof. destruct c as [[] [] [] [] [] [] [] []]; reflexivity. Qed.

Lemma isspace_lower_char (c : ascii) : isspace (lower_char c) = isspace c.
Proof. destruct c as [[] [] [] [] [] [] [] []]; reflexivity. Qed.

Lemma lower_idem (s : string) : lower (lower s) = lower s.
Proof.
  unfold lower. induction s as [|c s IH]; [reflexivity|]. simpl.
  now rewrite lower_char_idem, IH.
Qed.

Lemma lstrip_lower (s : string) : lstrip (lower s) = lower (lstrip s).
Proof.
  unfold lower. induction s as [|c s IH]; [reflexivity|]. simpl.
  rewrite isspace_lower_char. destruct (isspace c); [exact IH | reflexivity].
Qed.

Lemma rstrip_lower (s : string) : rstrip (lower s) = lower (rstrip s).
Proof.
  unfold lower. induction s as [|c s IH]; [reflexivity|]. simpl.
  rewrite IH, isspace_lower_char.
  destruct (rstrip s); simpl; [destruct (isspace c)|]; reflexivity.
Qed.

Lemma strip_lower (s : string) : strip (lower s) = lower (strip s).
Proof. unfold strip. now rewrite lstrip_lower, rstrip_lower. Qed.

Lemma rstrip_idem (s : string) : rstrip (rstrip s) = rstrip s.
Proof.
  induction s as [|c s IH]; [reflexivity|]. simpl.
  destruct (rstrip s) as [|d r] eqn:E.
  - destruct (isspace c) eqn:Ec; [reflexivity|]. simpl. now rewrite Ec.
  - simpl. simpl in IH. rewrite IH. reflexivity.
Qed.

(** A text that does not start with a space keeps its first character
    under [rstrip]. *)
Lemma rstrip_cons (c : ascii) (s : string) :
  isspace c = false -> rstrip (String c s) = String c (rstrip s).
Proof. intros H. simpl. rewrite H. destruct (rstrip s); reflexivity. Qed.

Lemma lstrip_head (s : string) :
  lstrip s = "" \/ exists c r, lstrip s = String c r /\ isspace c = false.
Proof.
  induction s as [|c s IH]; [now left|]. simpl.
  destruct (isspace c) eqn:E; [exact IH|]. right. now exists c, s.
Qed.

Lemma strip_idem (s : string) : strip (strip s) = strip s.
Proof.
  unfold strip. destruct (lstrip_head s) as [-> | (c & r & -> & Hc)]; [reflexivity|].
  rewrite (rstrip_cons c r Hc). simpl lstrip. rewrite Hc.
  rewrite (rstrip_cons c _ Hc). now rewrite rstrip_idem.
Qed.

(** ** schema.py: [normalize_type] *)

Lemma normalize_type_text (t : string) :
  normalize_type (CStr t)
  = let s := lower (strip t) in
    if String.eqb s "motors" then "motor"
    else if String.eqb s "props" || String.eqb s "propellers" then "prop"
    else if String.eqb s "batteries" then "battery"
    else s.
Proof.
  unfold normalize_type, mem. cbn [existsb]. cbv zeta. rewrite !orb_false_r.
  set (s := lower (strip t)).
  destruct (String.eqb s "motors") eqn:E1; [reflexivity|].
  destruct (String.eqb s "props") eqn:E2; [reflexivity|].
  destruct (String.eqb s "propellers") eqn:E3; [reflexivity|].
  reflexivity.
Qed.

Lemma lower_strip_fixed (t : string) :
  lower (strip (lower (strip t))) = lower (strip t).
Proof. now rewrite strip_lower, strip_idem, lower_idem. Qed.

(** X9: on a text of ASCII characters [normalize_type] is idempotent
    and never returns one of the four plurals it knows; it maps the text to a
    canonical type exactly when the text, stripped and in lower case, is a
    canonical type or one of those four plurals, so any other plural ("escs",
    "frames") stays as it is and names no type.  A value that is not a text
    gives the empty type. *)
Theorem normalize_type_canonical (t : cell) :
  (forall s, t = CStr s -> isascii s = true ->
     normalize_type (CStr (normalize_type t)) = normalize_type t
     /\ ~ In (normalize_type t) ["motors"; "props"; "propellers"; "batteries"]
     /\ (In (normalize_type t) CANON_TYPES <->
         In (lower (strip s))
            (CANON_TYPES ++ ["motors"; "props"; "propellers"; "batteries"])%list)
     /\ (In (lower (strip s)) CANON_TYPES -> normalize_type t = lower (strip s)))
  /\ ((forall s, t <> CStr s) -> normalize_type t = "").
Proof.
  assert (Hc : forall s, In s CANON_TYPES ->
            String.eqb s "motors" = false /\ String.eqb s "props" = false
            /\ String.eqb s "propellers" = false /\ String.eqb s "batteries" = false).
  { intros s H. unfold CANON_TYPES in H. simpl in H.
    repeat destruct H as [<- | H]; try (repeat split; reflexivity). elim H. }
  split.
  - intros t0 -> _. rename t0 into t.
    rewrite !normalize_type_text. cbv zeta.
    set (s := lower (strip t)).
    assert (Hs : lower (strip s) = s) by apply lower_strip_fixed.
    split; [|split; [|split]].
    + destruct (String.eqb_spec s "motors") as [E1 | H1]; [reflexivity|].
      destruct (String.eqb_spec s "props") as [E2 | H2]; [reflexivity|].
      destruct (String.eqb_spec s "propellers") as [E3 | H3]; [reflexivity|].
      simpl orb. cbv iota.
      destruct (String.eqb_spec s "batteries") as [E4 | H4]; [reflexivity|].
      rewrite Hs.
      apply String.eqb_neq in H1, H2, H3, H4. now rewrite H1, H2, H3, H4.
    + destruct (String.eqb_spec s "motors") as [E1 | H1];
        [simpl; intuition discriminate|].
      destruct (String.eqb_spec s "props") as [E2 | H2];
        [simpl; intuition discriminate|].
      destruct (String.eqb_spec s "propellers") as [E3 | H3];
        [simpl; intuition discriminate|].
      simpl orb. cbv iota.
      destruct (String.eqb_spec s "batteries") as [E4 | H4];
        [simpl; intuition discriminate|].
      simpl. intuition congruence.
    + rewrite in_app_iff.
      destruct (String.eqb_spec s "motors") as [E1 | H1];
        [rewrite E1; simpl; tauto|].
      destruct (String.eqb_spec s "props") as [E2 | H2];
        [rewrite E2; simpl; tauto|].
      destruct (String.eqb_spec s "propellers") as [E3 | H3];
        [rewrite E3; simpl; tauto|].
      simpl orb. cbv iota.
      destruct (String.eqb_spec s "batteries") as [E4 | H4];
        [rewrite E4; simpl; tauto|].
      split; [tauto|]. intros [H | H]; [exact H|].
      simpl in H. intuition congruence.
    + intros Hin. destruct (Hc s Hin) as (-> & -> & -> & ->). reflexivity.
  - intros H. destruct t as [|x|t]; [reflexivity | reflexivity |].
    elim (H t). reflexivity.
Qed.

(** ** What the canonicalisers return *)

Lemma canon_connector_range (v : option string) (c : string) :
  _canon_connector v = Some c -> In c RF_CONNECTORS.
Proof.
  destruct v as [s|]; [|discriminate]. unfold _canon_connector, RF_CONNECTORS.
  repeat match goal with
         | |- (if ?b then _ else _) = _ -> _ => destruct b
         end; intros [= <-]; simpl; tauto.
Qed.

Lemma canon_prop_hub_range (s : option string) (h : string) :
  _canon_prop_hub s = Some h -> In h ["M5"; "T-MOUNT"].
Proof.
  destruct s as [x|]; [|discriminate]. unfold _canon_prop_hub. cbv zeta.
  repeat match goal with
         | |- (if ?b then _ else _) = _ -> _ => destruct b
         end; intros [= <-]; simpl; tauto.
Qed.

Lemma canon_power_conn_range (s : string) :
  exists t, _canon_power_conn (Some s) = Some t
            /\ (t = "JST-RCY"
                \/ all_chars (fun c => (Ascii.eqb (upper_char c) c
                                        && negb (Ascii.eqb " " c))
                                       && negb (Ascii.eqb "-" c)) t = true).
Proof.
  unfold _canon_power_conn. cbv zeta.
  repeat match goal with
         | |- context [if ?b then _ else _] => destruct b
         end;
    eexists; (split; [reflexivity|]);
    first [ left; reflexivity | right; reflexivity | right; apply power_text_chars ].
Qed.

(** X10: what the canonicalisers can return.  An RF connector is
    null or one of [RF_CONNECTORS]; a mount list holds allowed patterns only,
    none twice, so at most seven; a prop hub and a motor hub are null or one
    of M5 and T-MOUNT, the two classes the hub rule compares; a power
    connector text never becomes null, and its canonical form is JST-RCY or
    an upper-case text with no space and no hyphen. *)
Theorem canonical_forms_stay_in_vocabulary :
  (forall v c, _canon_connector v = Some c -> In c RF_CONNECTORS)
  /\ (forall val, Forall (fun t => In t ALLOWED_MOUNTS) (_canon_mount_list val)
                  /\ NoDup (_canon_mount_list val)
                  /\ List.length (_canon_mount_list val) <= 7)
  /\ (forall s h, _canon_prop_hub s = Some h -> In h ["M5"; "T-MOUNT"])
  /\ (forall x h, _motor_hub_from_shaft x = Some h -> In h ["M5"; "T-MOUNT"])
  /\ (forall s, exists t,
        _canon_power_conn (Some s) = Some t
        /\ (t = "JST-RCY"
            \/ all_chars (fun c => (Ascii.eqb (upper_char c) c
                                    && negb (Ascii.eqb " " c))
                                   && negb (Ascii.eqb "-" c)) t = true)).
Proof.
  split; [exact canon_connector_range|]. split; [|split; [|split]].
  - intros val. destruct (canon_mount_list_invariant val) as [Ha Hn].
    repeat split; auto.
    change 7 with (List.length ALLOWED_MOUNTS).
    apply NoDup_incl_length; [exact Hn|]. intros t Ht.
    rewrite Forall_forall in Ha. auto.
  - exact canon_prop_hub_range.
  - intros x h. unfold _motor_hub_from_shaft. cbv zeta.
    destruct (is_nan x); [discriminate|].
    destruct (4.8 <=? x)%float; [intros [= <-]; simpl; tauto|].
    destruct (x <=? 2.1)%float; [intros [= <-]; simpl; tauto | discriminate].
  - exact canon_power_conn_range.
Qed.

(** ** engine.py: reading JSON payloads *)

Lemma filter_is_dict_idem (l : list json) :
  filter is_dict (filter is_dict l) = filter is_dict l.
Proof. apply filter_filter_same. auto. Qed.

Lemma extract_items_dicts (obj : json) :
  Forall (fun x => is_dict x = true) (_extract_items obj).
Proof.
  assert (H : forall l, Forall (fun x => is_dict x = true) (filter is_dict l)).
  { intros l. apply Forall_forall. intros x Hx. apply filter_In in Hx. apply Hx. }
  destruct obj as [| | | | |l|d]; simpl; try constructor; [apply H|].
  destruct (get "parts" d) as [[| | | | |l|]|];
    try (destruct (get "data" d) as [[| | | | |l'|]|]); try constructor; apply H.
Qed.

(** X11: the rows taken from a JSON payload.  Only objects are taken,
    in their order; in an object payload a list under "parts" is used
    whatever it holds, and "data" is then not looked at.  An object payload
    always gives at least one row: when its list gives none (no "parts" or
    "data" list, an empty list, a list of scalars) the payload itself is the
    one row.  A payload that is no object gives the objects of its list, and
    none if it is no list. *)
Theorem json_payload_rows (payload : json) :
  Forall (fun x => is_dict x = true) (_read_one_json_rows payload)
  /\ _extract_items (JList (_extract_items payload)) = _extract_items payload
  /\ (forall d l, get "parts" d = Some (JList l) ->
        _extract_items (JDict d) = filter is_dict l)
  /\ (forall d, _read_one_json_rows (JDict d) <> []
                /\ (_extract_items (JDict d) = [] ->
                    _read_one_json_rows (JDict d) = [JDict d]))
  /\ (forall d l, get "parts" d = Some (JList l) -> filter is_dict l = [] ->
        _read_one_json_rows (JDict d) = [JDict d])
  /\ (is_dict payload = false ->
      _read_one_json_rows payload = _extract_items payload
      /\ ((forall l, payload <> JList l) -> _read_one_json_rows payload = [])).
Proof.
  split; [|split; [|split; [|split; [|split]]]].
  - unfold _read_one_json_rows. cbv zeta.
    destruct (_extract_items payload) eqn:E; simpl.
    + destruct (is_dict payload) eqn:D; repeat constructor. exact D.
    + rewrite <- E. apply extract_items_dicts.
  - destruct payload as [| | | | |l|d]; simpl; try reflexivity.
    + apply filter_is_dict_idem.
    + destruct (get "parts" d) as [[| | | | |l|]|];
        try (destruct (get "data" d) as [[| | | | |l'|]|]); try reflexivity;
        apply filter_is_dict_idem.
  - intros d l H. simpl. now rewrite H.
  - intros d. unfold _read_one_json_rows. cbv zeta.
    destruct (_extract_items (JDict d)) eqn:E; simpl; split;
      try discriminate; reflexivity.
  - intros d l H Hl. unfold _read_one_json_rows. cbv zeta. simpl _extract_items.
    rewrite H, Hl. reflexivity.
  - intros D. unfold _read_one_json_rows. cbv zeta. rewrite D.
    split; [destruct (_extract_items payload); reflexivity|].
    intros Hl. destruct payload as [| | | | |l|d]; try reflexivity.
    + elim (Hl l). reflexivity.
    + discriminate D.
Qed.

(** ** engine.py: collecting the files *)

Section FilesFacts.
Variable path : Type.
Variable is_dir : path -> result bool.
Variable sorted_glob : path -> string -> list path.
Variable resolve : path -> string.

Lemma uniq_keys (files : list path) (seen : list string) :
  NoDup (map resolve (uniq path resolve seen files))
  /\ (forall g, In g (uniq path resolve seen files) -> ~ In (resolve g) seen).
Proof.
  revert seen. induction files as [|f files IH]; intros seen; simpl.
  - split; [constructor | intros g []].
  - destruct (mem (resolve f) seen) eqn:E; [apply IH|].
    destruct (IH (resolve f :: seen)) as [Hn Hs]. split.
    + simpl. constructor; [|exact Hn]. intros Hin. apply in_map_iff in Hin.
      destruct Hin as [g [Hg Hin]]. apply (Hs g Hin). now left.
    + intros g [<- | Hg]; [now apply mem_not_In|].
      intros Hin. apply (Hs g Hg). now right.
Qed.

Lemma uniq_sublist (files : list path) (seen : list string) :
  sublist (uniq path resolve seen files) files.
Proof.
  revert seen. induction files as [|f files IH]; intros seen; simpl.
  - constructor.
  - destruct (mem (resolve f) seen); constructor; apply IH.
Qed.

Lemma uniq_covers (files : list path) (seen : list string) (f : path) :
  In f files ->
  In (resolve f) seen \/ In (resolve f) (map resolve (uniq path resolve seen files)).
Proof.
  revert seen. induction files as [|x files IH]; intros seen; simpl; [intros []|].
  intros [<- | Hf].
  - destruct (mem (resolve x) seen) eqn:E; [left; now apply mem_In|].
    right. now left.
  - destruct (mem (resolve x) seen) eqn:E; [now apply IH|].
    destruct (IH (resolve x :: seen) Hf) as [[<- | H] | H].
    + right. now left.
    + now left.
    + right. now right.
Qed.

Lemma uniq_first (pre : list path) (f : path) (post : list path) (seen : list string) :
  ~ In (resolve f) seen -> ~ In (resolve f) (map resolve pre) ->
  In f (uniq path resolve seen (pre ++ f :: post)).
Proof.
  revert seen. induction pre as [|x pre IH]; intros seen Hs Hp; simpl.
  - apply mem_not_In in Hs. rewrite Hs. now left.
  - simpl in Hp. destruct (mem (resolve x) seen); [apply IH; tauto|].
    right. apply IH; [|tauto]. intros [E | H]; [|contradiction]. apply Hp. now left.
Qed.

(** X12: [_collect_files] keeps, of the files the paths expand to, the
    first one of every resolved path and drops the later ones: the result
    has no resolved path twice, is in the order of the expansion, and holds
    every resolved path of the expansion.  A path that is no directory, or
    whose [is_dir] raises, stands for itself. *)
Theorem collect_files_keeps_first (paths : list path) :
  let files := expand path is_dir sorted_glob paths in
  let out := _collect_files path is_dir sorted_glob resolve paths in
  NoDup (map resolve out)
  /\ sublist out files
  /\ (forall f, In f files -> In (resolve f) (map resolve out))
  /\ (forall pre f post, files = (pre ++ f :: post)%list ->
        ~ In (resolve f) (map resolve pre) -> In f out)
  /\ (forall p, In p paths ->
        (is_dir p = Ok false \/ exists e, is_dir p = Raise e) -> In p files).
Proof.
  cbv zeta. unfold _collect_files. split; [|split; [|split; [|split]]].
  - apply uniq_keys.
  - apply uniq_sublist.
  - intros f Hf. destruct (uniq_covers _ [] f Hf) as [[] | H]; exact H.
  - intros pre f post E Hp. rewrite E. apply uniq_first; [intros [] | exact Hp].
  - intros p Hp Hd. unfold expand. apply in_flat_map. exists p. split; [exact Hp|].
    unfold _is_dir. destruct Hd as [-> | [e ->]]; now left.
Qed.

End FilesFacts.

(** ** engine.py: the columns of the parts table *)

Lemma in_assign (c x : string) (cols : list string) :
  In c cols \/ c = x -> In c (assign x cols).
Proof.
  unfold assign. destruct (mem x cols) eqn:E.
  - intros [H | ->]; [exact H | now apply mem_In].
  - rewrite in_app_iff. simpl. intuition.
Qed.

Lemma in_fold_assign (c : string) (new cols : list string) :
  In c cols \/ In c new -> In c (fold_left (fun cs x => assign x cs) new cols).
Proof.
  revert cols. induction new as [|x new IH]; intros cols; simpl; [tauto|].
  intros H. apply IH. destruct H as [H | [<- | H]]; auto using in_assign.
Qed.

Lemma in_fold_missing (c : string) (new cols : list string) :
  In c cols \/ In c new ->
  In c (fold_left (fun cs x => if negb (mem x cs) then assign x cs else cs) new cols).
Proof.
  revert cols. induction new as [|x new IH]; intros cols; simpl; [tauto|].
  intros H. apply IH. destruct (mem x cols) eqn:E; simpl.
  - destruct H as [H | [<- | H]]; auto. left. now apply mem_In.
  - destruct H as [H | [<- | H]]; auto using in_assign.
Qed.

(** What [load_parts] always returns once a file was read. *)
Lemma load_parts_columns_in (cols : list string) (c : string) :
  In c (["sku"; "type"; "name"] ++ ALL_FIELDS
        ++ ["vtx_ant_conn_eff"; "antenna_conn_eff"; "battery_connector_eff";
            "esc_batt_connector_eff"; "pigtail_connector_eff"; "prop_hub_eff"])%list ->
  In c (load_parts_columns (Some cols)).
Proof.
  unfold load_parts_columns.
  set (c1 := if negb (mem "type" cols) && mem "part_type" cols then _ else _).
  set (c2 := if negb (mem "name" c1) && mem "generic_name" c1 then _ else _).
  set (c3 := fold_left _ ["sku"; "type"; "name"] c2).
  set (c4 := fold_left _ ["sku"; "name"; "type"] c3).
  set (c5 := fold_left _ ALL_FIELDS c4).
  set (c6 := if mem "vtx_ant_conn" c5 && negb (mem "vtx_ant_conn_eff" c5) then _ else _).
  set (c7 := if mem "antenna_conn" c6 then _ else _).
  assert (H3 : forall x, In x ["sku"; "type"; "name"] -> In x c3).
  { intros x Hx. apply in_fold_missing. now right. }
  assert (H4 : forall x, In x c3 -> In x c4).
  { intros x Hx. apply in_fold_assign. now left. }
  assert (H5 : forall x, In x c4 \/ In x ALL_FIELDS -> In x c5).
  { intros x Hx. now apply in_fold_missing. }
  clearbody c5. clearbody c4. clearbody c3. clear c2 c1.
  assert (H6 : forall x, In x c5 \/ x = "vtx_ant_conn_eff" -> In x c6).
  { intros x Hx. unfold c6.
    assert (Hv : mem "vtx_ant_conn" c5 = true).
    { apply mem_In, H5. right. apply mem_In. vm_compute. reflexivity. }
    rewrite Hv. cbn [andb].
    destruct (mem "vtx_ant_conn_eff" c5) eqn:E; cbn [negb].
    - destruct Hx as [Hx | ->]; [exact Hx | now apply mem_In].
    - now apply in_assign. }
  assert (H7 : forall x, In x c6 \/ x = "antenna_conn_eff" -> In x c7).
  { intros x Hx. unfold c7.
    assert (Hv : mem "antenna_conn" c6 = true).
    { apply mem_In, H6. left. apply H5. right. apply mem_In. vm_compute. reflexivity. }
    rewrite Hv. now apply in_assign. }
  clearbody c7. clearbody c6.
  rewrite !in_app_iff. intros [H | [H | H]].
  - do 4 (apply in_assign; left). apply H7. left. apply H6. left. apply H5. left.
    apply H4, H3, H.
  - do 4 (apply in_assign; left). apply H7. left. apply H6. left. apply H5. right.
    exact H.
  - cbn [In] in H.
    destruct H as [<- | [<- | [<- | [<- | [<- | [<- | []]]]]]].
    + do 4 (apply in_assign; left). apply H7. left. apply H6. now right.
    + do 4 (apply in_assign; left). apply H7. now right.
    + do 3 (apply in_assign; left). apply in_assign. now right.
    + do 2 (apply in_assign; left). apply in_assign. now right.
    + do 1 (apply in_assign; left). apply in_assign. now right.
    + apply in_assign. now right.
Qed.

(** X13: once a file was read, the frame [load_parts] returns has
    every column [build_compat] selects, whatever the columns of the input:
    the rules never meet a missing column.  Every column the rules compare
    as a number is one [load_parts] has turned into floats, except
    [rx_band_ghz], which it leaves as read.  When no file was read the frame
    has the columns sku, type and name only. *)
Theorem load_parts_gives_every_column (cols : list string) :
  incl part_columns (load_parts_columns (Some cols))
  /\ (forall c : num_col, In (num_col_name c) numeric_cols
                          /\ In (num_col_name c) part_columns)
  /\ (forall c : str_col, In (str_col_name c) part_columns)
  /\ In "rx_band_ghz" part_columns
  /\ ~ In "rx_band_ghz" numeric_cols
  /\ incl numeric_cols ALL_FIELDS
  /\ load_parts_columns None = ["sku"; "type"; "name"]
  /\ ~ incl part_columns (load_parts_columns None).
Proof.
  assert (Hall : forall l L, forallb (fun c => mem c L) l = true -> incl l L).
  { intros l L H c Hc. rewrite forallb_forall in H. apply mem_In. auto. }
  split; [|split; [|split; [|split; [|split; [|split; [|split]]]]]].
  - intros c Hc. apply load_parts_columns_in. revert c Hc.
    apply Hall. vm_compute. reflexivity.
  - intros c. split; apply mem_In; destruct c; vm_compute; reflexivity.
  - intros c. apply mem_In; destruct c; vm_compute; reflexivity.
  - apply mem_In. vm_compute. reflexivity.
  - apply mem_not_In. vm_compute. reflexivity.
  - apply Hall. vm_compute. reflexivity.
  - reflexivity.
  - intros H. specialize (H "rx_band_ghz").
    assert (F : mem "rx_band_ghz" (load_parts_columns None) = true).
    { apply mem_In, H, mem_In. vm_compute. reflexivity. }
    vm_compute in F. discriminate F.
Qed.

(** ** engine.py: [_to_float] before [bucket] *)

Lemma bucket_nan (x : float) : is_nan x = true -> bucket (CNum x) = Ok None.
Proof. intros H. unfold bucket. simpl. now rewrite H. Qed.

Lemma nan_buckets_nowhere (v : float) :
  is_nan v = true ->
  (abs (v - 5.8) <? 0.4)%float = false /\ (abs (v - 2.4) <? 0.3)%float = false
  /\ (0.7 <=? v)%float = false.
Proof.
  intros H.
  assert (N : Prim2SF v = S754_nan).
  { destruct (Prim2SF v) eqn:E; try reflexivity;
      assert (F : is_nan v = false) by (apply is_nan_spec; rewrite E; exact I);
      congruence. }
  repeat split.
  - rewrite FloatAxioms.ltb_spec, FloatAxioms.abs_spec, FloatAxioms.sub_spec, N. reflexivity.
  - rewrite FloatAxioms.ltb_spec, FloatAxioms.abs_spec, FloatAxioms.sub_spec, N. reflexivity.
  - now apply leb_nan_r.
Qed.

(** X14: [_to_float] gives the float [float] gives and NaN where it
    raises (a null cell, a text it does not read).  On a cell passed through
    [_to_float], as the cells of [antenna_band_ghz] are, [bucket] never
    raises; it gives the bucket it gives on the cell as read wherever that
    returns, and no bucket where that raises. *)
Theorem to_float_then_bucket (x : cell) :
  (forall v, float_of_cell x = Ok v -> _to_float x = v)
  /\ (forall e, float_of_cell x = Raise e -> is_nan (_to_float x) = true)
  /\ (exists b, bucket (CNum (_to_float x)) = Ok b)
  /\ (forall b, bucket x = Ok b -> bucket (CNum (_to_float x)) = Ok b)
  /\ (forall e, bucket x = Raise e -> bucket (CNum (_to_float x)) = Ok None).
Proof.
  split; [|split; [|split; [|split]]].
  - intros v H. unfold _to_float. now rewrite H.
  - intros e H. unfold _to_float. now rewrite H.
  - apply bucket_ok. reflexivity.
  - intros b. unfold _to_float. destruct x as [|v|s]; simpl float_of_cell.
    + intros H. rewrite <- H. reflexivity.
    + auto.
    + unfold bucket at 1. simpl. destruct (float_of_str s) as [v|] eqn:E; simpl; [|discriminate].
      intros H. unfold bucket. simpl. destruct (is_nan v) eqn:N; [|exact H].
      destruct (nan_buckets_nowhere v N) as (E1 & E2 & E3).
      rewrite E1, E2, E3 in H. exact H.
  - intros e H. apply bucket_raise in H. destruct H as (s & -> & Hs & _).
    unfold _to_float. simpl. rewrite Hs. reflexivity.
Qed.

(** ** cli/compat.py: [--pass-only] *)

Lemma index_of_none (c : string) (cols : list string) :
  index_of c cols = None <-> ~ In c cols.
Proof.
  induction cols as [|x cols IH]; simpl; [tauto|].
  destruct (String.eqb_spec c x) as [-> | Hne].
  - split; [discriminate | intros H; elim H; now left].
  - destruct (index_of c cols); simpl.
    + split; [discriminate|]. intros H.
      assert (F : Some n = None) by (apply IH; tauto). discriminate F.
    + split; [|reflexivity]. intros _ [E | H]; [congruence|].
      now apply (proj1 IH).
Qed.

Lemma filter_none {A} (p : A -> bool) (l : list A) :
  (forall x, In x l -> p x = false) -> filter p l = [].
Proof.
  induction l as [|x l IH]; intros H; [reflexivity|]. simpl.
  rewrite (H x (or_introl eq_refl)). apply IH. intros y Hy. apply H. now right.
Qed.

Lemma filter_sublist {A} (p : A -> bool) (l : list A) : sublist (filter p l) l.
Proof.
  induction l as [|x l IH]; simpl; [constructor|].
  destruct (p x); now constructor.
Qed.

Lemma sublist_refl {A} (l : list A) : sublist l l.
Proof. induction l; now constructor. Qed.

Section CliFacts.
Variable str_of_float : float -> string.

(** The counts of a frame that is not empty and has [status] at [i]. *)
Lemma summary_of_status (k : string) (d : DataFrame) (i : nat) :
  empty d = false -> index_of "status" (columns d) = Some i ->
  summary_of str_of_float k (Some d)
  = {| pair := k;
       pass := List.length (filter (pass_row str_of_float i) (rows d));
       fail := List.length
                 (filter (fun r => is_fail (upper (astype_str str_of_float (nth i r CNull))))
                         (rows d));
       unknown := List.length
                    (filter (fun r => is_unknown
                                        (upper (astype_str str_of_float (nth i r CNull))))
                            (rows d)) |}.
Proof.
  intros He Hi. unfold Summarize.summary_of, column. rewrite He, Hi.
  unfold count_if. rewrite map_map, !length_filter_map. reflexivity.
Qed.

Lemma total_summary_of (k : string) (df : option DataFrame) :
  total (summary_of str_of_float k df)
  = match df with
    | Some d => if empty d then 0 else List.length (rows d)
    | None => 0
    end.
Proof.
  unfold total, Summarize.summary_of. destruct df as [d|]; [|reflexivity].
  destruct (empty d); [reflexivity|].
  destruct (column "status" d) as [col|] eqn:Hc; simpl; [|reflexivity].
  rewrite count_partition, length_map. eapply column_length; eauto.
Qed.

Lemma summary_filtered (k : string) (d : DataFrame) (i : nat) :
  empty d = false -> index_of "status" (columns d) = Some i ->
  summary_of str_of_float k (Some {| columns := columns d; rows := filter (pass_row str_of_float i) (rows d) |})
  = {| pair := k; pass := List.length (filter (pass_row str_of_float i) (rows d));
       fail := 0; unknown := 0 |}.
Proof.
  intros He Hi.
  destruct (filter (pass_row str_of_float i) (rows d)) as [|r l] eqn:Hf.
  - reflexivity.
  - assert (He' : empty {| columns := columns d; rows := r :: l |} = false).
    { unfold empty. simpl. destruct (columns d); [discriminate Hi | reflexivity]. }
    rewrite (summary_of_status k _ i He' Hi). cbn [rows]. rewrite <- Hf.
    f_equal.
    + f_equal. apply filter_filter_same. auto.
    + rewrite filter_none; [reflexivity|]. intros x Hx. apply filter_In in Hx.
      apply pass_is_not_fail, Hx.
    + rewrite filter_none; [reflexivity|]. intros x Hx. apply filter_In in Hx.
      destruct Hx as [_ Hx]. unfold is_unknown. unfold Cli.pass_row in Hx.
      now rewrite Hx.
Qed.

(** X15: [_filter_pass_only] keeps the columns of a frame and, in
    their order, the rows whose status is a pass token; a second run changes
    nothing.  The summary of the filtered frame has the pass count of the
    frame as it was, no fail, and no unknown when the frame has a [status]
    column; a frame without that column is returned as it is. *)
Theorem pass_only_keeps_the_passes (k : string) (df : option DataFrame) :
  let r := summary_of str_of_float k df in
  let r' := summary_of str_of_float k (_filter_pass_only str_of_float df) in
  _filter_pass_only str_of_float (_filter_pass_only str_of_float df) = _filter_pass_only str_of_float df
  /\ pass r' = pass r /\ fail r' = 0
  /\ (forall d, df = Some d -> In "status" (columns d) -> unknown r' = 0)
  /\ (forall d, df = Some d -> ~ In "status" (columns d) -> _filter_pass_only str_of_float df = df)
  /\ (forall d d', df = Some d -> _filter_pass_only str_of_float df = Some d' ->
        columns d' = columns d /\ sublist (rows d') (rows d)).
Proof.
  cbv zeta. destruct df as [d|].
  - destruct (empty d) eqn:He.
    { assert (E : _filter_pass_only str_of_float (Some d) = Some d).
      { unfold Cli._filter_pass_only. now rewrite He. }
      rewrite !E. unfold Summarize.summary_of. rewrite He.
      split; [reflexivity|]. split; [reflexivity|]. split; [reflexivity|].
      split; [reflexivity|]. split; [reflexivity|].
      intros d1 d2 [= <-] [= <-]. split; [reflexivity | apply sublist_refl]. }
    destruct (index_of "status" (columns d)) as [i|] eqn:Hi.
    + assert (E : _filter_pass_only str_of_float (Some d)
                  = Some {| columns := columns d;
                            rows := filter (pass_row str_of_float i) (rows d) |}).
      { unfold Cli._filter_pass_only. now rewrite He, Hi. }
      rewrite !E, (summary_filtered k d i He Hi), (summary_of_status k d i He Hi).
      cbn [pass fail unknown].
      split; [|split; [reflexivity|]; split; [reflexivity|];
               split; [intros; reflexivity|]; split].
      * unfold Cli._filter_pass_only. cbn [columns rows]. rewrite Hi.
        destruct (empty {| columns := columns d; rows := _ |}); [reflexivity|].
        f_equal. f_equal. apply filter_filter_same. auto.
      * intros d1 [= <-] Hn. apply index_of_none in Hn. congruence.
      * intros d1 d2 [= <-] [= <-]. split; [reflexivity | apply filter_sublist].
    + assert (E : _filter_pass_only str_of_float (Some d) = Some d).
      { unfold Cli._filter_pass_only. now rewrite He, Hi. }
      assert (Hf : summary_of str_of_float k (Some d)
                   = {| pair := k; pass := 0; fail := 0;
                        unknown := List.length (rows d) |}).
      { unfold Summarize.summary_of, column. now rewrite He, Hi. }
      rewrite !E, Hf. cbn [pass fail unknown].
      split; [reflexivity|]. split; [reflexivity|]. split; [reflexivity|].
      split; [|split; [reflexivity|]].
      * intros d1 [= <-] Hin. apply index_of_none in Hi. contradiction.
      * intros d1 d2 [= <-] [= <-]. split; [reflexivity | apply sublist_refl].
  - simpl. split; [reflexivity|]. split; [reflexivity|]. split; [reflexivity|].
    split; [intros; discriminate|]. split; [reflexivity | intros; discriminate].
Qed.

End CliFacts.

(** ** cli/compat.py: the merged table and the CSV files *)

Lemma length_flat_map_sum {A B} (f : A -> list B) (l : list A) :
  List.length (flat_map f l) = list_sum (map (fun x => List.length (f x)) l).
Proof.
  induction l as [|x l IH]; [reflexivity|]. simpl. now rewrite length_app, IH.
Qed.

Lemma list_sum_perm (l l' : list nat) : Permutation l l' -> list_sum l = list_sum l'.
Proof. induction 1; simpl; lia. Qed.

Lemma series_apply_insert (l : list (string * DataFrame)) :
  Forall (fun kv => ~ In "pair_type" (columns (snd kv))) l ->
  series_apply (fun kv => insert_pair_type (fst kv) (snd kv)) l
  = Ok (map (fun kv => {| columns := "pair_type" :: columns (snd kv);
                          rows := map (cons (CStr (fst kv))) (rows (snd kv)) |}) l).
Proof.
  induction 1 as [|kv l Hkv Hl IH]; [reflexivity|]. simpl.
  unfold insert_pair_type at 1. apply mem_not_In in Hkv. rewrite Hkv. simpl.
  now rewrite IH.
Qed.

Lemma series_apply_insert_raise (l : list (string * DataFrame)) :
  (exists kv, In kv l /\ In "pair_type" (columns (snd kv))) ->
  exists e, series_apply (fun kv => insert_pair_type (fst kv) (snd kv)) l = Raise e.
Proof.
  induction l as [|x l IH]; intros [kv [Hin Hc]]; [elim Hin|]. simpl.
  unfold insert_pair_type at 1. destruct (mem "pair_type" (columns (snd x))) eqn:E.
  - eexists. reflexivity.
  - simpl. destruct Hin as [<- | Hin].
    + apply mem_In in Hc. congruence.
    + destruct IH as [e He]; [now exists kv|]. rewrite He. eexists. reflexivity.
Qed.

Lemma fold_union_head (ps : list DataFrame) (x : string) (acc : list string) :
  exists rest,
    fold_left (fun acc d => acc ++ filter (fun c => negb (mem c acc)) (columns d))%list
              ps (x :: acc) = x :: rest.
Proof.
  revert acc. induction ps as [|p ps IH]; intros acc; simpl; [now exists acc|].
  apply IH.
Qed.

Lemma union_columns_head (p : DataFrame) (ps : list DataFrame) (x : string)
    (cs : list string) :
  columns p = x :: cs -> exists rest, union_columns (p :: ps) = x :: rest.
Proof.
  intros H. unfold union_columns. simpl. rewrite H. simpl. apply fold_union_head.
Qed.

Section MergeFacts.
Variable str_of_float : float -> string.

Lemma sum_of_totals (compat : list (string * option DataFrame)) :
  list_sum (map total (summarize str_of_float compat))
  = list_sum (map (fun kv => List.length (rows (snd kv))) (filled compat)).
Proof.
  rewrite (list_sum_perm _ _ (Permutation_map total (summarize_perm str_of_float compat))).
  rewrite map_map. unfold filled.
  induction compat as [|[k df] compat IH]; [reflexivity|].
  cbn [map flat_map fst snd list_sum]. rewrite map_app, list_sum_app, <- IH.
  rewrite total_summary_of. f_equal.
  destruct df as [d|]; [|reflexivity]. destruct (empty d); simpl; lia.
Qed.

(** X16: the merged table of [--merge].  On frames with distinct
    labels, none of them [pair_type], [_concat_with_pair_type] returns a
    table with one row for every row of every frame that is not empty, the
    key of the frame in its first cell, under [pair_type] as the first
    column: as many rows as the counts of the summary add up to.  A frame
    that already has a [pair_type] column makes it raise; with no frame to
    keep, the table has no column at all. *)
Theorem merged_table_has_every_edge (compat : list (string * option DataFrame)) :
  (Forall (fun kv => NoDup (columns (snd kv)) /\ ~ In "pair_type" (columns (snd kv)))
          (filled compat) ->
   exists big,
     _concat_with_pair_type compat = Ok big
     /\ List.length (rows big)
        = list_sum (map (fun kv => List.length (rows (snd kv))) (filled compat))
     /\ List.length (rows big) = list_sum (map total (summarize str_of_float compat))
     /\ Forall (fun row => exists k d, In (k, d) (filled compat)
                                       /\ hd_error row = Some (CStr k)) (rows big)
     /\ (filled compat <> [] -> hd_error (columns big) = Some "pair_type"))
  /\ ((exists kv, In kv (filled compat) /\ In "pair_type" (columns (snd kv))) ->
      exists e, _concat_with_pair_type compat = Raise e)
  /\ (filled compat = [] ->
      _concat_with_pair_type compat = Ok {| columns := []; rows := [] |}).
Proof.
  split; [|split].
  - intros H.
    assert (H' : Forall (fun kv => ~ In "pair_type" (columns (snd kv))) (filled compat)).
    { eapply Forall_impl; [|exact H]. intros kv Hkv. apply Hkv. }
    unfold _concat_with_pair_type. rewrite (series_apply_insert _ H'). simpl bind.
    rewrite sum_of_totals.
    destruct (filled compat) as [|kv l] eqn:Hf.
    + eexists. split; [reflexivity|]. simpl.
      repeat split; try constructor. intros F. now elim F.
    + eexists. split; [reflexivity|]. cbn [is_empty map].
      set (p := {| columns := "pair_type" :: columns (snd kv);
                   rows := map (cons (CStr (fst kv))) (rows (snd kv)) |}).
      set (ps := map _ l).
      destruct (union_columns_head p ps "pair_type" (columns (snd kv)) eq_refl)
        as [rest Hu].
      assert (Hlen : List.length (rows (concat (p :: ps)))
                     = list_sum (map (fun kv => List.length (rows (snd kv))) (kv :: l))).
      { unfold concat. cbn [rows]. rewrite length_flat_map_sum.
        change (p :: ps) with (map (fun kv => {| columns := "pair_type" :: columns (snd kv);
          rows := map (cons (CStr (fst kv))) (rows (snd kv)) |}) (kv :: l)).
        rewrite map_map. f_equal. apply map_ext. intros x. unfold reindex.
        cbn [rows]. now rewrite !length_map. }
      split; [exact Hlen|]. split; [exact Hlen|]. split.
      * unfold concat. cbn [rows]. apply Forall_forall. intros row Hrow.
        apply in_flat_map in Hrow. destruct Hrow as [q [Hq Hrow]].
        change (p :: ps) with (map (fun kv => {| columns := "pair_type" :: columns (snd kv);
          rows := map (cons (CStr (fst kv))) (rows (snd kv)) |}) (kv :: l)) in Hq.
        apply in_map_iff in Hq. destruct Hq as [[k d] [<- Hkd]].
        exists k, d. split; [exact Hkd|].
        unfold reindex in Hrow. cbn [rows columns fst snd] in Hrow.
        apply in_map_iff in Hrow. destruct Hrow as [r [<- Hr]].
        apply in_map_iff in Hr. destruct Hr as [r0 [<- _]].
        rewrite Hu. reflexivity.
      * intros _. unfold concat. cbn [columns]. now rewrite Hu.
  - intros H. unfold _concat_with_pair_type.
    destruct (series_apply_insert_raise _ H) as [e He]. rewrite He. now exists e.
  - intros H. unfold _concat_with_pair_type. rewrite H. reflexivity.
Qed.

Lemma pass_only_piece (k : string) (df : option DataFrame) :
  (forall d, df = Some d -> empty d = false -> In "status" (columns d)) ->
  map fst (match _filter_pass_only str_of_float df with
           | Some d => if empty d then [] else [(k, d)]
           | None => []
           end)
  = if Nat.ltb 0 (pass (summary_of str_of_float k df)) then [k] else [].
Proof.
  intros Hkv. destruct df as [d|]; [|reflexivity].
  destruct (empty d) eqn:He.
  { unfold Cli._filter_pass_only, Summarize.summary_of. rewrite He, He. reflexivity. }
  destruct (index_of "status" (columns d)) as [i|] eqn:Hi.
  - rewrite (summary_of_status str_of_float k d i He Hi). cbn [pass].
    unfold Cli._filter_pass_only. rewrite He, Hi.
    unfold empty. cbn [rows columns].
    destruct (filter (pass_row str_of_float i) (rows d)) as [|r l]; [reflexivity|].
    destruct (columns d); [discriminate Hi | reflexivity].
  - apply index_of_none in Hi. elim Hi. now apply (Hkv d).
Qed.

Lemma filled_pass_only (compat : list (string * option DataFrame)) :
  Forall (fun kv => forall d, snd kv = Some d -> empty d = false ->
                              In "status" (columns d)) compat ->
  map fst (filled (pass_only str_of_float compat))
  = map fst (filter (fun kv => Nat.ltb 0 (pass (summary_of str_of_float (fst kv) (snd kv))))
                    compat).
Proof.
  induction 1 as [|[k df] compat Hkv Hc IH]; [reflexivity|].
  unfold pass_only in *. cbn [map filled flat_map fst snd filter] in *.
  rewrite map_app. unfold filled in IH. rewrite IH. clear IH.
  rewrite (pass_only_piece k df Hkv).
  destruct (Nat.ltb 0 _); reflexivity.
Qed.

(** X17: [_write_csv_dir] writes one file, named by the key, for every
    frame that is not empty, in the order of the mapping: those are the pairs
    whose summary row is not all zero.  After [--pass-only], on frames that
    have a [status] column, they are the pairs with a pass count above
    zero. *)
Theorem csv_files_follow_the_summary (compat : list (string * option DataFrame)) :
  map fst (_write_csv_dir compat)
  = map (fun kv => fst kv ++ ".csv")
        (filter (fun kv => Nat.ltb 0 (total (summary_of str_of_float (fst kv) (snd kv))))
                compat)
  /\ Forall (fun f => empty (snd f) = false) (_write_csv_dir compat)
  /\ (Forall (fun kv => forall d, snd kv = Some d -> empty d = false ->
                                  In "status" (columns d)) compat ->
      map fst (_write_csv_dir (pass_only str_of_float compat))
      = map (fun kv => fst kv ++ ".csv")
            (filter (fun kv => Nat.ltb 0 (pass (summary_of str_of_float (fst kv) (snd kv))))
                    compat)).
Proof.
  split; [|split].
  - unfold _write_csv_dir. rewrite map_map. cbn [fst].
    induction compat as [|[k df] compat IH]; [reflexivity|].
    cbn [filled flat_map filter fst snd]. rewrite map_app.
    unfold filled in IH. rewrite IH, total_summary_of.
    destruct df as [d|]; [|reflexivity]. destruct (empty d) eqn:He; [reflexivity|].
    assert (Hr : Nat.ltb 0 (List.length (rows d)) = true).
    { apply Nat.ltb_lt. unfold empty in He. destruct (rows d); [discriminate He|].
      simpl. lia. }
    rewrite Hr. reflexivity.
  - unfold _write_csv_dir. apply Forall_forall. intros f Hf.
    apply in_map_iff in Hf. destruct Hf as [[k d] [<- Hkd]]. cbn [snd].
    unfold filled in Hkd. apply in_flat_map in Hkd. destruct Hkd as [[k' df] [_ Hkd]].
    cbn [snd fst] in Hkd. destruct df as [d'|]; [|elim Hkd].
    destruct (empty d') eqn:He; [elim Hkd|].
    destruct Hkd as [[= <- <-] | []]. exact He.
  - intros H. unfold _write_csv_dir. rewrite map_map. cbn [fst].
    rewrite <- (map_map fst (fun k => k ++ ".csv")), (filled_pass_only compat H).
    now rewrite map_map.
Qed.

End MergeFacts.

(** ** cli/compat.py: the printed summary *)

Lemma length_padding (c : ascii) (n : nat) : String.length (padding c n) = n.
Proof. induction n as [|n IH]; simpl; [reflexivity | now rewrite IH]. Qed.

Lemma length_append (a b : string) :
  String.length (a ++ b) = String.length a + String.length b.
Proof. induction a as [|c a IH]; simpl; [reflexivity | now rewrite IH]. Qed.

Lemma length_ljust (s : string) (w : nat) :
  String.length (ljust s w) = Nat.max (String.length s) w.
Proof. unfold ljust. rewrite length_append, length_padding. lia. Qed.

Lemma length_rjust (s : string) (w : nat) :
  String.length (rjust s w) = Nat.max (String.length s) w.
Proof. unfold rjust. rewrite length_append, length_padding. lia. Qed.

(** A count below 10 000 is written with at most four digits, one below
    1 000 with at most three. *)
Lemma count_digits (n : nat) :
  ((Z.of_nat n < 10000)%Z -> String.length (str_of_nonneg (Z.of_nat n)) <= 4)
  /\ ((Z.of_nat n < 1000)%Z -> String.length (str_of_nonneg (Z.of_nat n)) <= 3).
Proof.
  assert (H4 : forallb (fun n => Nat.leb (String.length (str_of_nonneg (Z.of_nat n))) 4)
                       (seq 0 (Z.to_nat 10000)) = true) by (vm_compute; reflexivity).
  assert (H3 : forallb (fun n => Nat.leb (String.length (str_of_nonneg (Z.of_nat n))) 3)
                       (seq 0 (Z.to_nat 1000)) = true) by (vm_compute; reflexivity).
  rewrite forallb_forall in H4, H3. split; intros Hn.
  - apply Nat.leb_le, H4, in_seq. lia.
  - apply Nat.leb_le, H3, in_seq. lia.
Qed.

Lemma length_count_field (n w : nat) :
  String.length (str_of_nonneg (Z.of_nat n)) <= w ->
  String.length (count_field n w) = w.
Proof. intros H. unfold count_field. rewrite length_rjust. lia. Qed.

Lemma pair_width_bound (summary : list summary_row) (r : summary_row) :
  In r summary ->
  String.length (pair r)
  <= fold_right (fun r m => Nat.max (String.length (pair r)) m) 0 summary.
Proof.
  induction summary as [|x l IH]; [intros []|]. simpl.
  intros [<- | H]; [lia|]. specialize (IH H). lia.
Qed.

(** X18: the table of [--print-summary].  When every pass and fail
    count is below 10 000 and every unknown count below 1 000, every printed
    line (the header, the rule under it, one line per pair) has the same
    length: the widest pair name, or 16 if that is more, and 17 characters for
    the three counts.  Nothing is printed for an empty summary. *)
Theorem summary_table_is_aligned (summary : list summary_row) :
  Forall (fun r => (Z.of_nat (pass r) < 10000 /\ Z.of_nat (fail r) < 10000
                    /\ Z.of_nat (unknown r) < 1000)%Z) summary ->
  let width := Nat.max 16 (fold_right (fun r m => Nat.max (String.length (pair r)) m)
                                      0 summary) in
  Forall (fun line => String.length line = width + 17) (summary_lines summary)
  /\ List.length (summary_lines summary)
     = (if is_empty summary then 0 else 2 + List.length summary)
  /\ Forall (fun r => String.length (pair r) <= width) summary.
Proof.
  intros H. cbv zeta. unfold summary_lines. cbv zeta.
  pose proof (pair_width_bound summary) as Hb.
  set (pw := fold_right (fun r m => Nat.max (String.length (pair r)) m) 0 summary) in *.
  clearbody pw.
  assert (Hw : forall r, In r summary -> String.length (pair r) <= Nat.max 16 pw).
  { intros r Hr. specialize (Hb r Hr). lia. }
  assert (Hh : String.length (ljust "PAIR" (Nat.max 16 pw) ++ "  PASS  FAIL  UNK")
               = Nat.max 16 pw + 17).
  { rewrite length_append, length_ljust. cbn [String.length]. lia. }
  split; [|split].
  - destruct (is_empty summary); [constructor|].
    apply Forall_cons; [exact Hh|]. apply Forall_cons.
    + rewrite length_padding. exact Hh.
    + apply Forall_forall. intros line Hl. apply in_map_iff in Hl.
      destruct Hl as [r [<- Hr]].
      rewrite Forall_forall in H. destruct (H r Hr) as (Hp & Hf & Hu).
      rewrite !length_append, length_ljust.
      rewrite !length_count_field.
      * specialize (Hw r Hr). cbn [String.length]. lia.
      * now apply count_digits.
      * now apply count_digits.
      * now apply count_digits.
  - destruct summary; simpl; [reflexivity|]. now rewrite length_map.
  - apply Forall_forall. exact Hw.
Qed.

Lemma summary_table_is_aligned_witness :
  Forall (fun line => String.length line = 16 + 17)
         (summary_lines [{| pair := "Compat_a_b"; pass := 12; fail := 3; unknown := 0 |}]).
Proof.
  apply (summary_table_is_aligned
           [{| pair := "Compat_a_b"; pass := 12; fail := 3; unknown := 0 |}]).
  repeat constructor; simpl; lia.
Defined.

(** ** cli/compat.py: sheet names *)

Lemma length_substring0 (n : nat) (s : string) :
  String.length (substring 0 n s) = Nat.min n (String.length s).
Proof.
  revert s. induction n as [|n IH]; intros s; destruct s as [|c s]; simpl;
    try reflexivity. now rewrite IH.
Qed.

Lemma prefix_substring0 (n : nat) (s : string) : prefix (substring 0 n s) s = true.
Proof.
  revert s. induction n as [|n IH]; intros s; destruct s as [|c s]; simpl;
    try reflexivity. destruct (ascii_dec c c); [apply IH | congruence].
Qed.

Lemma prefix_refl (s : string) : prefix s s = true.
Proof.
  induction s as [|c s IH]; simpl; [reflexivity|].
  destruct (ascii_dec c c); [exact IH | congruence].
Qed.

Lemma substring0_all (n : nat) (s : string) :
  String.length s <= n -> substring 0 n s = s.
Proof.
  revert s. induction n as [|n IH]; intros s; destruct s as [|c s]; simpl;
    try reflexivity; intros H; [lia|]. rewrite IH; [reflexivity | lia].
Qed.

(** X19: [_safe_sheet_name] gives a name of at most 31 characters that
    starts the name it was given, and the name itself when it fits; run on
    its own result it changes nothing.  The sheet of every key of
    [build_compat] is the key without its [Compat_] prefix, none is cut short
    and no two keys share a sheet. *)
Theorem sheet_names_fit (name : string) (parts : list part) (h : float) :
  String.length (_safe_sheet_name name) <= 31
  /\ prefix (_safe_sheet_name name) name = true
  /\ (String.length name <= 31 -> _safe_sheet_name name = name)
  /\ _safe_sheet_name (_safe_sheet_name name) = _safe_sheet_name name
  /\ (forall out, build_compat parts h = Ok out ->
        NoDup (map (fun kv => sheet_name (fst kv)) out)
        /\ Forall (fun kv => "Compat_" ++ sheet_name (fst kv) = fst kv
                             /\ String.length (sheet_name (fst kv)) < 31) out).
Proof.
  assert (H1 : String.length (_safe_sheet_name name) <= 31).
  { unfold _safe_sheet_name. destruct (Nat.ltb 31 (String.length name)) eqn:E.
    - rewrite length_substring0. lia.
    - apply Nat.ltb_ge in E. exact E. }
  assert (H3 : forall s, String.length s <= 31 -> _safe_sheet_name s = s).
  { intros s Hs. unfold _safe_sheet_name.
    destruct (Nat.ltb 31 (String.length s)) eqn:E; [|reflexivity].
    apply Nat.ltb_lt in E. lia. }
  split; [exact H1|]. split; [|split; [apply H3|split; [now apply H3|]]].
  - unfold _safe_sheet_name. destruct (Nat.ltb 31 (String.length name));
      [apply prefix_substring0 | apply prefix_refl].
  - intros out Hout. apply build_compat_ok_frames in Hout. destruct Hout as [Hs _].
    assert (Hk : map fst out = map fst COMPAT_SCHEMA).
    { rewrite <- Hs. unfold schema_of. rewrite map_map. reflexivity. }
    split.
    + rewrite <- (map_map fst sheet_name), Hk.
      assert (E : nodup string_dec (map sheet_name (map fst COMPAT_SCHEMA))
                  = map sheet_name (map fst COMPAT_SCHEMA)) by (vm_compute; reflexivity).
      rewrite <- E. apply NoDup_nodup.
    + assert (F : Forall (fun k => "Compat_" ++ sheet_name k = k
                                   /\ String.length (sheet_name k) < 31)
                         (map fst out)).
      { rewrite Hk. cbn [map fst COMPAT_SCHEMA].
        repeat (apply Forall_cons; [split; [reflexivity | vm_compute; lia]|]).
        apply Forall_nil. }
      rewrite Forall_map in F. exact F.
Qed.

Lemma sheet_names_fit_witness :
  _safe_sheet_name "Compat_esc_motor" = "Compat_esc_motor".
Proof.
  refine (proj1 (proj2 (proj2 (sheet_names_fit "Compat_esc_motor" [] 1.2))) _).
  simpl. lia.
Defined.

(** ** summarize.py: the order of the rows *)

Section SortedSummary.
Variable str_of_float : float -> string.

Lemma insert_row_sorted (r : summary_row) (l : list summary_row) :
  Sorted (fun a b => String.leb (pair a) (pair b) = true) l ->
  Sorted (fun a b => String.leb (pair a) (pair b) = true) (insert_row r l).
Proof.
  induction 1 as [|x l Hl IH Hx]; simpl.
  - repeat constructor.
  - destruct (String.leb (pair r) (pair x)) eqn:E.
    + constructor; [now constructor | now constructor].
    + constructor; [exact IH|].
      assert (Hxr : String.leb (pair x) (pair r) = true).
      { destruct (String.leb_total (pair x) (pair r)) as [H | H]; congruence. }
      destruct l as [|y l]; simpl.
      * now constructor.
      * inversion Hx as [|? ? Hxy]; subst.
        destruct (String.leb (pair r) (pair y)); now constructor.
Qed.

Lemma sort_values_sorted (l : list summary_row) :
  Sorted (fun a b => String.leb (pair a) (pair b) = true) (sort_values l).
Proof.
  induction l as [|r l IH]; simpl; [constructor | now apply insert_row_sorted].
Qed.

(** X20: the rows of [summarize] stand in ascending order of the pair
    name, compared character by character by code: every row's name is at
    most the next row's, whatever the order of the mapping was.  A [Compat_]
    prefix gives a name no precedence of its own. *)
Theorem summarize_is_sorted (compat : list (string * option DataFrame)) :
  Sorted (fun a b => String.leb (pair a) (pair b) = true)
                (summarize str_of_float compat)
  /\ (forall a b pre post,
        summarize str_of_float compat = (pre ++ a :: b :: post)%list ->
        String.leb (pair a) (pair b) = true).
Proof.
  assert (S : Sorted (fun a b => String.leb (pair a) (pair b) = true)
                (summarize str_of_float compat)).
  { unfold summarize. cbv zeta. destruct (is_empty _) eqn:E.
    - destruct (map _ compat); [constructor | discriminate E].
    - apply sort_values_sorted. }
  split; [exact S|].
  intros a b pre post E. rewrite E in S. clear E.
  induction pre as [|x pre IH]; simpl in S.
  - inversion S as [|? ? _ Hd]; subst. inversion Hd; subst. assumption.
  - inversion S; subst. auto.
Qed.

End SortedSummary.

(** ** Products by one, and in either order *)

Section FloatProducts.
Import Binary64.
Local Open Scope Z_scope.

Lemma digits2_shift52 (m : positive) :
  Zpos (digits2_pos (4503599627370496 * m)) = Zpos (digits2_pos m) + 52.
Proof.
  pose proof (digits2_bounds m) as Dm.
  pose proof (digits2_bounds (4503599627370496 * m)) as Dp.
  rewrite Pos2Z.inj_mul in Dp.
  set (d := Zpos (digits2_pos m)) in *.
  set (d' := Zpos (digits2_pos (4503599627370496 * m))) in *.
  assert (Hd : 1 <= d) by (unfold d; lia).
  assert (Hd' : 1 <= d') by (unfold d'; lia).
  assert (E1 : 2 ^ (d + 52) = 4503599627370496 * 2 ^ d).
  { rewrite Z.pow_add_r by lia. change (2 ^ 52) with 4503599627370496. lia. }
  assert (E2 : 2 ^ (d - 1 + 52) = 4503599627370496 * 2 ^ (d - 1)).
  { rewrite Z.pow_add_r by lia. change (2 ^ 52) with 4503599627370496. lia. }
  destruct (Z.lt_trichotomy d' (d + 52)) as [H | [H | H]]; [exfalso | exact H | exfalso].
  - assert (2 ^ d' <= 2 ^ (d - 1 + 52)) by (apply Z.pow_le_mono_r; lia). lia.
  - assert (2 ^ (d + 52) <= 2 ^ (d' - 1)) by (apply Z.pow_le_mono_r; lia). lia.
Qed.

Lemma SFmul_one_l (x : spec_float) :
  valid_binary x = true ->
  SFmul prec emax (S754_finite false 4503599627370496 (-52)) x = x.
Proof.
  intros V. destruct x as [s | s | | s m e]; try reflexivity.
  cbn [valid_binary] in V.
  rewrite SFmul_finite by (try exact V; reflexivity).
  pose proof (canonical_facts m e V) as (Hd & He & _).
  unfold bounded, canonical_mantissa in V. apply andb_true_iff in V.
  destruct V as [Vc Ve]. apply Z.eqb_eq in Vc. apply Z.leb_le in Ve.
  change (emax - prec) with 971 in Ve.
  rewrite digits2_shift52.
  replace (Zpos (digits2_pos m) + 52 + (-52 + e)) with (Zpos (digits2_pos m) + e) by lia.
  rewrite Vc. replace (e - (-52 + e)) with 52 by lia.
  assert (Hr : rne (Zpos (4503599627370496 * m)) 52 = Zpos m).
  { assert (Hq : (4503599627370496 * Zpos m) / 4503599627370496 = Zpos m)
      by (rewrite Z.mul_comm; apply Z.div_mul; lia).
    assert (Hm : (4503599627370496 * Zpos m) mod 4503599627370496 = 0)
      by (rewrite Z.mul_comm; apply Z.mod_mul; lia).
    unfold rne. cbv zeta. rewrite Pos2Z.inj_mul.
    change (2 ^ 52) with 4503599627370496. rewrite Hq, Hm. reflexivity. }
  rewrite Hr. unfold rounded. simpl xorb.
  pose proof (digits2_bounds m) as Dm.
  assert (Hlt : Zpos m < 2 ^ 53).
  { apply Z.lt_le_trans with (2 ^ Zpos (digits2_pos m)); [apply Dm|].
    apply Z.pow_le_mono_r; lia. }
  destruct (Z.eqb_spec (Zpos m) 0) as [E | _]; [lia|].
  destruct (Z.eqb_spec (Zpos m) (2 ^ 53)) as [E | _]; [lia|].
  destruct (Z.leb_spec e 971) as [_ | E]; [reflexivity | lia].
Qed.

Lemma SFmul_comm (x y : spec_float) : SFmul prec emax x y = SFmul prec emax y x.
Proof.
  destruct x as [sx | sx | | sx mx ex], y as [sy | sy | | sy my ey];
    cbn [SFmul]; try reflexivity; try (now rewrite xorb_comm).
  now rewrite xorb_comm, Pos.mul_comm, Z.add_comm.
Qed.

End FloatProducts.

Lemma mul_one_l (x : float) : (1 * x)%float = x.
Proof.
  apply FloatAxioms.Prim2SF_inj. rewrite FloatAxioms.mul_spec. unfold SF64mul.
  change (Prim2SF 1) with (S754_finite false 4503599627370496 (-52)).
  apply SFmul_one_l, FloatAxioms.Prim2SF_valid.
Qed.

Lemma mul_comm (x y : float) : (x * y)%float = (y * x)%float.
Proof.
  apply FloatAxioms.Prim2SF_inj. rewrite !FloatAxioms.mul_spec. apply SFmul_comm.
Qed.

(** ** esc - motor: headroom 1 *)

(** X21: at headroom 1 the product in the headroom test is the motor
    current itself, so the rule passes exactly the pairs with overlapping
    cell ranges whose ESC current is known to be at least the motor current:
    the pairs the basic rule passes with the reason "current OK & cells
    overlap". *)
Theorem headroom_one_is_the_current_test (e m : part) :
  (1 * num m max_current_a)%float = num m max_current_a
  /\ (head_verdict 1 e m = "PASS" <-> cells_ok e m = Some true /\ cur_ok e m = true)
  /\ (head_verdict 1 e m = "PASS" <->
      _eval_basic (e, m) = ("PASS", "current OK & cells overlap")).
Proof.
  split; [apply mul_one_l|].
  assert (H : head_verdict 1 e m = "PASS" <->
              cells_ok e m = Some true /\ cur_ok e m = true).
  { rewrite head_verdict_cases. unfold cells_ok, cur_ok, current_suffices.
    rewrite s_overlap_cases, mul_one_l.
    destruct (is_nan (num e esc_continuous_current_a)),
             (is_nan (num m max_current_a)),
             (range_missing e m), (ranges_overlap e m),
             (num m max_current_a <=? num e esc_continuous_current_a)%float;
      simpl; split; try discriminate; try tauto; intros [H1 H2]; discriminate. }
  split; [exact H|]. rewrite H, eval_basic_cases.
  destruct (cells_ok e m) as [[|]|], (cur_ok e m); split;
    try discriminate; try tauto; intros [H1 H2]; discriminate.
Qed.

(** ** capacitor - esc *)

Lemma nonneg_not_finite (x : float) :
  (0 <=? x)%float = true -> is_finite x = false -> x = infinity.
Proof.
  intros H0 Hf.
  assert (Hn : is_nan x = false).
  { destruct (is_nan x) eqn:N; [|reflexivity].
    rewrite (leb_nan_r 0 x N) in H0. discriminate. }
  unfold is_finite in Hf. rewrite Hn in Hf. cbn [orb] in Hf.
  apply negb_false_iff in Hf. unfold is_infinity in Hf.
  rewrite FloatAxioms.eqb_spec, FloatAxioms.abs_spec in Hf.
  rewrite FloatAxioms.leb_spec in H0.
  apply FloatAxioms.Prim2SF_inj.
  change (Prim2SF infinity) with (S754_infinity false) in *.
  change (Prim2SF 0) with (S754_zero false) in H0.
  destruct (Prim2SF x) as [s | [|] | | s m e]; simpl in *; try discriminate;
    reflexivity.
Qed.

(** X22: the capacitor - esc frame has a row for every capacitor with a
    known voltage and every ESC with a known cell maximum.  The voltage
    shown as [esc_vmax] is 4.2 V for each cell; the capacitor passes when it
    reaches 1.05 times that.  So, for an ESC whose [esc_vmax] is not
    negative, a PASS capacitor reaches [esc_vmax], as the reason says; for a
    negative cell maximum it need not (a -26 V capacitor passes beside an
    [esc_vmax] of -25.2 V).  A FAIL row need not be below [esc_vmax]: a 26 V
    capacitor on a 6 cell ESC fails beside an [esc_vmax] of 25.2 V. *)
Theorem capacitor_needs_five_percent_more (caps escs : list part) :
  (forall row, In row (rows (compat_cap_esc caps escs)) <->
     exists c e, In c caps /\ In e escs
       /\ is_nan (num c capacitor_voltage_v) = false
       /\ is_nan (num e esc_cells_max) = false
       /\ row = (ids c e
                 ++ [CNum (num c capacitor_voltage_v); CNum (esc_vmax e);
                     CStr (cap_verdict c e);
                     CStr (if String.eqb (cap_verdict c e) "PASS"
                           then "Cap voltage ≥ VBAT max"
                           else "Cap voltage < VBAT max")])%list)
  /\ (forall c e, fle 0 (esc_vmax e) = true ->
        cap_verdict c e = "PASS" ->
        fle (esc_vmax e) (num c capacitor_voltage_v) = true)
  /\ (fle (esc_vmax (esc_with 30)) (num (capacitor_with 26) capacitor_voltage_v) = true
      /\ cap_verdict (capacitor_with 26) (esc_with 30) = "FAIL")
  /\ (cap_verdict (capacitor_with (-26)) (esc_of_cells (-6)) = "PASS"
      /\ fle (esc_vmax (esc_of_cells (-6)))
             (num (capacitor_with (-26)) capacitor_voltage_v) = false).
Proof.
  split; [|split; [|split]].
  - intros row. unfold compat_cap_esc. rows_as_map.
    rewrite cartesian_list_prod, in_map_iff. split.
    + intros [[c e] [<- Hin]]. apply in_prod_iff in Hin.
      unfold dropna_num in Hin. rewrite !filter_In in Hin. cbn [forallb] in Hin.
      rewrite !andb_true_r, !negb_true_iff in Hin.
      exists c, e. intuition.
    + intros (c & e & Hc & He & Nc & Ne & ->). exists (c, e). split; [reflexivity|].
      apply in_prod_iff. unfold dropna_num. rewrite !filter_In. cbn [forallb].
      rewrite !andb_true_r, !negb_true_iff. auto.
  - intros c e H0 Hp. unfold cap_verdict in Hp. unfold fle in *.
    destruct (esc_v_need e <=? num c capacitor_voltage_v)%float eqn:E; [|discriminate].
    unfold esc_v_need in E. rewrite mul_comm in E.
    destruct (is_finite (esc_vmax e)) eqn:Hf.
    + rewrite <- (mul_one_l (esc_vmax e)).
      apply (float_mul_le_mono 1 1.05 (esc_vmax e)); auto.
    + rewrite (nonneg_not_finite _ H0 Hf) in E |- *. exact E.
  - vm_compute. split; reflexivity.
  - vm_compute. split; reflexivity.
Qed.

Lemma capacitor_needs_five_percent_more_witness :
  fle (esc_vmax (esc_with 30)) (num (capacitor_with 35) capacitor_voltage_v) = true.
Proof.
  refine (proj1 (proj2 (capacitor_needs_five_percent_more [] []))
                (capacitor_with 35) (esc_with 30) _ _); vm_compute; reflexivity.
Defined.

(** ** The rules on currents and sizes *)

Lemma in_dropna_num1 (c : num_col) (l : list part) (a : part) :
  In a (dropna_num [c] l) <-> In a l /\ is_nan (num a c) = false.
Proof.
  unfold dropna_num. rewrite filter_In. cbn [forallb].
  now rewrite andb_true_r, negb_true_iff.
Qed.

Lemma in_dropna_num2 (c d : num_col) (l : list part) (a : part) :
  In a (dropna_num [c; d] l)
  <-> In a l /\ is_nan (num a c) = false /\ is_nan (num a d) = false.
Proof.
  unfold dropna_num. rewrite filter_In. cbn [forallb].
  now rewrite andb_true_r, andb_true_iff, !negb_true_iff.
Qed.

Lemma in_map_pairs {A B C} (f : A * B -> C) (l : list A) (r : list B) (x : C) :
  In x (map f (_cartesian l r)) <-> exists a b, In a l /\ In b r /\ x = f (a, b).
Proof.
  rewrite cartesian_list_prod, in_map_iff. split.
  - intros [[a b] [<- H]]. apply in_prod_iff in H. exists a, b. tauto.
  - intros (a & b & Ha & Hb & ->). exists (a, b). split; [reflexivity|].
    now apply in_prod_iff.
Qed.

Lemma supplies_pass (have need : float) :
  supplies have need = "PASS" <-> fle need have = true.
Proof.
  unfold supplies, fle. destruct (need <=? have)%float; split; intros H;
    try reflexivity; discriminate.
Qed.

(** X23: the rules that compare a supply with a need (the four
    fc - vtx rails, the fc - camera 5 V rule, frame - prop) list exactly the
    pairs whose two values are both known, so the comparison never meets a
    missing value: a row is FAIL exactly when the supply is strictly below
    the need, and the reason of every row states a true inequality.  A part
    that supplies more passes whatever a weaker one passes, and a part that
    needs less passes wherever a hungrier one passes. *)
Theorem supply_rules_compare_known_values (fcs vtxs cams frames props : list part)
    (fc_col vtx_col : num_col) (V : Z) :
  (forall row, In row (rows (_rail fcs vtxs fc_col vtx_col V)) <->
     exists f v, In f fcs /\ In v vtxs
       /\ is_nan (num f fc_col) = false /\ is_nan (num v vtx_col) = false
       /\ row = (ids f v
                 ++ [CNum (num f fc_col); CNum (num v vtx_col);
                     CStr (supplies (num f fc_col) (num v vtx_col));
                     CStr (if String.eqb (supplies (num f fc_col) (num v vtx_col)) "PASS"
                           then "FC " ++ str_of_nonneg V ++ "V BEC ≥ VTX current"
                           else "FC " ++ str_of_nonneg V ++ "V BEC < VTX current")])%list)
  /\ (forall row, In row (rows (compat_fc_cam_5v fcs cams)) <->
     exists f c, In f fcs /\ In c cams
       /\ is_nan (num f fc_bec_5v_a) = false
       /\ is_nan (num c camera_5v_current_a) = false
       /\ row = (ids f c
                 ++ [CNum (num f fc_bec_5v_a); CNum (num c camera_5v_current_a);
                     CStr (supplies (num f fc_bec_5v_a) (num c camera_5v_current_a));
                     CStr (if String.eqb (supplies (num f fc_bec_5v_a)
                                                   (num c camera_5v_current_a)) "PASS"
                           then "FC 5V BEC ≥ camera current"
                           else "FC 5V BEC < camera current")])%list)
  /\ (forall row, In row (rows (compat_frame_prop frames props)) <->
     exists f p, In f frames /\ In p props
       /\ is_nan (num f frame_max_prop_in) = false
       /\ is_nan (num p prop_diameter_in) = false
       /\ row = (ids f p
                 ++ [CNum (num f frame_max_prop_in); CNum (num p prop_diameter_in);
                     CStr (supplies (num f frame_max_prop_in) (num p prop_diameter_in));
                     CStr (if String.eqb (supplies (num f frame_max_prop_in)
                                                   (num p prop_diameter_in)) "PASS"
                           then "Prop diameter ≤ frame max"
                           else "Prop diameter > frame max")])%list)
  /\ (forall have need, is_nan have = false -> is_nan need = false ->
        (supplies have need = "FAIL" <-> (have <? need)%float = true))
  /\ (forall have have' need,
        supplies have need = "PASS" -> fle have have' = true ->
        supplies have' need = "PASS")
  /\ (forall have need need',
        supplies have need = "PASS" -> fle need' need = true ->
        supplies have need' = "PASS").
Proof.
  split; [|split; [|split; [|split; [|split]]]].
  - intros row. unfold _rail. rows_as_map. rewrite in_map_pairs.
    split.
    + intros (f & v & Hf & Hv & ->). apply in_dropna_num1 in Hf, Hv.
      exists f, v. unfold supplies. tauto.
    + intros (f & v & Hf & Hv & Nf & Nv & ->). exists f, v.
      rewrite !in_dropna_num1. unfold supplies. tauto.
  - intros row. unfold compat_fc_cam_5v. rows_as_map. rewrite in_map_pairs.
    split.
    + intros (f & c & Hf & Hc & ->). apply in_dropna_num1 in Hf, Hc.
      exists f, c. unfold supplies. tauto.
    + intros (f & c & Hf & Hc & Nf & Nc & ->). exists f, c.
      rewrite !in_dropna_num1. unfold supplies. tauto.
  - intros row. unfold compat_frame_prop. rows_as_map. rewrite in_map_pairs.
    split.
    + intros (f & p & Hf & Hp & ->). apply in_dropna_num1 in Hf, Hp.
      exists f, p. unfold supplies. tauto.
    + intros (f & p & Hf & Hp & Nf & Np & ->). exists f, p.
      rewrite !in_dropna_num1. unfold supplies. tauto.
  - intros have need Hh Hn. rewrite (ltb_leb have need Hh Hn). unfold supplies.
    destruct (need <=? have)%float; simpl; split; intros H;
      try reflexivity; discriminate.
  - intros have have' need H1 H2. apply supplies_pass in H1. apply supplies_pass.
    unfold fle in *. exact (leb_trans _ _ _ H1 H2).
  - intros have need need' H1 H2. apply supplies_pass in H1. apply supplies_pass.
    unfold fle in *. exact (leb_trans _ _ _ H2 H1).
Qed.

Lemma supply_rules_compare_known_values_witness :
  supplies 3%float 1.5%float = "PASS".
Proof.
  refine (proj1 (proj2 (proj2 (proj2 (proj2
            (supply_rules_compare_known_values [] [] [] [] []
               fc_bec_5v_a vtx_5v_current_a 5)))))
          2%float 3%float 1.5%float _ _); vm_compute; reflexivity.
Defined.

(** ** fc - camera on the 10 V and 12 V rails *)

(** X24: the 10 V and 12 V camera rules look at the input range
    of the camera only.  The BEC rating of the flight controller decides
    whether the pair is listed (the rating must be known) but not the verdict,
    and it is not shown: flight controllers with the same sku and name give
    the same frame whatever their known ratings, so one rated 0 A passes every
    camera that takes the voltage.  The voltage is compared as the float of
    the integer, and a camera whose range is upside down takes no voltage. *)
Theorem camera_rail_is_voltage_only (fcs cams : list part) (V : Z) (fc_col : num_col) :
  (forall row, In row (rows (_cam_accepts fcs cams V fc_col)) <->
     exists f c, In f fcs /\ In c cams
       /\ is_nan (num f fc_col) = false
       /\ is_nan (num c camera_input_v_min) = false
       /\ is_nan (num c camera_input_v_max) = false
       /\ row = (ids f c
                 ++ [CNum (num c camera_input_v_min); CNum (num c camera_input_v_max);
                     CStr (if cam_takes V c then "PASS" else "FAIL");
                     CStr (if cam_takes V c
                           then "Camera accepts " ++ str_of_nonneg V ++ "V"
                           else "Camera " ++ str_of_nonneg V ++ "V out of range")])%list)
  /\ (forall f f', sku f = sku f' -> name f = name f' ->
        is_nan (num f fc_col) = false -> is_nan (num f' fc_col) = false ->
        _cam_accepts [f] cams V fc_col = _cam_accepts [f'] cams V fc_col)
  /\ (float_of_int 10 = 10%float /\ float_of_int 12 = 12%float)
  /\ (forall c, fle (num c camera_input_v_min) (num c camera_input_v_max) = false ->
        cam_takes V c = false).
Proof.
  split; [|split; [|split]].
  - intros row. unfold _cam_accepts. rows_as_map. rewrite in_map_pairs. split.
    + intros (f & c & Hf & Hc & ->). apply in_dropna_num1 in Hf.
      apply in_dropna_num2 in Hc. exists f, c. unfold cam_takes. tauto.
    + intros (f & c & Hf & Hc & Nf & N1 & N2 & ->). exists f, c.
      rewrite in_dropna_num1, in_dropna_num2. unfold cam_takes. tauto.
  - intros f f' Hs Hn Nf Nf'. unfold _cam_accepts, dropna_num. cbn [filter forallb].
    rewrite Nf, Nf'. cbn [negb andb].
    destruct (filter _ cams) as [|c l]; [reflexivity|].
    unfold _cartesian, ids. cbn [is_empty orb list_prod map app].
    rewrite !app_nil_r, !map_map. cbn [app]. rewrite Hs, Hn. reflexivity.
  - split; vm_compute; reflexivity.
  - intros c H. unfold cam_takes. unfold fle in H.
    destruct (num c camera_input_v_min <=? float_of_int V)%float eqn:E1; [|reflexivity].
    destruct (float_of_int V <=? num c camera_input_v_max)%float eqn:E2; [|reflexivity].
    rewrite (leb_trans _ _ _ E1 E2) in H. discriminate.
Qed.

Lemma camera_rail_is_voltage_only_witness :
  _cam_accepts [fc_with 2%float 0%float] [camera_with 7%float 16%float None] 10 fc_bec_10v_a
  = _cam_accepts [fc_with 2%float 3%float] [camera_with 7%float 16%float None] 10 fc_bec_10v_a.
Proof.
  refine (proj1 (proj2 (camera_rail_is_voltage_only [] [camera_with 7%float 16%float None]
                          10 fc_bec_10v_a))
          (fc_with 2%float 0%float) (fc_with 2%float 3%float) _ _ _ _); reflexivity.
Defined.

(** ** fc - vtx on the battery voltage *)

(** X25: the VBAT rule lists exactly the pairs with all four cell
    bounds known, so [_s_overlap] always decides there: no row stands for an
    unknown answer.  A row is PASS exactly when each lower bound is at most
    each upper bound, and FAIL rows are pairs whose ranges are known to be
    apart (or upside down). *)
Theorem vbat_rule_is_always_decided (fcs vtxs : list part) :
  forall row, In row (rows (compat_fc_vtx_vbat fcs vtxs)) <->
    exists f v, In f fcs /\ In v vtxs
      /\ is_nan (num f fc_vbat_min_s) = false /\ is_nan (num f fc_vbat_max_s) = false
      /\ is_nan (num v vtx_input_s_min) = false /\ is_nan (num v vtx_input_s_max) = false
      /\ _s_overlap (num f fc_vbat_min_s) (num f fc_vbat_max_s)
                    (num v vtx_input_s_min) (num v vtx_input_s_max)
         = Some (vbat_overlap f v)
      /\ row = (ids f v
                ++ [CNum (num f fc_vbat_min_s); CNum (num f fc_vbat_max_s);
                    CNum (num v vtx_input_s_min); CNum (num v vtx_input_s_max);
                    CStr (if vbat_overlap f v then "PASS" else "FAIL");
                    CStr (if vbat_overlap f v then "VBAT ranges overlap"
                          else "VBAT ranges do not overlap")])%list.
Proof.
  assert (E : forall f v,
    is_nan (num f fc_vbat_min_s) = false -> is_nan (num f fc_vbat_max_s) = false ->
    is_nan (num v vtx_input_s_min) = false -> is_nan (num v vtx_input_s_max) = false ->
    _s_overlap (num f fc_vbat_min_s) (num f fc_vbat_max_s)
               (num v vtx_input_s_min) (num v vtx_input_s_max)
    = Some (vbat_overlap f v)).
  { intros f v H1 H2 H3 H4. unfold _s_overlap, vbat_overlap. cbn [existsb].
    rewrite H1, H2, H3, H4. cbn [orb]. f_equal.
    rewrite (max_le_min _ _ _ _ H1 H3 H2 H4).
    destruct (fle (num f fc_vbat_min_s) (num f fc_vbat_max_s)),
             (fle (num f fc_vbat_min_s) (num v vtx_input_s_max)),
             (fle (num v vtx_input_s_min) (num f fc_vbat_max_s)),
             (fle (num v vtx_input_s_min) (num v vtx_input_s_max)); reflexivity. }
  intros row. unfold compat_fc_vtx_vbat. rows_as_map. rewrite in_map_pairs. split.
  - intros (f & v & Hf & Hv & ->). apply in_dropna_num2 in Hf, Hv.
    destruct Hf as (Hf & H1 & H2). destruct Hv as (Hv & H3 & H4).
    exists f, v. rewrite (E f v H1 H2 H3 H4).
    repeat (split; [assumption || reflexivity|]).
    destruct (vbat_overlap f v); reflexivity.
  - intros (f & v & Hf & Hv & H1 & H2 & H3 & H4 & _ & ->). exists f, v.
    rewrite !in_dropna_num2, (E f v H1 H2 H3 H4).
    repeat (split; [tauto|]). destruct (vbat_overlap f v); reflexivity.
Qed.

(** ** vtx - camera *)

Lemma sys_key_eqb (v c : part) :
  key_eqb (sys_key v vtx_system) (sys_key c camera_system) = true
  <-> (str v vtx_system = None /\ str c camera_system = None)
      \/ exists sv sc, str v vtx_system = Some sv /\ str c camera_system = Some sc
                       /\ lower (strip sv) = lower (strip sc).
Proof.
  unfold sys_key.
  destruct (str v vtx_system) as [sv|], (str c camera_system) as [sc|]; simpl.
  - rewrite String.eqb_eq. split.
    + intros H. right. exists sv, sc. auto.
    + intros [[H _] | (a & b & [= <-] & [= <-] & H)]; [discriminate | exact H].
  - split; [discriminate|]. intros [[H _] | (a & b & _ & H & _)]; discriminate.
  - split; [discriminate|]. intros [[_ H] | (a & b & H & _)]; discriminate.
  - split; [tauto | reflexivity].
Qed.

Lemma in_dropna_ids (c : str_col) (l : list part) (a : part) :
  In a (dropna_ids c l) <-> In a l /\ named a = true /\ exists s, str a c = Some s.
Proof.
  unfold dropna_ids, named. rewrite filter_In, andb_true_iff.
  destruct (str a c) as [s|]; simpl; split.
  - intros (Ha & Hn & _). repeat split; auto. now exists s.
  - intros (Ha & Hn & _). auto.
  - intros (_ & _ & H). discriminate H.
  - intros (_ & _ & s & H). discriminate H.
Qed.

(** X26: when the system texts are ASCII, the vtx - camera frame has a
    PASS row exactly for the pairs of a VTX and a camera that both have a sku
    and a name and whose two system texts are present and equal once
    stripped and put in lower case; the row shows that form.  So the
    spelling of a system may differ in case and in outer white space, two
    parts whose system is a blank text (not a missing one) are matched with
    each other, and a part with a null sku or name is in no row. *)
Theorem video_systems_match_by_name (vtxs cams : list part) :
  Forall (fun v => forall s, str v vtx_system = Some s -> isascii s = true) vtxs ->
  Forall (fun c => forall s, str c camera_system = Some s -> isascii s = true) cams ->
  (forall row, In row (rows (compat_vtx_camera vtxs cams)) <->
     exists v c sv sc, In v vtxs /\ In c cams
       /\ named v = true /\ named c = true
       /\ str v vtx_system = Some sv /\ str c camera_system = Some sc
       /\ lower (strip sv) = lower (strip sc)
       /\ row = (ids v c ++ [CStr (lower (strip sv)); CStr "PASS";
                             CStr "Systems match"])%list)
  /\ (forall v c sv, In v vtxs -> In c cams -> named v = true -> named c = true ->
        str v vtx_system = Some sv ->
        (str c camera_system = Some (lower sv) \/ str c camera_system = Some (strip sv)) ->
        In (ids v c ++ [CStr (lower (strip sv)); CStr "PASS"; CStr "Systems match"])%list
           (rows (compat_vtx_camera vtxs cams)))
  /\ (forall v c sv sc, In v vtxs -> In c cams -> named v = true -> named c = true ->
        str v vtx_system = Some sv -> str c camera_system = Some sc ->
        strip sv = "" -> strip sc = "" ->
        In (ids v c ++ [CStr ""; CStr "PASS"; CStr "Systems match"])%list
           (rows (compat_vtx_camera vtxs cams)))
  /\ (forall v c, named v = false \/ named c = false ->
        rows (compat_vtx_camera [v] [c]) = []).
Proof.
  intros _ _.
  assert (R : forall vs cs row, In row (rows (compat_vtx_camera vs cs)) <->
     exists v c sv sc, In v vs /\ In c cs
       /\ named v = true /\ named c = true
       /\ str v vtx_system = Some sv /\ str c camera_system = Some sc
       /\ lower (strip sv) = lower (strip sc)
       /\ row = (ids v c ++ [CStr (lower (strip sv)); CStr "PASS";
                             CStr "Systems match"])%list).
  { intros vs cs row. unfold compat_vtx_camera. rows_as_map. rewrite in_map_iff. split.
    - intros [[v c] [<- H]]. apply in_merge in H. destruct H as (Hv & Hc & E).
      apply in_dropna_ids in Hv, Hc.
      destruct Hv as (Hv & Nv & sv & Hsv). destruct Hc as (Hc & Nc & sc & Hsc).
      apply sys_key_eqb in E.
      destruct E as [[E _] | (a & b & Ha & Hb & E)]; [congruence|].
      exists v, c, sv, sc. replace a with sv in * by congruence.
      replace b with sc in * by congruence.
      unfold sys_key. rewrite Hsv. simpl. auto 12.
    - intros (v & c & sv & sc & Hv & Hc & Nv & Nc & Hsv & Hsc & E & ->).
      exists (v, c). split.
      + unfold sys_key. rewrite Hsv. reflexivity.
      + apply in_merge. rewrite !in_dropna_ids. repeat split; eauto.
        apply sys_key_eqb. right. eauto. }
  split; [apply R|]. split; [|split].
  - intros v c sv Hv Hc Nv Nc Hsv [Hsc | Hsc]; apply R.
    + exists v, c, sv, (lower sv). rewrite strip_lower, lower_idem. auto 12.
    + exists v, c, sv, (strip sv). rewrite strip_idem. auto 12.
  - intros v c sv sc Hv Hc Nv Nc Hsv Hsc Ev Ec. apply R. exists v, c, sv, sc.
    rewrite Ev, Ec. auto 12.
  - intros v c H.
    destruct (rows (compat_vtx_camera [v] [c])) as [|row l] eqn:E; [reflexivity|].
    assert (Hin : In row (rows (compat_vtx_camera [v] [c]))) by (rewrite E; now left).
    apply R in Hin.
    destruct Hin as (v' & c' & sv & sc & [<- | []] & [<- | []] & Nv & Nc & _).
    destruct H as [H | H]; congruence.
Qed.

Lemma video_systems_match_by_name_witness :
  In (ids (vtx_of_system (Some " DJI O3 ")) (camera_with nan nan (Some "DJI O3"))
      ++ [CStr "dji o3"; CStr "PASS"; CStr "Systems match"])%list
     (rows (compat_vtx_camera [vtx_of_system (Some " DJI O3 ")]
                              [camera_with nan nan (Some "DJI O3")])).
Proof.
  refine (proj1 (proj2 (video_systems_match_by_name
                          [vtx_of_system (Some " DJI O3 ")]
                          [camera_with nan nan (Some "DJI O3")] _ _))
          (vtx_of_system (Some " DJI O3 ")) (camera_with nan nan (Some "DJI O3"))
          " DJI O3 " _ _ _ _ _ _).
  - repeat constructor. intros s [= <-]. reflexivity.
  - repeat constructor. intros s [= <-]. reflexivity.
  - left. reflexivity.
  - left. reflexivity.
  - reflexivity.
  - reflexivity.
  - reflexivity.
  - right. reflexivity.
Defined.

(** ** The theorems above at sample inputs *)

Lemma s_overlap_decides_witness : _s_overlap 5 3 1 2 <> Some true.
Proof.
  refine (proj1 (proj2 (proj2 (s_overlap_decides 5 3 1 2))) _). reflexivity.
Defined.

Lemma basic_rule_never_fails_on_current_witness :
  _eval_basic (esc_with 10, motor_with 20 3)
  = ("PASS", "cells overlap (current unknown)").
Proof.
  refine (proj1 (proj2 (proj2 (proj2
            (basic_rule_never_fails_on_current 1.2 (esc_with 10) (motor_with 20 3)))))
          _ _); reflexivity.
Defined.

Lemma mount_rule_shares_a_token_witness :
  common_mount (esc_with 30) esc_mount_pattern_eff (esc_with 30) fc_mount_pattern_eff
  = false.
Proof.
  refine (proj2 (proj2 (proj2
            (mount_rule_shares_a_token [] [] esc_mount_pattern_eff fc_mount_pattern_eff
                                       [] [] "")))
          (esc_with 30) (esc_with 30) _).
  reflexivity.
Defined.

Lemma normalize_type_canonical_witness :
  normalize_type (CStr " ESC ") = lower (strip " ESC ").
Proof.
  refine (proj2 (proj2 (proj2 (proj1 (normalize_type_canonical (CStr " ESC "))
                                     " ESC " eq_refl eq_refl))) _).
  vm_compute. tauto.
Defined.

Lemma canonical_forms_stay_in_vocabulary_witness : In "RP-SMA" RF_CONNECTORS.
Proof.
  refine (proj1 canonical_forms_stay_in_vocabulary (Some "rp-sma") "RP-SMA" _).
  reflexivity.
Defined.

Lemma json_payload_rows_witness :
  _read_one_json_rows (JDict [("parts", JList [JInt 1]); ("data", JList [JDict []])])
  = [JDict [("parts", JList [JInt 1]); ("data", JList [JDict []])]].
Proof.
  refine (proj1 (proj2 (proj2 (proj2 (proj2 (json_payload_rows JNull)))))
          [("parts", JList [JInt 1]); ("data", JList [JDict []])] [JInt 1] _ _);
    reflexivity.
Defined.

Lemma collect_files_keeps_first_witness :
  In "a.json" (expand string (fun _ => Raise TypeError) (fun _ _ => []) ["a.json"]).
Proof.
  refine (proj2 (proj2 (proj2 (proj2
            (collect_files_keeps_first string (fun _ => Raise TypeError)
               (fun _ _ => []) (fun p => p) ["a.json"]))))
          "a.json" _ _).
  - left. reflexivity.
  - right. exists TypeError. reflexivity.
Defined.

Lemma to_float_then_bucket_witness :
  bucket (CNum (_to_float (CStr "2.4GHz"))) = Ok None.
Proof.
  refine (proj2 (proj2 (proj2 (proj2 (to_float_then_bucket (CStr "2.4GHz")))))
          (ValueError "2.4GHz") _).
  vm_compute. reflexivity.
Defined.

Lemma pass_only_keeps_the_passes_witness :
  unknown (summary_of (fun _ => "") "Compat_a_b"
             (_filter_pass_only (fun _ => "") (Some three_edges))) = 0.
Proof.
  refine (proj1 (proj2 (proj2 (proj2
            (pass_only_keeps_the_passes (fun _ => "") "Compat_a_b" (Some three_edges)))))
          three_edges eq_refl _).
  simpl. tauto.
Defined.

Lemma merged_table_has_every_edge_witness :
  exists big,
    _concat_with_pair_type [("Compat_a_b", Some three_edges)] = Ok big
    /\ List.length (rows big)
       = list_sum (map (fun kv => List.length (rows (snd kv)))
                       (filled [("Compat_a_b", Some three_edges)]))
    /\ List.length (rows big)
       = list_sum (map total (summarize (fun _ => "")
                                [("Compat_a_b", Some three_edges)]))
    /\ Forall (fun row => exists k d,
                 In (k, d) (filled [("Compat_a_b", Some three_edges)])
                 /\ hd_error row = Some (CStr k)) (rows big)
    /\ (filled [("Compat_a_b", Some three_edges)] <> [] ->
        hd_error (columns big) = Some "pair_type").
Proof.
  refine (proj1 (merged_table_has_every_edge (fun _ => "")
                   [("Compat_a_b", Some three_edges)]) _).
  repeat constructor; simpl; intuition discriminate.
Defined.

Lemma csv_files_follow_the_summary_witness :
  map fst (_write_csv_dir (pass_only (fun _ => "") [("Compat_a_b", Some three_edges)]))
  = map (fun kv => fst kv ++ ".csv")
        (filter (fun kv => Nat.ltb 0 (pass (summary_of (fun _ => "") (fst kv) (snd kv))))
                [("Compat_a_b", Some three_edges)]).
Proof.
  refine (proj2 (proj2 (csv_files_follow_the_summary (fun _ => "")
                          [("Compat_a_b", Some three_edges)])) _).
  repeat constructor. intros d [= <-] _. simpl. tauto.
Defined.

Lemma summarize_is_sorted_witness :
  String.leb (pair {| pair := "a"; pass := 0; fail := 0; unknown := 0 |})
             (pair {| pair := "b"; pass := 0; fail := 0; unknown := 0 |}) = true.
Proof.
  refine (proj2 (summarize_is_sorted (fun _ => "") [("b", None); ("a", None)])
          _ _ [] [] _).
  reflexivity.
Defined.
